(** * csend: the Python machine-mode clients, embedded in Rocq

    The development follows the three Python sources that drive the
    [csend_posix] child process over line-delimited JSON:

    - [csend_client.py]   : [CSendClient], the asyncio client with a
      registry of response futures (module [Client]);
    - [csend_chatbot.py]  : [CSendChatbot], with its rate limiter and
      conversation history (module [Chatbot]), and its own small
      [CSendClient] (module [ChatClient]);
    - [test_machine_mode.py] : [CSendMachineMode], the threaded test
      harness with startup and shutdown sequences (module [Harness]).

    Module [Wire] holds what they share: decoded JSON values, the lines
    of the child's output, Python exceptions, the child process.

    Python objects are modelled as records, dictionaries as [gmap]s,
    [asyncio.Future] objects as cells of a store indexed by address, and
    each coroutine as the sequence of its atomic sections between two
    suspension points.  The library calls ([readline], [decode],
    [json.loads], [wait_for], [Popen]) are modelled by their outcomes. *)

From Stdlib Require Import ZArith QArith Lqa PrimFloat.
From stdpp Require Import base gmap list strings pretty.

Set Warnings "-register-all".
Local Open Scope Z_scope.

(** ** Python helpers shared by the modules *)

(** [d[k]] on a [defaultdict(list)] read: the stored list, or the empty
    list when the key is absent. *)
Definition dget {A} (k : string) (d : gmap string (list A)) : list A :=
  default [] (d !! k).

(** [l[start:]] with Python's normalisation of the start index: a
    negative index counts from the end, and the result is clamped to the
    bounds of the list. *)
Definition py_slice_from {A} (start : Z) (l : list A) : list A :=
  let n := Z.of_nat (length l) in
  let s := if start <? 0 then Z.max 0 (start + n) else Z.min start n in
  drop (Z.to_nat s) l.

(** [x < y] and [x <= y] on rational numbers are decidable. *)
#[global] Instance Qlt_decision (x y : Q) : Decision (x < y)%Q.
Proof.
  destruct (Qlt_le_dec x y) as [H|H]; [left; exact H|right; by apply Qle_not_lt].
Defined.

#[global] Instance Qle_decision (x y : Q) : Decision (x <= y)%Q.
Proof.
  destruct (Qlt_le_dec y x) as [H|H]; [right; by apply Qlt_not_le|left; exact H].
Defined.

(** ["needle" in hay] on Python strings. *)
Fixpoint contains (needle hay : string) : bool :=
  String.prefix needle hay ||
  match hay with
  | EmptyString => false
  | String _ rest => contains needle rest
  end.

(** * The wire: decoded JSON values and lines of the child's output *)

Module Wire.

(** The Python value built by [json.loads]: [None], [bool], [int],
    [float], [str], [list] and [dict]. *)
Inductive json : Type :=
| JNull
| JBool (b : bool)
| JInt (z : Z)
| JFloat (f : float)
| JStr (s : string)
| JArr (items : list json)
| JObj (fields : list (string * json)).

(** Lookup in a decoded object; the keys of a [dict] are distinct, so the
    first binding is the binding. *)
Fixpoint assoc (key : string) (fields : list (string * json)) : option json :=
  match fields with
  | [] => None
  | (k, v) :: rest => if String.eqb k key then Some v else assoc key rest
  end.

(** [d.get(key, dflt)]. *)
Definition get_or (key : string) (dflt : json) (fields : list (string * json)) : json :=
  default dflt (assoc key fields).

(** [d.get(key)]: [None] when the key is absent. *)
Definition get (key : string) (fields : list (string * json)) : json :=
  get_or key JNull fields.

(** Python truth value of a decoded value, as tested by [if v:]. *)
Definition truthy (v : json) : bool :=
  match v with
  | JNull => false
  | JBool b => b
  | JInt z => negb (z =? 0)
  | JFloat f => negb (PrimFloat.eqb f 0%float)
  | JStr s => negb (String.eqb s "")
  | JArr items => match items with [] => false | _ => true end
  | JObj fields => match fields with [] => false | _ => true end
  end.

(** [v == "text"] for a string literal. *)
Definition is_str (v : json) (text : string) : bool :=
  match v with
  | JStr s => String.eqb s text
  | _ => false
  end.

(** What one turn of a read loop gets from [readline()], [bytes.decode()]
    and [json.loads()], which are library calls: the stream is at its end
    ([readline] returned [b'']), the bytes are not UTF-8 ([decode] raises
    [UnicodeDecodeError]), the text is not JSON ([json.loads] raises
    [JSONDecodeError]), or a value is decoded.  [readline] itself is taken
    not to raise. *)
Inductive rline : Type :=
| Eof
| BadUtf8
| BadJson
| Decoded (v : json).



(** The Python exceptions (subclasses of [Exception]) the clients meet.
    [HandlerError] stands for whatever an application handler raises;
    [NotReadyInTime] and [TerminatedUnexpectedly] are the two
    [Exception(...)] values raised by the [connect] methods. *)
Inductive exn : Type :=
| UnicodeDecodeError
| JSONDecodeError
| AttributeError
| TypeError
| KeyError
| InvalidStateError
| TimeoutError
| HandlerError
| NotReadyInTime
| TerminatedUnexpectedly.

Definition is_json_decode_error (e : exn) : bool :=
  match e with JSONDecodeError => true | _ => false end.

(** [line.decode().strip()] followed by [json.loads]; the empty line
    of the end of the stream is no JSON text either. *)
Definition loads (l : rline) : exn + json :=
  match l with
  | Eof => inl JSONDecodeError
  | BadUtf8 => inl UnicodeDecodeError
  | BadJson => inl JSONDecodeError
  | Decoded v => inr v
  end.

(** The child process as the clients see it: how long after the [/quit]
    command it exits by itself, and how long after [SIGTERM]; [None] when
    it never does.  [SIGKILL] cannot be ignored.  Time is counted in
    milliseconds throughout. *)
Record child := Child {
  quit_delay : option nat;
  term_delay : option nat
}.

Inductive signal := SIGTERM | SIGKILL.

Definition opt_min (a b : option nat) : option nat :=
  match a, b with
  | Some x, Some y => Some (Nat.min x y)
  | Some x, None => Some x
  | None, b => b
  end.

Definition after (at_time : option nat) (delay : option nat) : option nat :=
  match at_time, delay with
  | Some t, Some d => Some (t + d)%nat
  | _, _ => None
  end.

(** When the child exits, given the times at which [/quit] was written
    to it, [SIGTERM] was sent and [SIGKILL] was sent ([None]: not at all);
    [None] when it keeps running. *)
Definition exit_time (ch : child) (quit_at term_at kill_at : option nat) : option nat :=
  opt_min (after quit_at (quit_delay ch))
          (opt_min (after term_at (term_delay ch)) kill_at).

End Wire.

(** * csend_chatbot.py: rate limiter and conversation history *)

Module Chatbot.

(** One entry of [self.conversations[username]]:
    [{"role": ..., "content": ...}]. *)
Record turn := Turn { role : string; content : string }.

(** The fields of [CSendChatbot] that [check_rate_limit] and
    [generate_response] read and write.  [max_context] is
    [self.config["max_context"]]. *)
Record chatbot := Bot {
  max_context : Z;
  conversations : gmap string (list turn);
  rate_limiter : gmap string (list Q);
  rate_limit : Z
}.

(** [CSendChatbot.__init__]: the defaults. *)
Definition init : chatbot :=
  {| max_context := 20; conversations := ∅; rate_limiter := ∅; rate_limit := 20 |}.

Definition set_rate_limiter (r : gmap string (list Q)) (b : chatbot) : chatbot :=
  {| max_context := max_context b; conversations := conversations b;
     rate_limiter := r; rate_limit := rate_limit b |}.

Definition set_conversations (c : gmap string (list turn)) (b : chatbot) : chatbot :=
  {| max_context := max_context b; conversations := c;
     rate_limiter := rate_limiter b; rate_limit := rate_limit b |}.

(** The list comprehension [[t for t in ... if t > minute_ago]]. *)
Definition prune (minute_ago : Q) (ts : list Q) : list Q :=
  filter (λ t, (minute_ago < t)%Q) ts.

(** [check_rate_limit(username)], with the value of [time.time()] as the
    argument [now].  A time is the rational number that the float
    denotes, and the subtraction is exact. *)
Definition check_rate_limit (now : Q) (username : string) (b : chatbot)
  : bool * chatbot :=
  let minute_ago := (now - 60)%Q in
  let kept := prune minute_ago (dget username (rate_limiter b)) in
  let r1 := <[username := kept]> (rate_limiter b) in
  if bool_decide (rate_limit b ≤ Z.of_nat (length kept))
  then (false, set_rate_limiter r1 b)
  else (true, set_rate_limiter (<[username := kept ++ [now]]> r1) b).

(** Successive calls of [check_rate_limit] for one user, at the given
    times; the answers are collected in call order. *)
Fixpoint check_all (times : list Q) (username : string) (b : chatbot)
  : list bool * chatbot :=
  match times with
  | [] => ([], b)
  | now :: rest =>
      let '(r, b1) := check_rate_limit now username b in
      let '(rs, b2) := check_all rest username b1 in
      (r :: rs, b2)
  end.

(** The fallback text returned when the API call raises. *)
Definition fallback_text : string :=
  "I'm having trouble connecting to my AI service right now. Please try again in a moment.".

(** The first half of [generate_response]: the user's message is
    appended, then the history is trimmed when it is longer than
    [max_context * 2]. *)
Definition append_and_trim (username message : string) (b : chatbot) : chatbot :=
  let h1 := dget username (conversations b) ++ [Turn "user" message] in
  let b1 := set_conversations (<[username := h1]> (conversations b)) b in
  if bool_decide (max_context b1 * 2 < Z.of_nat (length h1))
  then set_conversations
         (<[username := py_slice_from (- max_context b1) h1]> (conversations b1)) b1
  else b1.

(** [generate_response(username, message)].  The call to the Anthropic
    API is outside the repository: [api] is its outcome, [Some text] for
    [response.content[0].text] and [None] when the call raises. *)
Definition generate_response (api : option string) (username message : string)
    (b : chatbot) : string * chatbot :=
  let b2 := append_and_trim username message b in
  match api with
  | Some response_text =>
      let h := dget username (conversations b2) ++ [Turn "assistant" response_text] in
      (response_text, set_conversations (<[username := h]> (conversations b2)) b2)
  | None => (fallback_text, b2)
  end.

End Chatbot.

(** * csend_client.py: the asyncio client *)

Module Client.
Import Wire.

(** An [asyncio.Future]: pending, done with a result, or cancelled. *)
Inductive future (A : Type) : Type :=
| Pending
| Done (result : A)
| Cancelled.
Arguments Pending {A}.
Arguments Done {A} result.
Arguments Cancelled {A}.

(** A registered handler.  [Callback name raises] is a callable of the
    application: calling it is recorded under [name], and it raises when
    [raises] says so, given the calls made so far and its argument; it
    does not touch the client.  [ReadySetter r] is the
    [lambda d: ready_future.set_result(True)] that [connect] registers,
    for the ready future at address [r]. *)
Inductive handler : Type :=
| Callback (name : nat) (raises : list (nat * json) → json → bool)
| ReadySetter (r : nat).

(** What the client prints. *)
Inductive diag : Type :=
| PConnecting
| PConnected
| PJsonDecodeError
| PReadError (e : exn)
| PHandleError (e : exn)
| PHandlerError (e : exn)
| PTimeout (command : string).

(** [self.process]: the signals sent to the child so far, and whether
    [process.wait()] has returned. *)
Record proc := Proc { signals : list signal; reaped : bool }.

(** The [CSendClient] object ([process] to [next_id], [reader] and
    [writer] being the pipes of [process]) and the runtime around it: the
    response futures and the ready futures by address, the lines written
    to the child's standard input, the printed diagnostics, the calls of
    application handlers, the values passed to [_handle_message], and the
    clock of the event loop in milliseconds. *)
Record state := State {
  process : option proc;
  message_handlers : list handler;
  peer_update_handlers : list handler;
  event_handlers : gmap string (list handler);
  running : bool;
  response_futures : gmap string nat;
  next_id : nat;
  futures : list (future json);
  ready_futures : list (future bool);
  stdin : list string;
  stdout : list diag;
  invoked : list (nat * json);
  dispatched : list json;
  clock : nat
}.

(** [CSendClient.__init__], in a fresh runtime. *)
Definition init : state :=
  {| process := None; message_handlers := []; peer_update_handlers := [];
     event_handlers := ∅; running := false; response_futures := ∅;
     next_id := 1; futures := []; ready_futures := []; stdin := [];
     stdout := []; invoked := []; dispatched := []; clock := 0 |}.

Definition set_process (v : option proc) (s : state) : state :=
  State v (message_handlers s) (peer_update_handlers s) (event_handlers s)
    (running s) (response_futures s) (next_id s) (futures s) (ready_futures s)
    (stdin s) (stdout s) (invoked s) (dispatched s) (clock s).
Definition set_message_handlers (v : list handler) (s : state) : state :=
  State (process s) v (peer_update_handlers s) (event_handlers s)
    (running s) (response_futures s) (next_id s) (futures s) (ready_futures s)
    (stdin s) (stdout s) (invoked s) (dispatched s) (clock s).
Definition set_peer_update_handlers (v : list handler) (s : state) : state :=
  State (process s) (message_handlers s) v (event_handlers s)
    (running s) (response_futures s) (next_id s) (futures s) (ready_futures s)
    (stdin s) (stdout s) (invoked s) (dispatched s) (clock s).
Definition set_event_handlers (v : gmap string (list handler)) (s : state) : state :=
  State (process s) (message_handlers s) (peer_update_handlers s) v
    (running s) (response_futures s) (next_id s) (futures s) (ready_futures s)
    (stdin s) (stdout s) (invoked s) (dispatched s) (clock s).
Definition set_running (v : bool) (s : state) : state :=
  State (process s) (message_handlers s) (peer_update_handlers s) (event_handlers s)
    v (response_futures s) (next_id s) (futures s) (ready_futures s)
    (stdin s) (stdout s) (invoked s) (dispatched s) (clock s).
Definition set_response_futures (v : gmap string nat) (s : state) : state :=
  State (process s) (message_handlers s) (peer_update_handlers s) (event_handlers s)
    (running s) v (next_id s) (futures s) (ready_futures s)
    (stdin s) (stdout s) (invoked s) (dispatched s) (clock s).
Definition set_next_id (v : nat) (s : state) : state :=
  State (process s) (message_handlers s) (peer_update_handlers s) (event_handlers s)
    (running s) (response_futures s) v (futures s) (ready_futures s)
    (stdin s) (stdout s) (invoked s) (dispatched s) (clock s).
Definition set_futures (v : list (future json)) (s : state) : state :=
  State (process s) (message_handlers s) (peer_update_handlers s) (event_handlers s)
    (running s) (response_futures s) (next_id s) v (ready_futures s)
    (stdin s) (stdout s) (invoked s) (dispatched s) (clock s).
Definition set_ready_futures (v : list (future bool)) (s : state) : state :=
  State (process s) (message_handlers s) (peer_update_handlers s) (event_handlers s)
    (running s) (response_futures s) (next_id s) (futures s) v
    (stdin s) (stdout s) (invoked s) (dispatched s) (clock s).
Definition set_stdin (v : list string) (s : state) : state :=
  State (process s) (message_handlers s) (peer_update_handlers s) (event_handlers s)
    (running s) (response_futures s) (next_id s) (futures s) (ready_futures s)
    v (stdout s) (invoked s) (dispatched s) (clock s).
Definition set_stdout (v : list diag) (s : state) : state :=
  State (process s) (message_handlers s) (peer_update_handlers s) (event_handlers s)
    (running s) (response_futures s) (next_id s) (futures s) (ready_futures s)
    (stdin s) v (invoked s) (dispatched s) (clock s).
Definition set_invoked (v : list (nat * json)) (s : state) : state :=
  State (process s) (message_handlers s) (peer_update_handlers s) (event_handlers s)
    (running s) (response_futures s) (next_id s) (futures s) (ready_futures s)
    (stdin s) (stdout s) v (dispatched s) (clock s).
Definition set_dispatched (v : list json) (s : state) : state :=
  State (process s) (message_handlers s) (peer_update_handlers s) (event_handlers s)
    (running s) (response_futures s) (next_id s) (futures s) (ready_futures s)
    (stdin s) (stdout s) (invoked s) v (clock s).
Definition set_clock (v : nat) (s : state) : state :=
  State (process s) (message_handlers s) (peer_update_handlers s) (event_handlers s)
    (running s) (response_futures s) (next_id s) (futures s) (ready_futures s)
    (stdin s) (stdout s) (invoked s) (dispatched s) v.

(** ** Statements that may raise

    A Python statement is a function from the state to the state it
    leaves and either a value or the exception it raised. *)
Definition M (A : Type) : Type := state → (exn + A) * state.

Definition ret {A} (a : A) : M A := λ s, (inr a, s).
Definition raise {A} (e : exn) : M A := λ s, (inl e, s).
Definition bind {A B} (m : M A) (k : A → M B) : M B :=
  λ s, match m s with
       | (inr a, s1) => k a s1
       | (inl e, s1) => (inl e, s1)
       end.
Definition modify (f : state → state) : M unit := λ s, (inr tt, f s).

(** [try: m  except Exception as e: h e]. *)
Definition try_except {A} (m : M A) (h : exn → M A) : M A :=
  λ s, match m s with
       | (inl e, s1) => h e s1
       | r => r
       end.

Notation "'do' x <~ m 'in' k" := (bind m (λ x, k))
  (at level 10, x name, m at level 100, k at level 200).
Notation "m >>> k" := (bind m (λ _, k))
  (at level 65, right associativity).

(** [for x in l: body x]. *)
Fixpoint for_each {A} (l : list A) (body : A → M unit) : M unit :=
  match l with
  | [] => ret tt
  | x :: rest => body x >>> for_each rest body
  end.

Definition print (d : diag) : M unit :=
  modify (λ s, set_stdout (stdout s ++ [d]) s).

(** ** Handlers *)

(** [handler(data)], awaited when the handler is a coroutine function. *)
Definition invoke (h : handler) (data : json) : M unit :=
  λ s, match h with
       | Callback name raises =>
           let s1 := set_invoked (invoked s ++ [(name, data)]) s in
           if raises (invoked s) data then (inl HandlerError, s1) else (inr tt, s1)
       | ReadySetter r =>
           match ready_futures s !! r with
           | Some Pending =>
               (inr tt, set_ready_futures (<[r := Done true]> (ready_futures s)) s)
           | _ => (inl InvalidStateError, s)
           end
       end.

(** [_call_handler(handler, data)]. *)
Definition call_handler (h : handler) (data : json) : M unit :=
  try_except (invoke h data) (λ e, print (PHandlerError e)).

(** [on_message], [on_peer_update] and [on_event]. *)
Definition on_message (h : handler) (s : state) : state :=
  set_message_handlers (message_handlers s ++ [h]) s.
Definition on_peer_update (h : handler) (s : state) : state :=
  set_peer_update_handlers (peer_update_handlers s ++ [h]) s.
Definition on_event (event_type : string) (h : handler) (s : state) : state :=
  set_event_handlers
    (<[event_type := dget event_type (event_handlers s) ++ [h]]> (event_handlers s)) s.

(** ** [_handle_message] *)

(** [future.set_result(data)] on the response future at address [a]. *)
Definition set_result (a : nat) (data : json) : M unit :=
  λ s, match futures s !! a with
       | Some Pending => (inr tt, set_futures (<[a := Done data]> (futures s)) s)
       | _ => (inl InvalidStateError, s)
       end.

(** The branch for [type] in [response], [error]. *)
Definition route_response (data : json) (fields : list (string * json)) : M unit :=
  let correlation_id := get "id" fields in
  if truthy correlation_id then
    match correlation_id with
    | JStr x =>
        λ s, match response_futures s !! x with
             | Some a => set_result a data s
             | None => ret tt s
             end
    | JArr _ | JObj _ => raise TypeError
    | _ => ret tt
    end
  else ret tt.

(** [self._event_handlers.get(event_type, [])]: a list or a dict is not
    hashable, and no other value than a string is a key. *)
Definition generic_handlers (event_type : json) : M (list handler) :=
  match event_type with
  | JStr e => λ s, ret (dget e (event_handlers s)) s
  | JArr _ | JObj _ => raise TypeError
  | _ => ret []
  end.

(** The branch for [type == "event"]. *)
Definition route_event (data : json) (fields : list (string * json)) : M unit :=
  let event_type := get "event" fields in
  (if is_str event_type "message" then
     let message_data := get_or "data" (JObj []) fields in
     if truthy message_data
     then λ s, for_each (message_handlers s) (λ h, call_handler h message_data) s
     else ret tt
   else if is_str event_type "peer_update" then
     λ s, for_each (peer_update_handlers s) (λ h, call_handler h data) s
   else ret tt) >>>
  do hs <~ generic_handlers event_type in
  for_each hs (λ h, call_handler h data).

(** The body of the [try] in [_handle_message]. *)
Definition handle_message_body (data : json) : M unit :=
  match data with
  | JObj fields =>
      let msg_type := get "type" fields in
      if is_str msg_type "start" then ret tt
      else if is_str msg_type "ready" then
        λ s, for_each (dget "ready" (event_handlers s)) (λ h, call_handler h data) s
      else if is_str msg_type "response" || is_str msg_type "error" then
        route_response data fields
      else if is_str msg_type "event" then route_event data fields
      else ret tt
  | _ => raise AttributeError
  end.

(** [_handle_message(data)]; the value it is called with is recorded in
    [dispatched]. *)
Definition handle_message (data : json) : M unit :=
  modify (λ s, set_dispatched (dispatched s ++ [data]) s) >>>
  try_except (handle_message_body data) (λ e, print (PHandleError e)).

(** ** [_read_output] *)

Inductive reader_status := Reading | Stopped.

(** One turn of the loop body, for the line [l]: the loop goes on
    ([Reading]) or is left by [break] ([Stopped]). *)
Definition read_iteration (l : rline) (s : state) : reader_status * state :=
  match l with
  | Eof => (Stopped, s)
  | _ =>
      match (match loads l with
             | inl e => raise e
             | inr data => handle_message data
             end) s with
      | (inr _, s1) => (Reading, s1)
      | (inl e, s1) =>
          if is_json_decode_error e
          then (Reading, set_stdout (stdout s1 ++ [PJsonDecodeError]) s1)
          else (Stopped, set_stdout (stdout s1 ++ [PReadError e]) s1)
      end
  end.

(** [_read_output()] over the lines the child writes; [Reading] when the
    loop is suspended in [readline] after the last of them. *)
Fixpoint read_output (lines : list rline) (s : state) : reader_status * state :=
  if running s then
    match lines with
    | [] => (Reading, s)
    | l :: rest =>
        match read_iteration l s with
        | (Reading, s1) => read_output rest s1
        | (Stopped, s1) => (Stopped, set_running false s1)
        end
    end
  else (Stopped, set_running false s).

(** ** Sending commands *)

(** [_send_command(command)]: the line is written to the child's
    standard input.  Before [connect], [self.writer] is [None] and the
    attribute access raises. *)
Definition send_command (command : string) : M unit :=
  λ s, match process s with
       | Some _ => (inr tt, set_stdin (stdin s ++ [command]) s)
       | None => (inl AttributeError, s)
       end.

(** The local variables of a suspended [_send_command_async]: its
    correlation id, the address of its future, the command as sent, and
    the time at which [wait_for] gives up. *)
Record call := Call {
  correlation_id : string;
  response_future : nat;
  command : string;
  deadline : nat
}.

(** [f"cmd_{n}"]. *)
Definition cmd_id (n : nat) : string := "cmd_" +:+ pretty n.

(** [_send_command_async(command, timeout)] up to its
    [await asyncio.wait_for(response_future, timeout)].  The call of
    [_send_command] stands before the [try] statement: when it raises,
    the exception leaves the coroutine and the entry stays registered. *)
Definition send_command_async_begin (command : string) (timeout : nat) : M call :=
  λ s,
    let correlation_id := cmd_id (next_id s) in
    let s := set_next_id (S (next_id s)) s in
    let command :=
      if contains "--id=" command then command
      else command +:+ " --id=" +:+ correlation_id in
    let a := length (futures s) in
    let s := set_futures (futures s ++ [Pending]) s in
    let s := set_response_futures (<[correlation_id := a]> (response_futures s)) s in
    match send_command command s with
    | (inr _, s1) =>
        (inr (Call correlation_id a command (clock s1 + timeout)%nat), s1)
    | (inl e, s1) => (inl e, s1)
    end.

(** The awaiting coroutine can be resumed when its future is done, or
    when the deadline of [wait_for] has come. *)
Definition resumable (c : call) (s : state) : bool :=
  match futures s !! response_future c with
  | Some (Done _) => true
  | _ => bool_decide (deadline c ≤ clock s)%nat
  end.

(** [_send_command_async] from the point where [wait_for] completes:
    with the result of the future when it is done, and otherwise by
    cancelling the future and raising [TimeoutError], which the coroutine
    turns into [None]; the [finally] clause pops the registry entry. *)
Definition send_command_async_end (c : call) (s : state) : option json * state :=
  let '(response, s1) :=
    match futures s !! response_future c with
    | Some (Done frame) => (Some frame, s)
    | Some Pending =>
        (None, set_stdout (stdout s ++ [PTimeout (command c)])
                 (set_futures (<[response_future c := Cancelled]> (futures s)) s))
    | _ => (None, set_stdout (stdout s ++ [PTimeout (command c)]) s)
    end in
  (response, set_response_futures (delete (correlation_id c) (response_futures s1)) s1).

(** ** [connect] and [disconnect] *)

(** The timeouts of the source, in milliseconds: [timeout=5.0] of
    [connect], the default [timeout: float = 2.0] of
    [_send_command_async], and [timeout=2.0] of [disconnect]. *)
Definition startup_timeout : nat := 5000.
Definition default_timeout : nat := 2000.
Definition quit_grace : nat := 2000.

(** [connect()], for an executable that can be launched.  [out] holds
    the lines the child writes while [connect] is suspended in
    [wait_for(ready_future, timeout=5.0)]; the reader task created by
    [create_task] runs for the first time at that suspension.  The result
    is the status of the reader task, or the exception raised. *)
Definition connect (out : list rline) : M reader_status :=
  λ s,
    let s := set_stdout (stdout s ++ [PConnecting]) s in
    let s := set_process (Some (Proc [] false)) s in
    let r := length (ready_futures s) in
    let s := set_ready_futures (ready_futures s ++ [Pending]) s in
    let s := on_event "ready" (ReadySetter r) s in
    let '(status, s) := read_output out s in
    match ready_futures s !! r with
    | Some (Done _) =>
        (inr status, set_stdout (stdout s ++ [PConnected]) (set_running true s))
    | _ =>
        (inl NotReadyInTime,
         set_clock (clock s + startup_timeout)%nat
           (set_ready_futures (<[r := Cancelled]> (ready_futures s)) s))
    end.

(** How a call that may wait without bound ends. *)
Inductive outcome : Type :=
| Returned (s : state)
| Raised (e : exn) (s : state)
| Blocked (s : state).

Definition add_signal (sig : signal) (s : state) : state :=
  match process s with
  | Some p => set_process (Some (Proc (signals p ++ [sig]) (reaped p))) s
  | None => s
  end.

Definition reap (at_time : nat) (s : state) : state :=
  match process s with
  | Some p => set_clock at_time (set_process (Some (Proc (signals p) true)) s)
  | None => s
  end.

(** [disconnect()] against the child [ch]. *)
Definition disconnect (ch : child) (s : state) : outcome :=
  if running s then
    match send_command "/quit" s with
    | (inl e, s1) => Raised e s1
    | (inr _, s1) =>
        let s2 := set_running false s1 in
        let t0 := clock s2 in
        match process s2 with
        | None => Returned s2
        | Some _ =>
            (* await asyncio.wait_for(self.process.wait(), timeout=2.0) *)
            let in_time :=
              match exit_time ch (Some t0) None None with
              | Some t => if bool_decide (t < t0 + quit_grace)%nat then Some t else None
              | None => None
              end in
            match in_time with
            | Some t => Returned (reap t s2)
            | None =>
                (* self.process.terminate(); await self.process.wait() *)
                let t1 := (t0 + quit_grace)%nat in
                let s3 := set_clock t1 (add_signal SIGTERM s2) in
                match exit_time ch (Some t0) (Some t1) None with
                | Some t => Returned (reap (Nat.max t t1) s3)
                | None => Blocked s3
                end
            end
        end
    end
  else Returned s.

(** ** The client under the event loop

    The coroutines of one client interleave at their suspension points.
    A run is a list of events: a caller enters [_send_command_async] and
    runs up to its [await]; the child writes a line, which the reader
    task takes if it is still reading; time passes; the event loop
    resumes the [k]-th caller, which is possible only when its future is
    done or its deadline has come. *)

Inductive await_state : Type :=
| Awaiting
| Completed (response : option json).

Record sys := Sys {
  st : state;
  reader : reader_status;
  calls : list (call * await_state)
}.

Inductive event : Type :=
| Send (command : string) (timeout : nat)
| Line (l : rline)
| Advance (d : nat)
| Resume (k : nat).

(** One event; [None] when the event cannot happen in [y]. *)
Definition step (e : event) (y : sys) : option sys :=
  match e with
  | Send command timeout =>
      match send_command_async_begin command timeout (st y) with
      | (inr c, s1) => Some (Sys s1 (reader y) (calls y ++ [(c, Awaiting)]))
      | (inl _, s1) => Some (Sys s1 (reader y) (calls y))
      end
  | Line l =>
      match reader y with
      | Reading =>
          let '(status, s1) := read_output [l] (st y) in
          Some (Sys s1 status (calls y))
      | Stopped => Some y
      end
  | Advance d =>
      Some (Sys (set_clock (clock (st y) + d)%nat (st y)) (reader y) (calls y))
  | Resume k =>
      match calls y !! k with
      | Some (c, Awaiting) =>
          if resumable c (st y) then
            let '(response, s1) := send_command_async_end c (st y) in
            Some (Sys s1 (reader y) (<[k := (c, Completed response)]> (calls y)))
          else None
      | _ => None
      end
  end.

Fixpoint run (es : list event) (y : sys) : option sys :=
  match es with
  | [] => Some y
  | e :: rest =>
      match step e y with
      | Some y1 => run rest y1
      | None => None
      end
  end.

(** The response or error frames of a run that carry the correlation
    id [x], in arrival order. *)
Definition is_reply_for (x : string) (e : event) : option json :=
  match e with
  | Line (Decoded (JObj fields)) =>
      if (is_str (get "type" fields) "response" || is_str (get "type" fields) "error")
         && is_str (get "id" fields) x
      then Some (JObj fields) else None
  | _ => None
  end.

Definition replies_for (x : string) (es : list event) : list json :=
  omap (is_reply_for x) es.

End Client.

(** * csend_chatbot.py: the chatbot's own client

    The second [CSendClient] class has a subset of the fields of the
    first one; it is run on the same state record, of which it uses
    [process], the two handler lists, [running], [stdin], [stdout],
    [invoked] and [dispatched].  Its handlers are awaited directly. *)

Module ChatClient.
Import Wire Client.

Inductive connected : Type :=
| Connected (rest : list rline) (s : state)
| Failed (e : exn) (s : state)
| Waiting (s : state).

(** The [while True] loop of [connect()] over the lines the child
    writes; [Waiting] when [readline] is still awaited after the last of
    them. *)
Fixpoint connect_loop (lines : list rline) (s : state) : connected :=
  match lines with
  | [] => Waiting s
  | Eof :: _ => Failed TerminatedUnexpectedly s
  | l :: rest =>
      match loads l with
      | inl e => if is_json_decode_error e then connect_loop rest s else Failed e s
      | inr (JObj fields) =>
          if is_str (get "type" fields) "ready"
          then Connected rest (set_running true s)
          else connect_loop rest s
      | inr _ => Failed AttributeError s
      end
  end.

Definition connect (out : list rline) (s : state) : connected :=
  connect_loop out (set_process (Some (Proc [] false)) s).

(** [data["data"]]. *)
Definition subscript (key : string) (fields : list (string * json)) : M json :=
  match assoc key fields with
  | Some v => ret v
  | None => raise KeyError
  end.





End ChatClient.

(** * test_machine_mode.py: the threaded harness

    [CSendMachineMode] drives the same child with blocking calls.  Its
    [start] and [stop] are the second implementation in the repository of
    the startup and shutdown sequences. *)

Module Harness.
Import Wire.

(** The [Popen] object: when [/quit] was written to the child and when
    the two signals were sent, if at all. *)
Record proc := Proc {
  quit_at : option nat;
  term_at : option nat;
  kill_at : option nat
}.

Record state := State {
  process : option proc;
  is_ready : bool;
  clock : nat
}.

Definition init : state := State None false 0.

(** When the child [ch] behind [p] exits. *)
Definition exits (ch : child) (p : proc) : option nat :=
  exit_time ch (quit_at p) (term_at p) (kill_at p).

(** [self.process.poll() is None] at time [now]. *)
Definition alive (ch : child) (p : proc) (now : nat) : bool :=
  match exits ch p with
  | Some t => bool_decide (now < t)%nat
  | None => true
  end.

Definition sleep_ms : nat := 500.
Definition ready_timeout : nat := 5000.

(** [send_command(command)] for the [/quit] of [stop]: nothing is
    written unless [is_ready]. *)
Definition send_quit (ready : bool) (now : nat) (p : proc) : proc :=
  if ready then Proc (Some now) (term_at p) (kill_at p) else p.

(** [stop()]: the state it leaves, and the [Popen] object it gave up. *)
Definition stop (ch : child) (s : state) : state * option proc :=
  match process s with
  | None => (s, None)
  | Some p =>
      let p := send_quit (is_ready s) (clock s) p in
      let t1 := (clock s + sleep_ms)%nat in
      let '(p, t2) :=
        if alive ch p t1
        then (Proc (quit_at p) (Some t1) (kill_at p), (t1 + sleep_ms)%nat)
        else (p, t1) in
      let p := if alive ch p t2 then Proc (quit_at p) (term_at p) (Some t2) else p in
      (State None (is_ready s) t2, Some p)
  end.

(** [start()], where [ready_at] is the time after which [_wait_for]
    finds the ready line in the queue, if it ever does.  The result is
    the value returned, the state, and the [Popen] object given up by
    [stop] on failure. *)
Definition start (ch : child) (ready_at : option nat) (s : state)
  : bool * state * option proc :=
  let s := State (Some (Proc None None None)) (is_ready s) (clock s) in
  let found :=
    match ready_at with
    | Some t => if bool_decide (t < ready_timeout)%nat then Some t else None
    | None => None
    end in
  match found with
  | Some t => (true, State (process s) true (clock s + t)%nat, None)
  | None =>
      let '(s1, p) := stop ch (State (process s) (is_ready s) (clock s + ready_timeout)%nat) in
      (false, s1, p)
  end.

End Harness.

(** * Python string operations used by the command builders *)

(** The characters that cannot be written in a string literal here. *)
Definition quote_char : Ascii.ascii := Ascii.ascii_of_nat 34.
Definition newline_char : Ascii.ascii := Ascii.ascii_of_nat 10.
Definition backslash_char : Ascii.ascii := Ascii.ascii_of_nat 92.

Definition dquote : string := String quote_char EmptyString.
Definition newline : string := String newline_char EmptyString.
Definition backslash : string := String backslash_char EmptyString.

(** [s.replace(old, new)] for a pattern [old] of one character: every
    occurrence is replaced, from left to right.  The two patterns of the
    sources are ASCII characters, whose bytes occur in UTF-8 text only as
    themselves. *)
Fixpoint replace_char (old : Ascii.ascii) (new s : string) : string :=
  match s with
  | EmptyString => EmptyString
  | String c rest =>
      if Ascii.eqb c old then new +:+ replace_char old new rest
      else String c (replace_char old new rest)
  end.

(** [sep.join(items)]. *)
Definition join (sep : string) (items : list string) : string :=
  String.concat sep items.

(** [s * n]. *)
Fixpoint repeat_string (s : string) (n : nat) : string :=
  match n with
  | O => EmptyString
  | S n => s +:+ repeat_string s n
  end.

(** [l[start:stop]] with Python's normalisation of the two indices. *)
Definition py_slice {A} (start stop : Z) (l : list A) : list A :=
  let n := Z.of_nat (length l) in
  let norm := λ k, if k <? 0 then Z.max 0 (k + n) else Z.min k n in
  take (Z.to_nat (norm stop - norm start)) (drop (Z.to_nat (norm start)) l).

(** * csend_client.py: the calls built on [_send_command_async] *)

Module ClientCalls.
Import Wire Client.

(** [message.replace('"', '\\"').replace('\n', '\\n')]. *)
Definition escape (message : string) : string :=
  replace_char newline_char (backslash +:+ "n")
    (replace_char quote_char (backslash +:+ dquote) message).

(** [f'/send {peer_id} "{escaped_msg}"'] and
    [f'/broadcast "{escaped_msg}"']. *)
Definition send_text (peer_id : Z) (message : string) : string :=
  "/send " +:+ pretty peer_id +:+ " " +:+ dquote +:+ escape message +:+ dquote.

Definition broadcast_text (message : string) : string :=
  "/broadcast " +:+ dquote +:+ escape message +:+ dquote.

(** [send_message] and [broadcast_message] up to the [await] inside
    [_send_command_async], which is called with its default timeout. *)
Definition send_message_begin (peer_id : Z) (message : string) : M call :=
  send_command_async_begin (send_text peer_id message) default_timeout.

Definition broadcast_message_begin (message : string) : M call :=
  send_command_async_begin (broadcast_text message) default_timeout.

End ClientCalls.

(** * csend_chatbot.py: the calls of the chatbot's own client *)

Module ChatCalls.
Import Wire Client.

(** [message.replace('"', '\\"')]: the chatbot's client escapes the
    double quote only. *)
Definition escape (message : string) : string :=
  replace_char quote_char (backslash +:+ dquote) message.

(** [f'/send {peer_id} "{escaped_msg}"'], where [peer_text] is the text
    that the f-string gives for [peer_id]; for an integer, its decimal
    digits. *)
Definition send_text_as (peer_text : string) (message : string) : string :=
  "/send " +:+ peer_text +:+ " " +:+ dquote +:+ escape message +:+ dquote.

Definition send_text (peer_id : Z) (message : string) : string :=
  send_text_as (pretty peer_id) message.

Definition broadcast_text (message : string) : string :=
  "/broadcast " +:+ dquote +:+ escape message +:+ dquote.

(** [send_message(peer_id, message)] and [broadcast_message(message)]:
    the command is written and nothing is awaited. *)
Definition send_message (peer_id : Z) (message : string) : M unit :=
  send_command (send_text peer_id message).

Definition broadcast_message (message : string) : M unit :=
  send_command (broadcast_text message).

(** [_wait_for_response(correlation_id)] over the lines that the child
    writes before the two seconds are over.  The result is what the
    coroutine returns or raises, and the lines it has left unread.  At
    the end of the stream every [readline] returns at once with nothing,
    and the loop turns until the time is over. *)
Fixpoint wait_for_response (correlation_id : string) (lines : list rline)
  : (exn + option json) * list rline :=
  match lines with
  | [] => (inr None, [])
  | Eof :: _ => (inr None, lines)
  | l :: rest =>
      match loads l with
      | inl e =>
          if is_json_decode_error e then wait_for_response correlation_id rest
          else (inl e, rest)
      | inr (JObj fields) =>
          if is_str (get "id" fields) correlation_id
             && (is_str (get "type" fields) "response"
                 || is_str (get "type" fields) "error")
          then (inr (Some (JObj fields)), rest)
          else wait_for_response correlation_id rest
      | inr _ => (inl AttributeError, rest)
      end
  end.

(** [v[key]] on a decoded value. *)
Definition subscript (key : string) (v : json) : exn + json :=
  match v with
  | JObj fields =>
      match assoc key fields with
      | Some x => inr x
      | None => inl KeyError
      end
  | _ => inl TypeError
  end.

(** [list_peers()]: the command is written with the fixed id
    [list_peers], and the lines of the child are read until the frame
    that answers it. *)
Definition list_peers (lines : list rline) (s : state)
  : (exn + json) * list rline * state :=
  match send_command "/list --id=list_peers" s with
  | (inl e, s1) => (inl e, lines, s1)
  | (inr _, s1) =>
      match wait_for_response "list_peers" lines with
      | (inl e, rest) => (inl e, rest, s1)
      | (inr None, rest) => (inr (JArr []), rest, s1)
      | (inr (Some response), rest) =>
          match response with
          | JObj fields =>
              if truthy response && is_str (get "command" fields) "/list"
              then (match subscript "data" response with
                    | inl e => inl e
                    | inr d => subscript "peers" d
                    end, rest, s1)
              else (inr (JArr []), rest, s1)
          | _ => (inr (JArr []), rest, s1)
          end
      end
  end.

End ChatCalls.

(** * tools/csend_log_mcp.py: the arguments of [filter_logs.sh]

    The tools of the log server choose a log file and build the argument
    list of the filter script.  The file system and the library are
    given by their outcomes: [mtime p] is [st_mtime] of the file at the
    path [p], as the rational number the float denotes, and [None] when
    [p.exists()] is false; [lower] is [str.lower]; [log_path name] is
    [str(PROJECT_ROOT / name)].  A tool returns the text of an error, or
    the argument list that it passes to [run_filter]. *)

Module LogTool.

Section Files.
Variable mtime : string → option Q.
Variable lower : string → string.
Variable log_path : string → string.

Definition DEFAULT_LOGS : list (string * string) :=
  [("posix", log_path "csend_posix.log");
   ("mactcp", log_path "csend_mac.log");
   ("opentransport", log_path "csend_classic_mac_ot_ppc.log")].

(** [d.get(key)] on a dict given by its items. *)
Fixpoint dict_get (key : string) (d : list (string * string)) : option string :=
  match d with
  | [] => None
  | (k, v) :: rest => if String.eqb k key then Some v else dict_get key rest
  end.

(** [path.stat().st_mtime] of a file that exists. *)
Definition st_mtime (p : string) : Q := default 0%Q (mtime p).

(** [max(l, key=...)] of a list with first element [best]: the first
    of the elements whose key is the greatest. *)
Fixpoint max_by_mtime (best : string * string) (l : list (string * string))
  : string * string :=
  match l with
  | [] => best
  | x :: rest =>
      max_by_mtime (if bool_decide (st_mtime best.2 < st_mtime x.2)%Q then x else best) rest
  end.

(** [find_log_file(platform)]. *)
Definition find_log_file (platform : option string) : option string :=
  let direct :=
    match platform with
    | Some name =>
        if String.eqb name "" then None
        else match dict_get (lower name) DEFAULT_LOGS with
             | Some log_file =>
                 if bool_decide (is_Some (mtime log_file)) then Some log_file else None
             | None => None
             end
    | None => None
    end in
  match direct with
  | Some log_file => Some log_file
  | None =>
      match filter (λ item, is_Some (mtime item.2)) DEFAULT_LOGS with
      | [] => None
      | first :: rest => Some (max_by_mtime first rest).2
      end
  end.

(** The first statements of every tool: the log file to read, or the
    text of the error returned. *)
Definition target_log (platform log_file : option string) : string + string :=
  let target :=
    match log_file with
    | Some f => if String.eqb f "" then find_log_file platform else Some f
    | None => find_log_file platform
    end in
  let no_log :=
    "Error: No log file found. Available logs: " +:+
    join ", " ((λ item, item.1 +:+ "=" +:+ item.2) <$>
               filter (λ item, is_Some (mtime item.2)) DEFAULT_LOGS) in
  match target with
  | None => inl no_log
  | Some t =>
      if String.eqb t "" then inl no_log
      else if bool_decide (is_Some (mtime t)) then inr t
      else inl ("Error: Log file not found: " +:+ t)
  end.

(** The truth value of an optional string and of an optional integer. *)
Definition given (o : option string) : option string :=
  match o with
  | Some s => if String.eqb s "" then None else Some s
  | None => None
  end.

Definition nonzero (o : option Z) : option Z :=
  match o with
  | Some z => if z =? 0 then None else Some z
  | None => None
  end.

(** [log_summary(platform, log_file)]. *)
Definition log_summary (platform log_file : option string) : string + list string :=
  match target_log platform log_file with
  | inl e => inl e
  | inr t => inr ["-s"; t]
  end.

(** [filter_logs(...)], its parameters in the order of the source. *)
Definition filter_logs (platform log_file level : option string)
    (errors_only warnings_only exclude_debug : bool)
    (category peer : option string) (test_only : bool)
    (time_pattern : option string) (context_lines num_lines : option Z)
  : string + list string :=
  match target_log platform log_file with
  | inl e => inl e
  | inr t =>
      inr ((if errors_only then ["-e"]
            else if warnings_only then ["-w"]
            else if exclude_debug then ["-x"]
            else match given level with Some l => ["-l"; l] | None => [] end) ++
           match given category with Some c => ["-c"; c] | None => [] end ++
           match given peer with Some p => ["-p"; p] | None => [] end ++
           (if test_only then ["-t"] else []) ++
           match given time_pattern with Some p => ["-T"; p] | None => [] end ++
           match nonzero context_lines with Some n => ["-C"; pretty n] | None => [] end ++
           match nonzero num_lines with Some n => ["-n"; pretty n] | None => [] end ++
           [t])
  end.

(** [find_errors(platform, log_file, context_lines, category)]. *)
Definition find_errors (platform log_file : option string) (context_lines : Z)
    (category : option string) : string + list string :=
  match target_log platform log_file with
  | inl e => inl e
  | inr t =>
      inr (["-e"; "-C"; pretty context_lines] ++
           match given category with Some c => ["-c"; c] | None => [] end ++
           [t])
  end.

(** [analyze_peer(peer, platform, log_file, exclude_debug)]. *)
Definition analyze_peer (peer : string) (platform log_file : option string)
    (exclude_debug : bool) : string + list string :=
  match target_log platform log_file with
  | inl e => inl e
  | inr t => inr (["-p"; peer] ++ (if exclude_debug then ["-x"] else []) ++ [t])
  end.

(** [analyze_test(platform, log_file, include_errors)]. *)
Definition analyze_test (platform log_file : option string) (include_errors : bool)
  : string + list string :=
  match target_log platform log_file with
  | inl e => inl e
  | inr t => inr (["-t"] ++ (if include_errors then ["-w"] else []) ++ [t])
  end.

End Files.

End LogTool.

(** * tools/csend_docs_mcp.py: searching the documentation files

    The file system and the regular expressions are library calls,
    given by their outcomes: a file is missing, cannot be read, or has
    its text as the list of lines [content.split('\n')]; compiling a
    pattern raises [re.error] with a message, or gives the test
    [regex.search(line)] on lines. *)

Module DocsTool.

Inductive file : Type :=
| Missing
| Unreadable (error : string)
| Text (lines : list string).

Section Search.
Variable lines : list string.
Variable found : string → bool.
Variable context_lines max_results : Z.

(** The lines around the match at index [i], numbered from one, the
    match marked: the statements between [# Get context] and the first
    [results.append]. *)
Definition context (i : nat) : string :=
  let start := Z.max 0 (Z.of_nat i - context_lines) in
  let stop := Z.min (Z.of_nat (length lines)) (Z.of_nat i + context_lines + 1) in
  join newline
    ((λ j, (if Nat.eqb j i then ">>> " else "    ") +:+
           "Line " +:+ pretty (j + 1)%nat +:+ ": " +:+ default "" (lines !! j))
       <$> seq (Z.to_nat start) (Z.to_nat (stop - start))).

(** The loop over [enumerate(lines)], from index [i] on, with its
    [break]. *)
Fixpoint scan (i : nat) (rest : list string) (matches_found : Z) (results : list string)
  : Z * list string :=
  match rest with
  | [] => (matches_found, results)
  | line :: rest =>
      if found line then
        let matches_found := matches_found + 1 in
        if bool_decide (max_results < matches_found) then (matches_found, results)
        else scan (S i) rest matches_found
               (results ++ [context i; repeat_string "-" 60])
      else scan (S i) rest matches_found results
  end.

End Search.

(** [search_in_file(file_path, pattern, context_lines, case_sensitive,
    max_results)]: [path] and [name] are [str(file_path)] and
    [file_path.name], [f] is the file, [regex] the outcome of
    [re.compile(pattern, flags)]. *)
Definition search_in_file (path name : string) (f : file) (pattern : string)
    (regex : string + (string → bool)) (context_lines max_results : Z) : string :=
  match f with
  | Missing => "Error: File not found: " +:+ path
  | Unreadable e => "Error reading file: " +:+ e
  | Text lines =>
      match regex with
      | inl e => "Error: Invalid regex pattern: " +:+ e
      | inr found =>
          let '(matches_found, results) :=
            scan lines found context_lines max_results 0 lines 0 [] in
          match results with
          | [] => "No matches found for pattern: " +:+ pattern
          | _ =>
              let header :=
                "Found " +:+ pretty matches_found +:+ " match(es) in " +:+ name in
              let header :=
                if bool_decide (max_results < matches_found)
                then header +:+ " (showing first " +:+ pretty max_results +:+ ")"
                else header in
              header +:+ newline +:+ repeat_string "=" 60 +:+ newline +:+ newline +:+
              join newline results
          end
      end
  end.

(** The index of the first line on which [found] holds, from [i] on. *)
Fixpoint first_match (found : string → bool) (i : nat) (rest : list string) : option nat :=
  match rest with
  | [] => None
  | line :: rest => if found line then Some i else first_match found (S i) rest
  end.

(** [extract_section(file_path, section_name, lines_to_read)]; [found]
    is the search for the escaped section name, letter case ignored. *)
Definition extract_section (path name : string) (f : file) (section_name : string)
    (found : string → bool) (lines_to_read : Z) : string :=
  match f with
  | Missing => "Error: File not found: " +:+ path
  | Unreadable e => "Error reading file: " +:+ e
  | Text lines =>
      match first_match found 0 lines with
      | Some i =>
          let len := Z.of_nat (length lines) in
          let start := Z.of_nat i in
          let stop := Z.min len (Z.of_nat i + lines_to_read) in
          let extracted := py_slice start stop lines in
          let result :=
            "Section found at line " +:+ pretty (i + 1)%nat +:+ " in " +:+ name +:+
            newline +:+ repeat_string "=" 60 +:+ newline +:+ newline +:+
            join newline extracted in
          if bool_decide (stop < len)
          then result +:+ newline +:+ newline +:+ "[... " +:+ pretty (len - stop) +:+
               " more lines in file ...]"
          else result
      | None => "Section '" +:+ section_name +:+ "' not found in " +:+ name
      end
  end.

(** [AVAILABLE_DOCS]: the ids with the names of their files. *)
Definition AVAILABLE_DOCS : list (string * string) :=
  [("inside-macintosh-text", "Inside Macintosh - Text.txt");
   ("inside-macintosh-1-2-3", "Inside Macintosh Volume I, II, III - 1985.txt");
   ("inside-macintosh-4", "Inside_Macintosh_Volume_IV_1986.txt");
   ("inside-macintosh-5", "Inside_Macintosh_Volume_V_1986.txt");
   ("inside-macintosh-6", "Inside_Macintosh_Volume_VI_1991.txt");
   ("mactcp-guide", "MacTCP_Programmers_Guide_1989.txt");
   ("mactcp-programming", "MacTCP_programming.txt");
   ("opentransport", "NetworkingOpenTransport.txt")].

Section Documents.
Variable books : string → file.
Variable book_path : string → string.
Variable lower : string → string.

(** The loop of [search_documentation] over the documents to search. *)
Fixpoint search_each (docs : list (string * string)) (query : string)
    (regex : string + (string → bool)) (context_lines max_results : Z)
    (results : list string) : list string :=
  match docs with
  | [] => results
  | (doc_id, name) :: rest =>
      match books name with
      | Missing => search_each rest query regex context_lines max_results results
      | f =>
          let result :=
            search_in_file (book_path name) name f query regex context_lines max_results in
          search_each rest query regex context_lines max_results
            (if contains "No matches found" result then results
             else results ++ [newline +:+ repeat_string "=" 60;
                              "Results from: " +:+ doc_id;
                              repeat_string "=" 60; result])
      end
  end.

(** [search_documentation(query, doc_filter, context_lines,
    case_sensitive, max_results)]; [regex] is the outcome of compiling
    [query] with the flags that [case_sensitive] selects. *)
Definition search_documentation (query : string) (doc_filter : option string)
    (regex : string + (string → bool)) (context_lines max_results : Z) : string :=
  let all := match doc_filter with
             | Some d => String.eqb d ""
             | None => true
             end in
  let docs_to_search :=
    match doc_filter with
    | Some d =>
        if all then AVAILABLE_DOCS
        else filter (λ doc, contains (lower d) (lower doc.1) = true) AVAILABLE_DOCS
    | None => AVAILABLE_DOCS
    end in
  match docs_to_search, doc_filter with
  | [], Some d =>
      "No documentation matches filter: " +:+ d +:+ newline +:+
      "Available docs: " +:+ join ", " (fst <$> AVAILABLE_DOCS)
  | _, _ =>
      match search_each docs_to_search query regex context_lines max_results [] with
      | [] => "No matches found for query: " +:+ query
      | results => join newline results
      end
  end.

End Documents.

End DocsTool.

(** * csend_chatbot.py: the handlers of the chatbot

    [CSendChatbot] with its client, its statistics and what it prints.
    Two library functions are given by their outcomes:
    [first_word_lower command] is [command.split()[0].lower()], and
    [str_of v] is the text that an f-string gives for a float, a list or
    a dict.  A handler takes the user name and the content of a message
    as the strings they are on the wire. *)

Module Bot.
Import Wire Client.

(** What the handlers print. *)
Inductive note : Type :=
| CouldNotFindPeer (from_user : string)
| ErrorInHandleMessage (e : exn)
| ErrorGeneratingResponse (e : exn)
| ErrorHandlingPeerUpdate (e : exn).

(** The object: [core] holds [conversations], [rate_limiter],
    [rate_limit] and [config["max_context"]]; [commands] and [greeting]
    are the two other entries of [config] that the handlers read; then
    the four entries of [stats], and [self.client]. *)
Record bot := MkBot {
  core : Chatbot.chatbot;
  commands : list (string * string);
  greeting : string;
  messages_received : nat;
  messages_sent : nat;
  users_helped : gset string;
  start_time : Q;
  client : Client.state;
  printed : list note
}.

Definition set_core (v : Chatbot.chatbot) (b : bot) : bot :=
  MkBot v (commands b) (greeting b) (messages_received b) (messages_sent b)
    (users_helped b) (start_time b) (client b) (printed b).
Definition set_messages_received (v : nat) (b : bot) : bot :=
  MkBot (core b) (commands b) (greeting b) v (messages_sent b)
    (users_helped b) (start_time b) (client b) (printed b).
Definition set_messages_sent (v : nat) (b : bot) : bot :=
  MkBot (core b) (commands b) (greeting b) (messages_received b) v
    (users_helped b) (start_time b) (client b) (printed b).
Definition set_users_helped (v : gset string) (b : bot) : bot :=
  MkBot (core b) (commands b) (greeting b) (messages_received b) (messages_sent b)
    v (start_time b) (client b) (printed b).
Definition set_client (v : Client.state) (b : bot) : bot :=
  MkBot (core b) (commands b) (greeting b) (messages_received b) (messages_sent b)
    (users_helped b) (start_time b) v (printed b).
Definition set_printed (v : list note) (b : bot) : bot :=
  MkBot (core b) (commands b) (greeting b) (messages_received b) (messages_sent b)
    (users_helped b) (start_time b) (client b) v.

(** The texts of the source. *)
Definition too_quickly : string :=
  "Sorry, you're sending messages too quickly. Please wait a moment.".
Definition processing_error : string :=
  "Sorry, I encountered an error processing your message. Please try again.".
Definition history_cleared : string := "Conversation history cleared.".
Definition no_other_peers : string := "No other peers currently connected.".
Definition about_text : string :=
  "I'm Claude, an AI assistant powered by Anthropic's Claude 3 Haiku model." +:+
  newline +:+
  "I'm here to help answer questions, have conversations, and assist with various tasks." +:+
  newline +:+
  "I maintain context of our conversation and can help multiple users simultaneously.".

(** [int(x)] of a float: the integer part, rounded towards zero. *)
Definition py_int (x : Q) : Z := Z.quot (Qnum x) (Zpos (Qden x)).

Section Library.
Variable first_word_lower : string → string.
Variable str_of : json → string.

(** The text that an f-string gives for a decoded value. *)
Definition format (v : json) : string :=
  match v with
  | JStr s => s
  | JInt z => pretty z
  | JBool true => "True"
  | JBool false => "False"
  | JNull => "None"
  | _ => str_of v
  end.

(** [await self.client.send_message(peer_id, message)] and
    [await self.client.list_peers()]. *)
Definition send_message (peer_id : json) (message : string) (b : bot)
  : (exn + unit) * bot :=
  let '(r, s) := send_command (ChatCalls.send_text_as (format peer_id) message) (client b) in
  (r, set_client s b).

Definition list_peers (heard : list rline) (b : bot) : (exn + json) * bot :=
  let '(r, _, s) := ChatCalls.list_peers heard (client b) in
  (r, set_client s b).

(** The text of [!help]. *)
Definition help_text (commands : list (string * string)) : string :=
  foldl (λ text item, text +:+ "  " +:+ item.1 +:+ " - " +:+ item.2 +:+ newline)
        ("Available commands:" +:+ newline) commands.

(** The text of [!peers]: the loop over the peers, and the choice
    between the list and the fixed text.  A value that is true and not
    a list is a number, which cannot be iterated, or a text or a dict,
    whose first item is a text that cannot be subscripted by a text. *)
Fixpoint peer_lines (peers : list json) (peer_list : string) : exn + string :=
  match peers with
  | [] => inr peer_list
  | peer :: rest =>
      match ChatCalls.subscript "username" peer with
      | inl e => inl e
      | inr username =>
          match ChatCalls.subscript "ip" peer with
          | inl e => inl e
          | inr ip =>
              peer_lines rest
                (peer_list +:+ "  • " +:+ format username +:+ " (" +:+ format ip +:+ ")" +:+
                 newline)
          end
      end
  end.

Definition peer_list (peers : json) : exn + string :=
  if truthy peers then
    match peers with
    | JArr items => peer_lines items ("Active peers:" +:+ newline)
    | _ => inl TypeError
    end
  else inr no_other_peers.

(** The text of [!stats], at the time [now]. *)
Definition stats_text (now : Q) (b : bot) : string :=
  let uptime := py_int (now - start_time b) in
  "Bot Statistics:" +:+ newline +:+
  "• Uptime: " +:+ pretty (uptime / 3600) +:+ "h " +:+
  pretty ((uptime mod 3600) / 60) +:+ "m" +:+ newline +:+
  "• Messages received: " +:+ pretty (messages_received b) +:+ newline +:+
  "• Messages sent: " +:+ pretty (messages_sent b) +:+ newline +:+
  "• Users helped: " +:+ pretty (size (users_helped b)).

(** [handle_command(peer_id, username, command)]; [now] is the value
    of [time.time()] and [heard] holds the lines that the child writes
    while [list_peers] waits. *)
Definition handle_command (now : Q) (heard : list rline)
    (peer_id : json) (username command : string) (b : bot) : (exn + unit) * bot :=
  let cmd := first_word_lower command in
  if String.eqb cmd "!help" then send_message peer_id (help_text (commands b)) b
  else if String.eqb cmd "!peers" then
    match list_peers heard b with
    | (inl e, b1) => (inl e, b1)
    | (inr peers, b1) =>
        match peer_list peers with
        | inl e => (inl e, b1)
        | inr text => send_message peer_id text b1
        end
    end
  else if String.eqb cmd "!stats" then send_message peer_id (stats_text now b) b
  else if String.eqb cmd "!clear" then
    send_message peer_id history_cleared
      (set_core (Chatbot.set_conversations
                   (<[username := []]> (Chatbot.conversations (core b))) (core b)) b)
  else if String.eqb cmd "!about" then send_message peer_id about_text b
  else
    send_message peer_id
      ("Unknown command: " +:+ cmd +:+ ". Type !help for available commands.") b.

(** The loop of [handle_message] that looks the sender up among the
    peers: the [id] of the first peer with the user name, [None] when
    there is none.  On a value that is not a list the loop raises as
    soon as it has an item, and a value that cannot be iterated raises
    at once. *)
Fixpoint find_peer_in (from_user : string) (peers : list json) : exn + json :=
  match peers with
  | [] => inr JNull
  | JObj fields :: rest =>
      if is_str (get "username" fields) from_user then inr (get "id" fields)
      else find_peer_in from_user rest
  | _ :: _ => inl AttributeError
  end.

Definition find_peer (from_user : string) (peers : json) : exn + json :=
  match peers with
  | JArr items => find_peer_in from_user items
  | JObj [] => inr JNull
  | JObj (_ :: _) => inl AttributeError
  | JStr s => if String.eqb s "" then inr JNull else inl AttributeError
  | _ => inl TypeError
  end.

(** The statements of [handle_message] from [users_helped.add] on,
    once the id of the sender is known.  [now] is the time of the
    rate-limit check and [later] the time of a [!stats]; [api] is the
    outcome of the API call; [heard'] holds the lines that the child
    writes while the [list_peers] of [!peers] waits. *)
Definition answer (now later : Q) (api : option string) (heard' : list rline)
    (from_user : string) (from_id : json) (content : string) (b : bot)
  : (exn + unit) * bot :=
  let b := set_users_helped ({[from_user]} ∪ users_helped b) b in
  let '(allowed, limiter) := Chatbot.check_rate_limit now from_user (core b) in
  let b := set_core limiter b in
  if negb allowed then send_message from_id too_quickly b
  else if String.prefix "!" content then
    handle_command later heard' from_id from_user content b
  else
    let '(response, history) :=
      Chatbot.generate_response api from_user content (core b) in
    let b := set_core history b in
    match send_message from_id response b with
    | (inr _, b1) => (inr tt, set_messages_sent (S (messages_sent b1)) b1)
    | (inl e, b1) =>
        send_message from_id processing_error
          (set_printed (printed b1 ++ [ErrorGeneratingResponse e]) b1)
    end.

(** The body of the [try] of [handle_message], for a message from
    [from_user] with the id [from_id] ([None] when the message has none)
    and the text [content].  [heard] holds the lines that the child
    writes while the [list_peers] that looks for the sender waits. *)
Definition handle_message_body (now later : Q) (api : option string)
    (heard heard' : list rline) (from_user : string) (from_id : json)
    (content : string) (b : bot) : (exn + unit) * bot :=
  let b := set_messages_received (S (messages_received b)) b in
  let resolved :=
    match from_id with
    | JNull =>
        match list_peers heard b with
        | (inl e, b1) => (inl e, b1)
        | (inr peers, b1) =>
            match find_peer from_user peers with
            | inl e => (inl e, b1)
            | inr found => (inr found, b1)
            end
        end
    | _ => (inr from_id, b)
    end in
  match resolved with
  | (inl e, b1) => (inl e, b1)
  | (inr JNull, b1) =>
      (inr tt, set_printed (printed b1 ++ [CouldNotFindPeer from_user]) b1)
  | (inr from_id, b1) => answer now later api heard' from_user from_id content b1
  end.

(** [handle_message(message)]: an exception of the body is printed. *)
Definition handle_message (now later : Q) (api : option string)
    (heard heard' : list rline) (from_user : string) (from_id : json)
    (content : string) (b : bot) : bot :=
  match handle_message_body now later api heard heard' from_user from_id content b with
  | (inl e, b1) => set_printed (printed b1 ++ [ErrorInHandleMessage e]) b1
  | (inr _, b1) => b1
  end.

(** [handle_peer_update(event)]. *)
Definition handle_peer_update (event : json) (b : bot) : bot :=
  let body : (exn + unit) * bot :=
    match event with
    | JObj fields =>
        match get_or "data" (JObj []) fields with
        | JObj data =>
            let action := get_or "action" (JStr "unknown") data in
            let peer := get "peer" data in
            if is_str action "joined" && truthy peer then
              match ChatCalls.subscript "username" peer with
              | inl e => (inl e, b)
              | inr username =>
                  match ChatCalls.subscript "id" peer with
                  | inl e => (inl e, b)
                  | inr id =>
                      send_message id
                        ("Welcome " +:+ format username +:+ "! " +:+ greeting b) b
                  end
              end
            else (inr tt, b)
        | _ => (inl AttributeError, b)
        end
    | _ => (inl AttributeError, b)
    end in
  match body with
  | (inl e, b1) => set_printed (printed b1 ++ [ErrorHandlingPeerUpdate e]) b1
  | (inr _, b1) => b1
  end.

End Library.

End Bot.

(** * tools/test_machine_mode.py: the harness that reads JSON

    The reader thread puts every line of the child into a queue, and the
    methods take lines from the queue until their time is over.  A line
    of the queue is text, from which [json.loads] gives a value or raises
    [JSONDecodeError].  The argument [queue] holds the lines that are in
    the queue or come into it before the time of the call is over; the
    result is what the method returns or raises, and the lines that it
    leaves in the queue. *)

Module JsonHarness.
Import Wire.

Inductive text : Type :=
| NotJson
| Json (v : json).

(** [_wait_for_ready(timeout)]. *)
Fixpoint wait_for_ready (queue : list text) : (exn + bool) * list text :=
  match queue with
  | [] => (inr false, [])
  | NotJson :: rest => wait_for_ready rest
  | Json (JObj fields) :: rest =>
      if is_str (get "type" fields) "ready" then (inr true, rest)
      else wait_for_ready rest
  | Json _ :: rest => (inl AttributeError, rest)
  end.

(** [get_response(timeout)]. *)
Fixpoint get_response (queue : list text) : (exn + option json) * list text :=
  match queue with
  | [] => (inr None, [])
  | NotJson :: rest => get_response rest
  | Json (JObj fields) :: rest =>
      if is_str (get "type" fields) "response" || is_str (get "type" fields) "error"
      then (inr (Some (JObj fields)), rest)
      else get_response rest
  | Json _ :: rest => (inl AttributeError, rest)
  end.

(** [get_events(timeout)], with the events collected so far. *)
Fixpoint get_events (queue : list text) (events : list json)
  : (exn + list json) * list text :=
  match queue with
  | [] => (inr events, [])
  | NotJson :: rest => get_events rest events
  | Json (JObj fields) :: rest =>
      if is_str (get "type" fields) "event"
      then get_events rest (events ++ [JObj fields])
      else get_events rest events
  | Json _ :: rest => (inl AttributeError, rest)
  end.

End JsonHarness.

(** * The vocabulary of the statements *)

Section Vocabulary.
Import Wire Client.

(** The fields that neither a handler nor [_handle_message] writes. *)
Definition same_object (s s' : state) : Prop :=
  process s' = process s ∧
  message_handlers s' = message_handlers s ∧
  peer_update_handlers s' = peer_update_handlers s ∧
  event_handlers s' = event_handlers s ∧
  running s' = running s ∧
  response_futures s' = response_futures s ∧
  next_id s' = next_id s ∧
  stdin s' = stdin s ∧
  clock s' = clock s.

(** The application callbacks among [hs], each paired with the argument
    [data], in list order. *)
Definition callbacks (hs : list handler) (data : json) : list (nat * json) :=
  omap (λ h, match h with
             | Callback name _ => Some (name, data)
             | ReadySetter _ => None
             end) hs.

(** The correlation id that a frame answers: the frame has [type]
    [response] or [error] and a non-empty string as [id]. *)
Definition reply_id (data : json) : option string :=
  match data with
  | JObj fields =>
      if is_str (get "type" fields) "response" || is_str (get "type" fields) "error"
      then match get "id" fields with
           | JStr x => if String.eqb x "" then None else Some x
           | _ => None
           end
      else None
  | _ => None
  end.

(** The response futures after [data] has been handled: the pending
    future registered under the id that [data] answers is done. *)
Definition deliver (data : json) (s : state) : list (future json) :=
  match reply_id data with
  | Some x =>
      match response_futures s !! x with
      | Some a =>
          match futures s !! a with
          | Some Pending => <[a := Done data]> (futures s)
          | _ => futures s
          end
      | None => futures s
      end
  | None => futures s
  end.

(** The application callbacks that [_handle_message] calls for [data],
    with their arguments, in call order. *)
Definition subscribers (data : json) (s : state) : list (nat * json) :=
  match data with
  | JObj fields =>
      if is_str (get "type" fields) "ready"
      then callbacks (dget "ready" (event_handlers s)) data
      else if is_str (get "type" fields) "event" then
        (if is_str (get "event" fields) "message" then
           if truthy (get_or "data" (JObj []) fields)
           then callbacks (message_handlers s) (get_or "data" (JObj []) fields)
           else []
         else if is_str (get "event" fields) "peer_update"
         then callbacks (peer_update_handlers s) data
         else []) ++
        match get "event" fields with
        | JStr e => callbacks (dget e (event_handlers s)) data
        | _ => []
        end
      else []
  | _ => []
  end.


(** [data] is a frame of type [response] or [error] that carries the
    id [x]. *)
Definition answers (x : string) (data : json) : bool :=
  match data with
  | JObj fields =>
      (is_str (get "type" fields) "response" || is_str (get "type" fields) "error")
      && is_str (get "id" fields) x
  | _ => false
  end.




End Vocabulary.

(** ** Sample values *)

(** Twenty times a quarter of a time unit apart, from 100 to 104.75. *)
Definition quarter_seconds : list Q :=
  (λ i, (100 + inject_Z (Z.of_nat i) / 4)%Q) <$> seq 0 20.

(** Twenty exchanges of a user message and a reply: forty entries. *)
Definition forty_turns : list Chatbot.turn :=
  (λ i, Chatbot.Turn (if Nat.even i then "user" else "assistant") (pretty i))
    <$> seq 0 40.

(** Twenty entries. *)
Definition twenty_turns : list Chatbot.turn :=
  (λ i, Chatbot.Turn "user" (pretty i)) <$> seq 0 20.

(** A message event and a status response, as the child writes them. *)
Definition message_frame : Wire.json :=
  Wire.JObj [("type", Wire.JStr "event"); ("event", Wire.JStr "message");
             ("data", Wire.JObj [("content", Wire.JStr "hi")])].

Definition response_frame (id : string) : Wire.json :=
  Wire.JObj [("type", Wire.JStr "response"); ("id", Wire.JStr id);
             ("command", Wire.JStr "/status")].

(** A client whose process is spawned and whose [_running] is set. *)
Definition running_client : Client.state :=
  Client.set_running true
    (Client.set_process (Some (Client.Proc [] false)) Client.init).

(** Three message handlers, the second of which always raises. *)
Definition three_handlers : Client.state :=
  Client.on_message (Client.Callback 3 (λ _ _, false))
    (Client.on_message (Client.Callback 2 (λ _ _, true))
       (Client.on_message (Client.Callback 1 (λ _ _, false)) running_client)).

(** An error frame, as the child writes it. *)
Definition error_frame (id : string) : Wire.json :=
  Wire.JObj [("type", Wire.JStr "error"); ("id", Wire.JStr id);
             ("error", Wire.JObj [("code", Wire.JStr "E1");
                                  ("message", Wire.JStr "no")])].

(** A running client with no caller, its reader task reading. *)
Definition idle_system : Client.sys :=
  Client.Sys running_client Client.Reading [].

(** ** Vocabulary of the further properties *)

(** Successive calls of [check_rate_limit], each for its own user at its
    own time. *)
Fixpoint checks (calls : list (Q * string)) (b : Chatbot.chatbot) : Chatbot.chatbot :=
  match calls with
  | [] => b
  | (now, u) :: rest => checks rest (Chatbot.check_rate_limit now u b).2
  end.

(** Times that never go back, from [lo] on. *)
Fixpoint nondecreasing (lo : Q) (ts : list Q) : Prop :=
  match ts with
  | [] => True
  | t :: rest => (lo <= t)%Q ∧ nondecreasing t rest
  end.

(** The reference limiter: it keeps every accepted time for ever, and
    allows an event at [now] when fewer than [limit] of the accepted
    times are less than 60 time units old. *)
Fixpoint unforgetting (limit : Z) (accepted : list Q) (times : list Q) : list bool :=
  match times with
  | [] => []
  | now :: rest =>
      let recent := filter (λ t, (now - 60 < t)%Q) accepted in
      let ok := negb (bool_decide (limit ≤ Z.of_nat (length recent))) in
      ok :: unforgetting limit (if ok then accepted ++ [now] else accepted) rest
  end.

(** A history of exchanges: a user turn at every even position, a reply
    at every odd one. *)
Definition alternating (h : list Chatbot.turn) : Prop :=
  ∀ i t, h !! i = Some t →
    Chatbot.role t = if Nat.even i then "user" else "assistant".

(** A line that the [connect] loop of [csend_chatbot.py] passes over:
    text that is not JSON, or an object whose [type] is not [ready]. *)
Definition startup_noise (l : Wire.rline) : bool :=
  match l with
  | Wire.BadJson => true
  | Wire.Decoded (Wire.JObj fields) => negb (Wire.is_str (Wire.get "type" fields) "ready")
  | _ => false
  end.

(** A line that [_wait_for_response] passes over while it waits for the
    id [x]: text that is not JSON, or an object that does not answer
    [x]. *)
Definition passed_over (x : string) (l : Wire.rline) : bool :=
  match l with
  | Wire.BadJson => true
  | Wire.Decoded (Wire.JObj fields) => negb (answers x (Wire.JObj fields))
  | _ => false
  end.

(** The indices of the lines on which [found] holds, counted from [i]
    for the first line of [ls], in order. *)
Fixpoint hits (found : string → bool) (i : nat) (ls : list string) : list nat :=
  match ls with
  | [] => []
  | l :: ls => (if found l then [i] else []) ++ hits found (S i) ls
  end.

(** A line of the queue that [get_response] passes over: text that is
    not JSON, or an object that is neither a response nor an error. *)
Definition no_reply (t : JsonHarness.text) : bool :=
  match t with
  | JsonHarness.NotJson => true
  | JsonHarness.Json (Wire.JObj fields) =>
      negb (Wire.is_str (Wire.get "type" fields) "response"
            || Wire.is_str (Wire.get "type" fields) "error")
  | _ => false
  end.

(** A line of the queue that no method raises on. *)
Definition readable (t : JsonHarness.text) : bool :=
  match t with
  | JsonHarness.NotJson | JsonHarness.Json (Wire.JObj _) => true
  | _ => false
  end.

(** The events among the lines of a queue, in order. *)
Definition events_of (queue : list JsonHarness.text) : list Wire.json :=
  omap (λ t, match t with
             | JsonHarness.Json (Wire.JObj fields) =>
                 if Wire.is_str (Wire.get "type" fields) "event"
                 then Some (Wire.JObj fields) else None
             | _ => None
             end) queue.

(** * Properties *)

(** A closed decidable proposition, settled by evaluation. *)
Ltac by_decide := refine (bool_decide_unpack _ _); vm_compute; exact I.

(** ** The rate limiter *)

Section RateLimiter.
Import Chatbot.

Lemma dget_insert {A} (k : string) (v : list A) (d : gmap string (list A)) :
  dget k (<[k := v]> d) = v.
Proof. unfold dget. by rewrite lookup_insert_eq. Qed.

Lemma dget_insert_ne {A} (k k' : string) (v : list A) (d : gmap string (list A)) :
  k ≠ k' → dget k' (<[k := v]> d) = dget k' d.
Proof. intros Hne. unfold dget. by rewrite lookup_insert_ne. Qed.

Lemma prune_all_kept (m : Q) (ts : list Q) :
  Forall (λ t, (m < t)%Q) ts → prune m ts = ts.
Proof.
  unfold prune. induction 1 as [|t ts Ht _ IH]; [done|].
  rewrite filter_cons_True by done. by rewrite IH.
Qed.

Lemma prune_all_dropped (m : Q) (ts : list Q) :
  Forall (λ t, (t <= m)%Q) ts → prune m ts = [].
Proof.
  unfold prune. induction 1 as [|t ts Ht _ IH]; [done|].
  rewrite filter_cons_False by (by apply Qle_not_lt). exact IH.
Qed.

Lemma prune_recent (m : Q) (ts : list Q) : Forall (λ t, (m < t)%Q) (prune m ts).
Proof.
  unfold prune. apply Forall_forall. intros t Ht.
  by apply list_elem_of_filter in Ht as [Ht _].
Qed.

(** What one check does: the stored times are pruned first, the answer
    depends on the pruned list alone, and the time of the check is stored
    exactly when the answer is yes. *)
Lemma check_rate_limit_unfold (now : Q) (u : string) (b : chatbot) :
  let kept := prune (now - 60)%Q (dget u (rate_limiter b)) in
  let '(answer, b') := check_rate_limit now u b in
  answer = negb (bool_decide (rate_limit b ≤ Z.of_nat (length kept))) ∧
  dget u (rate_limiter b') = kept ++ (if answer then [now] else []) ∧
  rate_limit b' = rate_limit b.
Proof.
  cbn zeta. unfold check_rate_limit. case_bool_decide; cbn.
  - rewrite dget_insert, app_nil_r. done.
  - rewrite dget_insert. done.
Qed.

(** Checks that stay under the limit, at times less than a window apart
    from the stored ones: every answer is yes and every time is stored. *)
Lemma check_all_below_limit (w : Q) (ts pre : list Q) (u : string) (b : chatbot) :
  dget u (rate_limiter b) = pre →
  Forall (λ t, (w <= t < w + 60)%Q) (pre ++ ts) →
  Z.of_nat (length pre + length ts) ≤ rate_limit b →
  let '(answers, b') := check_all ts u b in
  answers = replicate (length ts) true ∧
  dget u (rate_limiter b') = pre ++ ts ∧
  rate_limit b' = rate_limit b.
Proof.
  revert pre b. induction ts as [|t ts IH]; intros pre b Hpre Hwin Hlen.
  - cbn. by rewrite app_nil_r.
  - cbn [check_all].
    pose proof (check_rate_limit_unfold t u b) as Hc.
    destruct (check_rate_limit t u b) as [answer b1]. cbn zeta in Hc.
    destruct Hc as (Hans & Hstored & Hlim).
    rewrite Hpre in Hans, Hstored.
    assert (prune (t - 60)%Q pre = pre) as Hkeep.
    { apply prune_all_kept. apply Forall_app in Hwin as [Hp Ht].
      apply Forall_cons in Ht as [Ht _].
      eapply Forall_impl; [exact Hp|]. cbn. intros; lra. }
    rewrite Hkeep in Hans, Hstored.
    assert (answer = true) as ->.
    { rewrite Hans. rewrite bool_decide_eq_false_2; [done|].
      cbn [length] in Hlen. lia. }
    specialize (IH (pre ++ [t]) b1 Hstored).
    rewrite <- app_assoc in IH. cbn [app] in IH. specialize (IH Hwin).
    rewrite Hlim, length_app in IH. cbn [length] in IH, Hlen.
    destruct (check_all ts u b1) as [answers b2].
    destruct IH as (-> & Hs2 & Hl2); [lia|].
    cbn [length replicate]. by rewrite Hl2.
Qed.

End RateLimiter.

(** C8. Every [check_rate_limit] first prunes the stored times of the
    identity to those less than 60 time units old, counts what is left,
    and stores the time of the check only when it allows the event.  With
    the limit of 20 and no stored times, 21 checks whose times lie in one
    window of 60 time units are answered yes twenty times and then no;
    once every stored time is 60 time units old or older, the identity is
    allowed again. *)
Theorem rate_limit_window_20_per_60
    (b : Chatbot.chatbot) (u : string) (w : Q) (ts : list Q) (t21 : Q) :
  Chatbot.rate_limit b = 20 →
  dget u (Chatbot.rate_limiter b) = [] →
  length ts = 20%nat →
  Forall (λ t, (w <= t < w + 60)%Q) (ts ++ [t21]) →
  let first20 := Chatbot.check_all ts u b in
  let last := Chatbot.check_rate_limit t21 u first20.2 in
  first20.1 = replicate 20 true ∧
  last.1 = false ∧
  (∀ now, Forall (λ t, (t + 60 <= now)%Q) ts →
          (Chatbot.check_rate_limit now u last.2).1 = true) ∧
  (∀ now u' b',
     let kept := Chatbot.prune (now - 60)%Q (dget u' (Chatbot.rate_limiter b')) in
     let r := Chatbot.check_rate_limit now u' b' in
     Forall (λ t, (now - 60 < t)%Q) kept ∧
     r.1 = negb (bool_decide (Chatbot.rate_limit b' ≤ Z.of_nat (length kept))) ∧
     dget u' (Chatbot.rate_limiter r.2) = kept ++ (if r.1 then [now] else [])).
Proof.
  intros Hlim Hempty Hlen Hwin. cbn zeta.
  pose proof (check_all_below_limit w ts [] u b Hempty) as H20.
  cbn [app length] in H20.
  assert (Forall (λ t, (w <= t < w + 60)%Q) ts) as Hts
    by (apply Forall_app in Hwin; tauto).
  specialize (H20 Hts). rewrite Hlim, Hlen in H20.
  destruct (Chatbot.check_all ts u b) as [answers b20]. cbn [fst snd].
  destruct H20 as (-> & Hstored & Hlim20); [lia|].
  pose proof (check_rate_limit_unfold t21 u b20) as H21.
  destruct (Chatbot.check_rate_limit t21 u b20) as [a21 b21]. cbn zeta in H21.
  cbn [fst snd]. destruct H21 as (Ha & Hs21 & Hl21).
  rewrite Hstored in Ha, Hs21.
  assert (Chatbot.prune (t21 - 60)%Q ts = ts) as Hkeep.
  { apply prune_all_kept. apply Forall_app in Hwin as [_ H1].
    apply Forall_cons in H1 as [H1 _].
    eapply Forall_impl; [exact Hts|]. cbn. intros; lra. }
  rewrite Hkeep in Ha, Hs21.
  assert (a21 = false) as ->.
  { rewrite Ha, bool_decide_eq_true_2; [done|]. rewrite Hlim20, Hlen. lia. }
  rewrite app_nil_r in Hs21.
  split; [done|]. split; [done|]. split.
  - intros now Hold.
    pose proof (check_rate_limit_unfold now u b21) as Hn.
    destruct (Chatbot.check_rate_limit now u b21) as [an bn]. cbn zeta in Hn.
    cbn [fst]. destruct Hn as (-> & _ & _).
    rewrite Hs21, prune_all_dropped.
    + cbn [length]. rewrite bool_decide_eq_false_2; [done|].
      rewrite Hl21, Hlim20. lia.
    + eapply Forall_impl; [exact Hold|]. cbn. intros; lra.
  - intros now u' b'. cbn zeta.
    pose proof (check_rate_limit_unfold now u' b') as Hn.
    destruct (Chatbot.check_rate_limit now u' b') as [an bn]. cbn zeta in Hn.
    cbn [fst snd]. destruct Hn as (-> & Hsn & _).
    split; [apply prune_recent|]. split; [done|]. exact Hsn.
Qed.

Lemma rate_limit_window_20_per_60_witness :
  let ts := quarter_seconds in
  let first20 := Chatbot.check_all ts "alice" Chatbot.init in
  let last := Chatbot.check_rate_limit 105 "alice" first20.2 in
  (Chatbot.rate_limit Chatbot.init = 20 ∧
   dget "alice" (Chatbot.rate_limiter Chatbot.init) = [] ∧
   length ts = 20%nat ∧
   Forall (λ t, (90 <= t < 90 + 60)%Q) (ts ++ [105%Q])) ∧
  first20.1 = replicate 20 true ∧ last.1 = false ∧
  (Chatbot.check_rate_limit (659 # 4) "alice" last.2).1 = true.
Proof.
  cbn zeta.
  assert (Forall (λ t, (90 <= t < 90 + 60)%Q) (quarter_seconds ++ [105%Q])) as Hwin.
  { by_decide. }
  pose proof (rate_limit_window_20_per_60 Chatbot.init "alice" 90 quarter_seconds 105
                eq_refl eq_refl eq_refl Hwin) as (H1 & H2 & H3 & _).
  split; [split; [reflexivity|split; [reflexivity|split; [reflexivity|exact Hwin]]]|].
  split; [exact H1|]. split; [exact H2|].
  apply H3. by_decide.
Defined.

(** ** The conversation history *)

Section History.
Import Chatbot.

(** [l[-n:]] of a list longer than [n], for a positive [n]: the last
    [n] entries. *)
Lemma py_slice_last {A} (n : Z) (l : list A) :
  0 < n → n ≤ Z.of_nat (length l) →
  py_slice_from (- n) l = drop (length l - Z.to_nat n) l.
Proof.
  intros Hn Hl. unfold py_slice_from.
  destruct (Z.ltb_spec (- n) 0); [|lia]. f_equal. lia.
Qed.

(** The history of [u] after the first half of [generate_response]. *)
Lemma append_and_trim_history (u m : string) (b : chatbot) :
  let h := dget u (conversations b) ++ [Turn "user" m] in
  dget u (conversations (append_and_trim u m b)) =
    if bool_decide (max_context b * 2 < Z.of_nat (length h))
    then py_slice_from (- max_context b) h else h.
Proof.
  cbn zeta. unfold append_and_trim. cbn [max_context set_conversations].
  case_bool_decide; cbn [conversations set_conversations]; by rewrite dget_insert.
Qed.

Lemma generate_response_history (api : option string) (u m : string) (b : chatbot) :
  dget u (conversations (generate_response api u m b).2) =
    dget u (conversations (append_and_trim u m b)) ++
    match api with
    | Some text => [Turn "assistant" text]
    | None => []
    end.
Proof.
  unfold generate_response. destruct api as [text|]; cbn [snd].
  - cbn [conversations set_conversations]. by rewrite dget_insert.
  - by rewrite app_nil_r.
Qed.

End History.

(** C9, as the code has it.  With [max_context = n > 0], the history is
    cut only when appending the user's message makes it longer than
    [2 * n] entries; it is then cut to its last [n] entries, the message
    being the newest one.  A shorter history is kept whole, so that after
    [generate_response], which may append the reply, the history holds at
    most [2 * n + 1] entries. *)
Theorem history_trimmed_beyond_twice_max_context
    (b : Chatbot.chatbot) (u m : string) (n : nat) :
  Chatbot.max_context b = Z.of_nat n →
  (0 < n)%nat →
  let h := dget u (Chatbot.conversations b) ++ [Chatbot.Turn "user" m] in
  let h' := dget u (Chatbot.conversations (Chatbot.append_and_trim u m b)) in
  ((length h ≤ 2 * n)%nat → h' = h) ∧
  ((2 * n < length h)%nat →
     h' = drop (length h - n) h ∧ length h' = n ∧
     last h' = Some (Chatbot.Turn "user" m)) ∧
  (∀ api, (length (dget u (Chatbot.conversations
                     (Chatbot.generate_response api u m b).2)) ≤ 2 * n + 1)%nat).
Proof.
  intros Hmax Hn. cbn zeta.
  pose proof (append_and_trim_history u m b) as Ht. cbn zeta in Ht.
  set (h := dget u (Chatbot.conversations b) ++ [Chatbot.Turn "user" m]) in *.
  assert ((2 * n < length h)%nat →
          dget u (Chatbot.conversations (Chatbot.append_and_trim u m b))
          = drop (length h - n) h) as Hcut.
  { intros Hlong. rewrite Ht, bool_decide_eq_true_2 by lia.
    rewrite Hmax, py_slice_last by lia. by rewrite Nat2Z.id. }
  assert ((length h ≤ 2 * n)%nat →
          dget u (Chatbot.conversations (Chatbot.append_and_trim u m b)) = h) as Hkeep.
  { intros Hshort. rewrite Ht, bool_decide_eq_false_2 by lia. done. }
  split; [exact Hkeep|]. split.
  - intros Hlong. rewrite (Hcut Hlong). split; [done|]. split.
    + rewrite length_drop. lia.
    + subst h. rewrite length_app in *. cbn [length] in *.
      rewrite drop_app_le by lia. apply last_snoc.
  - intros api. rewrite generate_response_history, length_app.
    assert (length (match api with
                    | Some text => [Chatbot.Turn "assistant" text]
                    | None => []
                    end) ≤ 1)%nat by (destruct api; cbn; lia).
    destruct (decide (2 * n < length h)%nat) as [Hlong|Hshort].
    + rewrite (Hcut Hlong), length_drop. lia.
    + rewrite Hkeep by lia. lia.
Qed.

Lemma history_trimmed_beyond_twice_max_context_witness :
  let b := Chatbot.set_conversations {["alice" := forty_turns]} Chatbot.init in
  let h := forty_turns ++ [Chatbot.Turn "user" "hello"] in
  let h' := dget "alice" (Chatbot.conversations (Chatbot.append_and_trim "alice" "hello" b)) in
  (Chatbot.max_context b = Z.of_nat 20 ∧ (0 < 20)%nat ∧ (2 * 20 < length h)%nat) ∧
  h' = drop 21 h ∧ length h' = 20%nat ∧ last h' = Some (Chatbot.Turn "user" "hello").
Proof.
  cbn zeta.
  pose proof (history_trimmed_beyond_twice_max_context
                (Chatbot.set_conversations {["alice" := forty_turns]} Chatbot.init)
                "alice" "hello" 20 eq_refl ltac:(lia)) as (_ & Hcut & _).
  split; [split; [reflexivity|split; [lia|vm_compute; lia]]|].
  apply Hcut. vm_compute. lia.
Defined.

(** C9, as stated, fails.  A history of 20 entries that gets a 21st
    keeps all 21, the oldest included, and holds 22 once the reply is
    appended.  Counting a turn as a message with its reply does not help:
    a history of 20 such exchanges, 40 entries, is cut to 20 entries by
    the next message and holds 21 entries after the reply, not 20
    exchanges. *)
Lemma history_of_20_not_capped :
  let b := Chatbot.set_conversations {["alice" := twenty_turns]} Chatbot.init in
  let b' := Chatbot.set_conversations {["alice" := forty_turns]} Chatbot.init in
  let h' := dget "alice" (Chatbot.conversations (Chatbot.append_and_trim "alice" "hello" b)) in
  Chatbot.max_context b = 20 ∧
  length (dget "alice" (Chatbot.conversations b)) = 20%nat ∧
  length h' = 21%nat ∧
  head h' = head twenty_turns ∧
  length (dget "alice" (Chatbot.conversations
            (Chatbot.generate_response (Some "hi") "alice" "hello" b).2)) = 22%nat ∧
  length (dget "alice" (Chatbot.conversations b')) = 40%nat ∧
  length (dget "alice" (Chatbot.conversations
            (Chatbot.generate_response (Some "hi") "alice" "hello" b').2)) = 21%nat.
Proof. vm_compute. done. Qed.

(** ** Handlers and the dispatcher of [csend_client.py] *)

Section Dispatcher.
Import Wire Client.


Lemma same_object_trans (s1 s2 s3 : state) :
  same_object s1 s2 → same_object s2 s3 → same_object s1 s3.
Proof.
  unfold same_object. intros (?&?&?&?&?&?&?&?&?) (?&?&?&?&?&?&?&?&?).
  repeat split; congruence.
Qed.

(** [_call_handler] returns whatever the handler does: the call is
    recorded, and an exception of the handler ends as a printed line. *)
Lemma call_handler_returns (h : handler) (data : json) (s : state) :
  ∃ s', call_handler h data s = (inr tt, s') ∧
        same_object s s' ∧
        futures s' = futures s ∧
        dispatched s' = dispatched s ∧
        invoked s' = invoked s ++ callbacks [h] data.
Proof.
  unfold call_handler, try_except, invoke.
  destruct h as [name raises|r].
  - destruct (raises (invoked s) data); eexists; (split; [reflexivity|]);
      cbn; by repeat split.
  - destruct (ready_futures s !! r) as [[| |]|]; eexists;
      (split; [reflexivity|]); cbn; rewrite ?app_nil_r; by repeat split.
Qed.

(** The loop [for handler in hs: await self._call_handler(handler, data)]
    calls every handler of [hs] in list order, whichever of them raise. *)
Lemma for_each_call_handler (hs : list handler) (data : json) (s : state) :
  ∃ s', for_each hs (λ h, call_handler h data) s = (inr tt, s') ∧
        same_object s s' ∧
        futures s' = futures s ∧
        dispatched s' = dispatched s ∧
        invoked s' = invoked s ++ callbacks hs data.
Proof.
  revert s. induction hs as [|h hs IH]; intros s.
  - exists s. cbn. rewrite app_nil_r. by repeat split.
  - destruct (call_handler_returns h data s) as (s1 & E1 & O1 & F1 & D1 & I1).
    destruct (IH s1) as (s2 & E2 & O2 & F2 & D2 & I2).
    exists s2. cbn [for_each]. unfold bind at 1. rewrite E1, E2.
    split; [done|]. split; [by eapply same_object_trans|].
    split; [congruence|]. split; [congruence|].
    rewrite I2, I1. unfold callbacks. cbn [omap].
    destruct h; cbn; by rewrite <- ?app_assoc, ?app_nil_r.
Qed.

End Dispatcher.

Section DispatcherFrames.
Import Wire Client.

Ltac finish_effect :=
  eexists _, _; (split; [reflexivity|]); by repeat split.

Lemma route_response_effect (data : json) (fields : list (string * json)) (s : state) :
  ∃ r s', route_response data fields s = (r, s') ∧
          same_object s s' ∧ dispatched s' = dispatched s ∧
          invoked s' = invoked s ∧
          futures s' =
            match get "id" fields with
            | JStr x =>
                if String.eqb x "" then futures s
                else match response_futures s !! x with
                     | Some a =>
                         match futures s !! a with
                         | Some Pending => <[a := Done data]> (futures s)
                         | _ => futures s
                         end
                     | None => futures s
                     end
            | _ => futures s
            end.
Proof.
  unfold route_response.
  destruct (get "id" fields) as [|b|z|f|x|items|o] eqn:Eid; cbn [truthy].
  - finish_effect.
  - destruct b; finish_effect.
  - destruct (z =? 0); finish_effect.
  - destruct (PrimFloat.eqb f 0); finish_effect.
  - destruct (String.eqb x ""); cbn [negb]; [finish_effect|].
    destruct (response_futures s !! x) as [a|]; [|finish_effect].
    unfold set_result. destruct (futures s !! a) as [[| |]|]; finish_effect.
  - destruct items; finish_effect.
  - destruct o; finish_effect.
Qed.

Lemma route_event_effect (data : json) (fields : list (string * json)) (s : state) :
  ∃ r s', route_event data fields s = (r, s') ∧
          same_object s s' ∧ dispatched s' = dispatched s ∧
          futures s' = futures s ∧
          invoked s' = invoked s ++
            ((if is_str (get "event" fields) "message" then
                if truthy (get_or "data" (JObj []) fields)
                then callbacks (message_handlers s) (get_or "data" (JObj []) fields)
                else []
              else if is_str (get "event" fields) "peer_update"
              then callbacks (peer_update_handlers s) data
              else []) ++
             match get "event" fields with
             | JStr e => callbacks (dget e (event_handlers s)) data
             | _ => []
             end).
Proof.
  unfold route_event.
  set (first_part := if is_str (get "event" fields) "message" then _ else _).
  set (specific := if is_str (get "event" fields) "message" then _ else _).
  assert (∃ s1, first_part s = (inr tt, s1) ∧ same_object s s1 ∧
                dispatched s1 = dispatched s ∧ futures s1 = futures s ∧
                invoked s1 = invoked s ++ specific) as (s1 & E1 & O1 & D1 & F1 & I1).
  { subst first_part specific.
    destruct (is_str (get "event" fields) "message").
    - destruct (truthy (get_or "data" (JObj []) fields)).
      + destruct (for_each_call_handler (message_handlers s)
                    (get_or "data" (JObj []) fields) s) as (s1 & ? & ? & ? & ? & ?).
        by exists s1.
      + exists s. rewrite app_nil_r. by repeat split.
    - destruct (is_str (get "event" fields) "peer_update").
      + destruct (for_each_call_handler (peer_update_handlers s) data s)
          as (s1 & ? & ? & ? & ? & ?).
        by exists s1.
      + exists s. rewrite app_nil_r. by repeat split. }
  unfold bind at 1. rewrite E1. unfold bind, generic_handlers.
  assert (event_handlers s1 = event_handlers s) as Hev by apply O1.
  clearbody first_part specific.
  destruct (get "event" fields) as [|b|z|f|e|items|o];
    try (exists (inr tt), s1; cbn; rewrite app_nil_r;
         split; [done|]; split; [exact O1|]; done);
    try (exists (inl TypeError), s1; cbn; rewrite app_nil_r;
         split; [done|]; split; [exact O1|]; done).
  cbn. rewrite Hev.
  destruct (for_each_call_handler (dget e (event_handlers s)) data s1)
    as (s2 & E2 & O2 & F2 & D2 & I2).
  exists (inr tt), s2. split; [done|]. split; [by eapply same_object_trans|].
  split; [congruence|]. split; [congruence|].
  by rewrite I2, I1, <- app_assoc.
Qed.

(** What [_handle_message] does to the state: the value is recorded,
    the future that the value answers is done, the subscribers are
    called, and nothing else of the client changes.  It never raises. *)
Lemma handle_message_effect (data : json) (s : state) :
  ∃ s', handle_message data s = (inr tt, s') ∧
        same_object s s' ∧
        dispatched s' = dispatched s ++ [data] ∧
        futures s' = deliver data s ∧
        invoked s' = invoked s ++ subscribers data s.
Proof.
  unfold handle_message, bind, modify, try_except.
  set (s0 := set_dispatched (dispatched s ++ [data]) s).
  assert (∃ r s1, handle_message_body data s0 = (r, s1) ∧
                  same_object s s1 ∧ dispatched s1 = dispatched s ++ [data] ∧
                  futures s1 = deliver data s ∧
                  invoked s1 = invoked s ++ subscribers data s)
    as (r & s1 & E & O & D & F & I).
  { unfold handle_message_body, deliver, subscribers, reply_id.
    destruct data as [|b|z|f|x|items|fields];
      try (exists (inl AttributeError), s0; cbn; rewrite app_nil_r; by repeat split).
    destruct (get "type" fields) as [|b|z|f|t|items|o];
      try (exists (inr tt), s0; cbn; rewrite app_nil_r; by repeat split).
    cbn [is_str].
    destruct (String.eqb_spec t "start") as [->|_].
    { exists (inr tt), s0; cbn; rewrite app_nil_r; by repeat split. }
    destruct (String.eqb_spec t "ready") as [->|_].
    { cbn [orb String.eqb Ascii.eqb Bool.eqb].
      destruct (for_each_call_handler (dget "ready" (event_handlers s0))
                  (JObj fields) s0) as (s1 & E & O & F & D & I).
      exists (inr tt), s1.
      split; [done|]. split; [apply O|]. done. }
    assert (∀ r s1,
              route_response (JObj fields) fields s0 = (r, s1) →
              same_object s0 s1 → dispatched s1 = dispatched s0 →
              invoked s1 = invoked s0 →
              futures s1 =
                match get "id" fields with
                | JStr x =>
                    if String.eqb x "" then futures s0
                    else match response_futures s0 !! x with
                         | Some a =>
                             match futures s0 !! a with
                             | Some Pending => <[a := Done (JObj fields)]> (futures s0)
                             | _ => futures s0
                             end
                         | None => futures s0
                         end
                | _ => futures s0
                end →
              same_object s s1 ∧ dispatched s1 = dispatched s ++ [JObj fields] ∧
              futures s1 =
                match match get "id" fields with
                      | JStr x => if String.eqb x "" then None else Some x
                      | _ => None
                      end with
                | Some x =>
                    match response_futures s !! x with
                    | Some a =>
                        match futures s !! a with
                        | Some Pending => <[a := Done (JObj fields)]> (futures s)
                        | _ => futures s
                        end
                    | None => futures s
                    end
                | None => futures s
                end ∧
              invoked s1 = invoked s ++ []) as Hreply.
    { intros r s1 E O D I F. split; [apply O|]. split; [done|].
      split; [|by rewrite app_nil_r].
      rewrite F. destruct (get "id" fields) as [| | | |x| |]; try done.
      by destruct (String.eqb x ""). }
    destruct (String.eqb_spec t "response") as [->|_].
    { cbn [orb String.eqb Ascii.eqb Bool.eqb].
      destruct (route_response_effect (JObj fields) fields s0)
        as (r & s1 & E & O & D & I & F).
      exists r, s1. split; [done|]. by eapply Hreply. }
    destruct (String.eqb_spec t "error") as [->|_].
    { cbn [orb String.eqb Ascii.eqb Bool.eqb].
      destruct (route_response_effect (JObj fields) fields s0)
        as (r & s1 & E & O & D & I & F).
      exists r, s1. split; [done|]. by eapply Hreply. }
    clear Hreply. cbn [orb].
    destruct (String.eqb_spec t "event") as [->|_].
    { destruct (route_event_effect (JObj fields) fields s0)
        as (r & s1 & E & O & D & F & I).
      exists r, s1. split; [done|]. split; [apply O|]. done. }
    exists (inr tt), s0; cbn; rewrite app_nil_r; by repeat split. }
  rewrite E. destruct r as [e|[]].
  - eexists. split; [reflexivity|]. cbn. split; [|done]. apply O.
  - by exists s1.
Qed.

End DispatcherFrames.

(** ** The read loops *)

Section ReadLoops.
Import Wire Client.

Lemma read_iteration_decoded (v : json) (s : state) :
  ∃ s', handle_message v s = (inr tt, s') ∧
        read_iteration (Decoded v) s = (Reading, s').
Proof.
  destruct (handle_message_effect v s) as (s' & E & _).
  exists s'. split; [done|]. unfold read_iteration. cbn [loads]. by rewrite E.
Qed.


End ReadLoops.

Section ChatLoop.
Import Wire Client.








End ChatLoop.




(** C7. A frame of type [event] makes [_handle_message] call the
    handlers of its category and then the generic handlers registered
    under its event name, each list in registration order and in full,
    whichever handlers raise; [_handle_message] returns, and the read
    loop goes on with the next line.  More generally, a loop over
    [_call_handler] calls every handler of any list. *)
Theorem subscriber_failure_is_isolated
    (fields : list (string * Wire.json)) (rest : list Wire.rline) (s : Client.state) :
  Wire.is_str (Wire.get "type" fields) "event" = true →
  Client.running s = true →
  let data := Wire.JObj fields in
  let event_type := Wire.get "event" fields in
  let message_data := Wire.get_or "data" (Wire.JObj []) fields in
  (∃ s', Client.handle_message data s = (inr tt, s') ∧
         Client.invoked s' =
           Client.invoked s ++
           (if Wire.is_str event_type "message" then
              if Wire.truthy message_data
              then callbacks (Client.message_handlers s) message_data else []
            else if Wire.is_str event_type "peer_update"
            then callbacks (Client.peer_update_handlers s) data
            else []) ++
           match event_type with
           | Wire.JStr e => callbacks (dget e (Client.event_handlers s)) data
           | _ => []
           end ∧
         Client.read_output (Wire.Decoded data :: rest) s = Client.read_output rest s') ∧
  (∀ hs d s0, ∃ s1,
     Client.for_each hs (λ h, Client.call_handler h d) s0 = (inr tt, s1) ∧
     Client.invoked s1 = Client.invoked s0 ++ callbacks hs d).
Proof.
  intros Hevent Hrun. cbn zeta. split.
  - destruct (handle_message_effect (Wire.JObj fields) s) as (s' & E & _ & _ & _ & I).
    exists s'. split; [exact E|]. split.
    + rewrite I. unfold subscribers.
      destruct (Wire.get "type" fields) as [| | | |t| |]; try discriminate Hevent.
      cbn [Wire.is_str] in *. apply String.eqb_eq in Hevent as ->. done.
    + cbn [Client.read_output]. rewrite Hrun.
      destruct (read_iteration_decoded (Wire.JObj fields) s) as (s1 & E1 & ->).
      congruence.
  - intros hs d s0.
    destruct (for_each_call_handler hs d s0) as (s1 & E & _ & _ & _ & I).
    by exists s1.
Qed.

Lemma subscriber_failure_is_isolated_witness :
  let d := Wire.JObj [("content", Wire.JStr "hi")] in
  (Wire.is_str (Wire.get "type" [("type", Wire.JStr "event");
                                 ("event", Wire.JStr "message"); ("data", d)])
     "event" = true ∧
   Client.running three_handlers = true) ∧
  ∃ s', Client.handle_message message_frame three_handlers = (inr tt, s') ∧
        Client.invoked s' = [(1%nat, d); (2%nat, d); (3%nat, d)] ∧
        Client.stdout s' = [Client.PHandlerError Wire.HandlerError].
Proof.
  cbn zeta. split; [split; reflexivity|].
  destruct (subscriber_failure_is_isolated
              [("type", Wire.JStr "event"); ("event", Wire.JStr "message");
               ("data", Wire.JObj [("content", Wire.JStr "hi")])]
              [] three_handlers eq_refl eq_refl) as [(s' & E & I & _) _].
  exists s'. split; [exact E|]. split; [exact I|].
  assert (s' = (Client.handle_message message_frame three_handlers).2) as ->
    by (unfold message_frame; by rewrite E).
  reflexivity.
Defined.

(** ** Startup and shutdown *)

Section Lifecycle.
Import Wire.

(** A reader task that finds [_running] cleared leaves at once. *)
Lemma read_output_not_running (lines : list rline) (s : Client.state) :
  Client.running s = false →
  Client.read_output lines s = (Client.Stopped, Client.set_running false s).
Proof. intros H. destruct lines; cbn; by rewrite H. Qed.

(** The harness gives the child up only once it has exited or has been
    killed, and [stop] takes two sleeps at most. *)
Lemma harness_stop_ends_the_child (ch : child) (s : Harness.state) (p : Harness.proc) :
  Harness.process s = Some p →
  ∃ s' p' t,
    Harness.stop ch s = (s', Some p') ∧
    Harness.process s' = None ∧
    Harness.exits ch p' = Some t ∧
    (t ≤ Harness.clock s')%nat ∧
    (Harness.clock s' ≤ Harness.clock s + 2 * Harness.sleep_ms)%nat.
Proof.
  intros Hp. unfold Harness.stop. rewrite Hp.
  set (p0 := Harness.send_quit _ _ p).
  set (t1 := (Harness.clock s + Harness.sleep_ms)%nat).
  assert (∀ q now, Harness.alive ch q now = false →
                   ∃ t, Harness.exits ch q = Some t ∧ (t ≤ now)%nat) as Hdead.
  { intros q now. unfold Harness.alive. destruct (Harness.exits ch q) as [t|]; [|done].
    case_bool_decide; [done|]. intros _. exists t. split; [done|lia]. }
  assert (∀ q now, ∃ t,
            Harness.exits ch (Harness.Proc (Harness.quit_at q) (Harness.term_at q) (Some now))
            = Some t ∧ (t ≤ now)%nat) as Hkill.
  { intros q now. unfold Harness.exits, exit_time. cbn.
    destruct (after _ (quit_delay ch)) as [a|], (after _ (term_delay ch)) as [b|];
      cbn; eexists; (split; [reflexivity|lia]). }
  destruct (Harness.alive ch p0 t1) eqn:A1.
  - set (p1 := Harness.Proc _ (Some t1) _).
    destruct (Harness.alive ch p1 (t1 + Harness.sleep_ms)) eqn:A2.
    + destruct (Hkill p1 (t1 + Harness.sleep_ms)%nat) as (t & Ht & Hle).
      eexists _, _, t. split; [reflexivity|]. cbn. subst t1.
      unfold Harness.sleep_ms in *. repeat split; [exact Ht|lia|lia].
    + destruct (Hdead _ _ A2) as (t & Ht & Hle).
      eexists _, _, t. split; [reflexivity|]. cbn. subst t1.
      unfold Harness.sleep_ms in *. repeat split; [exact Ht|lia|lia].
  - rewrite A1. destruct (Hdead _ _ A1) as (t & Ht & Hle).
    eexists _, _, t. split; [reflexivity|]. cbn. subst t1.
    unfold Harness.sleep_ms in *. repeat split; [exact Ht|lia|lia].
Qed.

End Lifecycle.

(** C2, on the code.  [CSendClient.connect] of [csend_client.py] started
    with [_running] cleared, as [__init__] leaves it: whatever the child
    writes, the reader task leaves at once, [connect] raises after the
    startup timeout of 5000 ms, and the process is kept as spawned, no
    signal sent.  The [connect] of [csend_chatbot.py] has no timeout: with
    a silent child it waits in [readline].  The harness, on the same
    failure, stops the child: [start] returns [False] only after the child
    has exited or has been killed. *)
Theorem connect_failure_leaves_child_running
    (out : list Wire.rline) (s : Client.state) (ch : Wire.child) (h : Harness.state) :
  let s0 := Client.set_running false s in
  (∃ s', Client.connect out s0 = (inl Wire.NotReadyInTime, s') ∧
         Client.process s' = Some (Client.Proc [] false) ∧
         Client.dispatched s' = Client.dispatched s ∧
         Client.clock s' = (Client.clock s + Client.startup_timeout)%nat) ∧
  (∃ s', ChatClient.connect [] s0 = ChatClient.Waiting s' ∧
         Client.process s' = Some (Client.Proc [] false)) ∧
  (∃ h' p t, Harness.start ch None h = (false, h', Some p) ∧
             Harness.exits ch p = Some t ∧ (t ≤ Harness.clock h')%nat).
Proof.
  cbn zeta. split; [|split].
  - unfold Client.connect.
    rewrite read_output_not_running by reflexivity.
    cbn [Client.ready_futures Client.set_running Client.on_event
         Client.set_event_handlers Client.set_ready_futures Client.set_process
         Client.set_stdout].
    rewrite lookup_app_r by lia. rewrite Nat.sub_diag. cbn [lookup list_lookup].
    eexists. split; [reflexivity|]. cbn. done.
  - eexists. split; [reflexivity|]. done.
  - unfold Harness.start. cbn zeta.
    destruct (harness_stop_ends_the_child ch
                (Harness.State (Some (Harness.Proc None None None)) (Harness.is_ready h)
                   (Harness.clock h + Harness.ready_timeout)%nat)
                (Harness.Proc None None None) eq_refl)
      as (h' & p & t & E & _ & Ht & Hle & _).
    exists h', p, t. cbn [Harness.process Harness.is_ready Harness.clock].
    rewrite E. done.
Qed.

(** C5, on the code.  [disconnect] against a child that answers neither
    [/quit] nor [SIGTERM]: after the grace period of 2000 ms it sends
    [SIGTERM] and then waits in [process.wait()] without a bound; it never
    sends [SIGKILL].  When [_running] is already cleared, [disconnect]
    does nothing at all.  The [stop] of the harness has no unbounded wait:
    it ends within two sleeps, and the child has exited or has been killed
    by then. *)
Theorem disconnect_waits_forever_after_sigterm
    (s : Client.state) (p : Client.proc) (ch : Wire.child)
    (h : Harness.state) (hp : Harness.proc) :
  let s0 := Client.set_running true (Client.set_process (Some p) s) in
  (∃ s', Client.disconnect (Wire.Child None None) s0 = Client.Blocked s' ∧
         Client.process s' =
           Some (Client.Proc (Client.signals p ++ [Wire.SIGTERM]) (Client.reaped p)) ∧
         Client.stdin s' = Client.stdin s ++ ["/quit"]) ∧
  Client.disconnect ch (Client.set_running false s)
    = Client.Returned (Client.set_running false s) ∧
  (∃ h' p' t,
     Harness.stop ch (Harness.State (Some hp) (Harness.is_ready h) (Harness.clock h))
       = (h', Some p') ∧
     Harness.exits ch p' = Some t ∧
     (t ≤ Harness.clock h' ≤ Harness.clock h + 1000)%nat).
Proof.
  cbn zeta. split; [|split].
  - eexists. split; [reflexivity|]. done.
  - reflexivity.
  - destruct (harness_stop_ends_the_child ch
                (Harness.State (Some hp) (Harness.is_ready h) (Harness.clock h)) hp eq_refl)
      as (h' & p' & t & E & _ & Ht & Hle & Hb).
    exists h', p', t. split; [exact E|]. split; [exact Ht|].
    cbn [Harness.clock] in Hb. unfold Harness.sleep_ms in Hb. lia.
Qed.

(** ** Pending requests under the event loop *)

Section Registry.
Import Wire Client.







End Registry.

Section EventLoop.
Import Wire Client.

(** The effect of sending. *)
Lemma send_command_async_begin_effect (cmd : string) (timeout : nat) (s : state) :
  let x := cmd_id (next_id s) in
  let a := length (futures s) in
  let sent := if contains "--id=" cmd then cmd else cmd +:+ " --id=" +:+ x in
  ∃ r s', send_command_async_begin cmd timeout s = (r, s') ∧
    next_id s' = S (next_id s) ∧
    futures s' = futures s ++ [Pending] ∧
    dispatched s' = dispatched s ∧ clock s' = clock s ∧
    process s' = process s ∧ running s' = running s ∧
    response_futures s' = <[x := a]> (response_futures s) ∧
    match process s with
    | Some _ =>
        r = inr (Call x a sent (clock s + timeout)%nat) ∧
        stdin s' = stdin s ++ [sent]
    | None => r = inl AttributeError ∧ stdin s' = stdin s
    end.
Proof.
  cbn zeta. unfold send_command_async_begin, send_command.
  cbn [process set_response_futures set_futures set_next_id].
  destruct (process s) as [p|] eqn:Hp; eexists _, _; (split; [reflexivity|]); cbn;
    by repeat split.
Qed.












End EventLoop.



(** C4, on the code.  Two commands that carry the caller's own ids [a1]
    and [a2] are sent as they are, but their futures are registered
    under the generated ids [cmd_1] and [cmd_2].  The responses carrying
    [a2] and [a1] are dispatched and dropped: neither caller can be
    resumed before its deadline, and both end with the timeout result. *)
Theorem caller_supplied_ids_never_resolve :
  ∃ y c1 c2,
    Client.run [Client.Send "/list --id=a1" 2000;
                Client.Send "/status --id=a2" 2000;
                Client.Line (Wire.Decoded (response_frame "a2"));
                Client.Line (Wire.Decoded (response_frame "a1"))] idle_system
      = Some y ∧
    Client.stdin (Client.st y) = ["/list --id=a1"; "/status --id=a2"] ∧
    Client.dispatched (Client.st y) = [response_frame "a2"; response_frame "a1"] ∧
    Client.calls y = [(c1, Client.Awaiting); (c2, Client.Awaiting)] ∧
    Client.correlation_id c1 = "cmd_1" ∧ Client.correlation_id c2 = "cmd_2" ∧
    Client.futures (Client.st y) !! Client.response_future c1 = Some Client.Pending ∧
    Client.futures (Client.st y) !! Client.response_future c2 = Some Client.Pending ∧
    Client.step (Client.Resume 1) y = None ∧
    Client.step (Client.Resume 0) y = None ∧
    ∃ y', Client.run [Client.Advance 2000; Client.Resume 1; Client.Resume 0] y
            = Some y' ∧
          Client.calls y' = [(c1, Client.Completed None); (c2, Client.Completed None)].
Proof.
  vm_compute. eexists _, _, _. split; [reflexivity|].
  repeat (split; [reflexivity|]). eexists. split; reflexivity.
Qed.

(** With generated ids the same exchange does resolve out of order: the
    response to the second command completes the second caller while the
    first one stays registered and pending. *)
Lemma generated_ids_resolve_out_of_order :
  ∃ y c1 c2 y',
    Client.run [Client.Send "/list" 2000; Client.Send "/status" 2000;
                Client.Line (Wire.Decoded (response_frame "cmd_2"))] idle_system
      = Some y ∧
    Client.calls y = [(c1, Client.Awaiting); (c2, Client.Awaiting)] ∧
    Client.step (Client.Resume 0) y = None ∧
    Client.step (Client.Resume 1) y = Some y' ∧
    Client.calls y' =
      [(c1, Client.Awaiting); (c2, Client.Completed (Some (response_frame "cmd_2")))] ∧
    Client.response_futures (Client.st y') !! "cmd_1"
      = Some (Client.response_future c1) ∧
    Client.futures (Client.st y') !! Client.response_future c1 = Some Client.Pending.
Proof.
  vm_compute. eexists _, _, _, _. split; [reflexivity|].
  repeat (split; [reflexivity|]). reflexivity.
Qed.

(** A second frame for the same id that is dispatched before the caller
    is resumed finds the future done: [set_result] raises
    [InvalidStateError], which [_handle_message] catches and prints.  The
    future keeps the first frame, which is what the caller gets. *)
Lemma second_reply_before_resume_is_refused :
  ∃ y c y',
    Client.run [Client.Send "/list" 2000;
                Client.Line (Wire.Decoded (response_frame "cmd_1"));
                Client.Line (Wire.Decoded (error_frame "cmd_1"))] idle_system
      = Some y ∧
    Client.calls y = [(c, Client.Awaiting)] ∧
    Client.futures (Client.st y) !! Client.response_future c
      = Some (Client.Done (response_frame "cmd_1")) ∧
    Client.stdout (Client.st y) = [Client.PHandleError Wire.InvalidStateError] ∧
    Client.step (Client.Resume 0) y = Some y' ∧
    Client.calls y' = [(c, Client.Completed (Some (response_frame "cmd_1")))].
Proof.
  vm_compute. eexists _, _, _. split; [reflexivity|].
  repeat (split; [reflexivity|]). reflexivity.
Qed.




Section StreamEnd.
Import Wire Client.


End StreamEnd.




(** * Further properties of the code *)

(** ** The dispatcher keeps the kinds of frames apart *)

(** X1. [_handle_message] never raises, and it routes by [type] alone:
    no frame changes the registry; a frame of type [response] or [error]
    calls no handler, not even one registered with [on_event]; a frame of
    any other type completes no future, whatever [id] it carries; and a
    frame whose type is none of [ready], [response], [error], [event]
    (a [start] frame, an unknown or missing type) has no effect at all. *)
Theorem frames_are_routed_by_type (fields : list (string * Wire.json)) (s : Client.state) :
  let data := Wire.JObj fields in
  let t := Wire.get "type" fields in
  let reply := Wire.is_str t "response" || Wire.is_str t "error" in
  ∃ s', Client.handle_message data s = (inr tt, s') ∧
        Client.response_futures s' = Client.response_futures s ∧
        (reply = true → Client.invoked s' = Client.invoked s ∧
                        Client.ready_futures s' = Client.ready_futures s) ∧
        (reply = false → Client.futures s' = Client.futures s) ∧
        (reply || Wire.is_str t "ready" || Wire.is_str t "event" = false →
         s' = Client.set_dispatched (Client.dispatched s ++ [data]) s).
Proof.
  cbn zeta.
  destruct (handle_message_effect (Wire.JObj fields) s) as (s' & E & O & D & F & I).
  exists s'. split; [exact E|]. split; [apply O|].
  assert (∀ t' : string, Wire.is_str (Wire.get "type" fields) t' = true →
                         Wire.get "type" fields = Wire.JStr t') as Hty.
  { intros t'. destruct (Wire.get "type" fields); try discriminate.
    cbn. by intros ->%String.eqb_eq. }
  split; [|split].
  - intros Hr. 
    assert (Wire.get "type" fields = Wire.JStr "response" ∨
            Wire.get "type" fields = Wire.JStr "error") as Ht.
    { apply orb_true_iff in Hr as [H|H]; [left|right]; by apply Hty. }
    split.
    + rewrite I. unfold subscribers. destruct Ht as [-> | ->]; cbn; by rewrite app_nil_r.
    + revert E. unfold Client.handle_message, Client.bind, Client.modify,
        Client.try_except, Client.handle_message_body.
      set (s0 := Client.set_dispatched _ s).
      assert (∃ r s1, Client.route_response (Wire.JObj fields) fields s0 = (r, s1) ∧
                      Client.ready_futures s1 = Client.ready_futures s) as (r & s1 & Er & Rr).
      { unfold Client.route_response.
        destruct (Wire.truthy (Wire.get "id" fields)); [|by eexists _, _].
        destruct (Wire.get "id" fields) as [| | | |x| |]; try by eexists _, _.
        destruct (Client.response_futures s0 !! x) as [a|]; [|by eexists _, _].
        unfold Client.set_result.
        destruct (Client.futures s0 !! a) as [[| |]|]; by eexists _, _. }
      destruct Ht as [-> | ->]; cbn [Wire.is_str String.eqb Ascii.eqb Bool.eqb orb andb];
        rewrite Er; destruct r as [e|[]]; cbn; intros [= <-]; done.
  - intros Hr. rewrite F. unfold deliver, reply_id. by rewrite Hr.
  - intros Hnone.
    apply orb_false_iff in Hnone as [Hnone Hev].
    apply orb_false_iff in Hnone as [Hr Hrd].
    revert E. unfold Client.handle_message, Client.bind, Client.modify,
      Client.try_except, Client.handle_message_body.
    rewrite Hr, Hrd, Hev.
    destruct (Wire.is_str (Wire.get "type" fields) "start"); cbn; by intros [= <-].
Qed.

(** ** Shutdown *)

(** X2. [disconnect] on a running client with a child process: [/quit]
    is written and [_running] is cleared in every case.  A child that
    exits within the grace period of 2000 ms gets no signal, and
    [disconnect] returns when it exits.  Any other child gets exactly one
    [SIGTERM], 2000 ms after the start; [disconnect] then returns when the
    child has exited, and waits without bound exactly when the child
    answers neither [/quit] nor [SIGTERM].  A [disconnect] that has
    returned makes every later [disconnect] do nothing. *)
Theorem disconnect_outcomes (ch : Wire.child) (s : Client.state) (p : Client.proc) :
  Client.running s = true →
  Client.process s = Some p →
  match Client.disconnect ch s with
  | Client.Returned s' =>
      Client.running s' = false ∧
      Client.stdin s' = Client.stdin s ++ ["/quit"] ∧
      ((∃ d, Wire.quit_delay ch = Some d ∧ (d < Client.quit_grace)%nat ∧
             Client.process s' = Some (Client.Proc (Client.signals p) true) ∧
             Client.clock s' = (Client.clock s + d)%nat) ∨
       ((∀ d, Wire.quit_delay ch = Some d → (Client.quit_grace ≤ d)%nat) ∧
        (Wire.quit_delay ch ≠ None ∨ Wire.term_delay ch ≠ None) ∧
        Client.process s' =
          Some (Client.Proc (Client.signals p ++ [Wire.SIGTERM]) true) ∧
        (Client.clock s + Client.quit_grace ≤ Client.clock s')%nat)) ∧
      (∀ ch', Client.disconnect ch' s' = Client.Returned s')
  | Client.Blocked s' =>
      Wire.quit_delay ch = None ∧ Wire.term_delay ch = None ∧
      Client.running s' = false ∧
      Client.stdin s' = Client.stdin s ++ ["/quit"] ∧
      Client.process s' =
        Some (Client.Proc (Client.signals p ++ [Wire.SIGTERM]) (Client.reaped p))
  | Client.Raised _ _ => False
  end.
Proof.
  intros Hrun Hp. unfold Client.disconnect, Client.send_command.
  rewrite Hrun, Hp.
  cbn [Client.process Client.set_running Client.set_stdin Client.clock].
  rewrite Hp. unfold Wire.exit_time, Client.quit_grace.
  destruct ch as [[q|] [t|]];
    cbn [Wire.after Wire.opt_min Wire.quit_delay Wire.term_delay].
  all: repeat case_bool_decide.
  all: unfold Client.reap, Client.add_signal;
    cbn [Client.process Client.set_running Client.set_stdin Client.clock
         Client.set_clock Client.set_process Client.running Client.stdin
         Client.signals Client.reaped];
    rewrite ?Hp;
    cbn [Client.process Client.set_running Client.set_stdin Client.clock
         Client.set_clock Client.set_process Client.running Client.stdin
         Client.signals Client.reaped].
  all: try (split; [done|]); try (split; [done|]).
  all: try (split; [|done]).
  all: try (left; exists q; repeat split; first [lia|done]).
  all: try (right; split; [intros d [= <-]; lia|]; split; [by (left + right)|];
            split; [done|lia]).
  all: try done.
Qed.

Lemma disconnect_outcomes_witness :
  (Client.running running_client = true ∧
   Client.process running_client = Some (Client.Proc [] false)) ∧
  ∃ s', Client.disconnect (Wire.Child (Some 100%nat) None) running_client
          = Client.Returned s' ∧
        Client.process s' = Some (Client.Proc [] true) ∧
        Client.clock s' = 100%nat.
Proof.
  split; [split; reflexivity|].
  pose proof (disconnect_outcomes (Wire.Child (Some 100%nat) None) running_client
                (Client.Proc [] false) eq_refl eq_refl) as H.
  destruct (Client.disconnect (Wire.Child (Some 100%nat) None) running_client)
    as [s'|e s'|s'] eqn:E; [|done|destruct H as [H _]; discriminate H].
  exists s'. split; [reflexivity|].
  destruct H as (_ & _ & [(d & Hq & _ & P & C)|(Hall & _)] & _).
  - injection Hq as <-. split; [exact P|exact C].
  - specialize (Hall 100%nat eq_refl). unfold Client.quit_grace in Hall. lia.
Defined.

(** ** Startup of the chatbot's client *)

Section ChatConnect.
Import Wire Client.

Lemma connect_loop_noise (pre lines : list rline) (s : state) :
  forallb startup_noise pre = true →
  ChatClient.connect_loop (pre ++ lines) s = ChatClient.connect_loop lines s.
Proof.
  induction pre as [|l pre IH]; [done|].
  cbn [forallb]. intros [Hl Hpre]%andb_prop. cbn [app ChatClient.connect_loop].
  destruct l as [| | |[| | | | | |fields]]; try discriminate Hl.
  - cbn. by apply IH.
  - cbn [loads]. cbn in Hl. apply negb_true_iff in Hl. rewrite Hl. by apply IH.
Qed.

End ChatConnect.

(** X3. The [connect] of [csend_chatbot.py] reads until the first frame
    of type [ready]: the lines before it that are not JSON or are objects
    of another type are passed over without any handler being called, and
    the lines after it are left in the stream.  The first line that is
    neither such noise nor a ready frame ends [connect] with an exception:
    the end of the stream, a line that is not UTF-8, or a JSON value that
    is not an object.  While only noise has come, [connect] keeps
    waiting. *)
Theorem chat_connect_reads_up_to_ready (pre rest : list Wire.rline) (s : Client.state) :
  forallb startup_noise pre = true →
  let s0 := Client.set_process (Some (Client.Proc [] false)) s in
  (∀ fields, Wire.is_str (Wire.get "type" fields) "ready" = true →
     ChatClient.connect (pre ++ Wire.Decoded (Wire.JObj fields) :: rest) s
     = ChatClient.Connected rest (Client.set_running true s0)) ∧
  ChatClient.connect (pre ++ Wire.Eof :: rest) s
    = ChatClient.Failed Wire.TerminatedUnexpectedly s0 ∧
  ChatClient.connect (pre ++ Wire.BadUtf8 :: rest) s
    = ChatClient.Failed Wire.UnicodeDecodeError s0 ∧
  (∀ v, (∀ fields, v ≠ Wire.JObj fields) →
     ChatClient.connect (pre ++ Wire.Decoded v :: rest) s
     = ChatClient.Failed Wire.AttributeError s0) ∧
  ChatClient.connect pre s = ChatClient.Waiting s0.
Proof.
  intros Hpre. cbn zeta. unfold ChatClient.connect.
  repeat split.
  - intros fields Hready. rewrite connect_loop_noise by done.
    cbn. by rewrite Hready.
  - by rewrite connect_loop_noise.
  - by rewrite connect_loop_noise.
  - intros v Hv. rewrite connect_loop_noise by done.
    destruct v as [| | | | | |fields]; try done. by destruct (Hv fields).
  - rewrite <- (app_nil_r pre) at 1. by rewrite connect_loop_noise.
Qed.

Lemma chat_connect_reads_up_to_ready_witness :
  let start := Wire.Decoded (Wire.JObj [("type", Wire.JStr "start")]) in
  let ready := Wire.JObj [("type", Wire.JStr "ready")] in
  forallb startup_noise [Wire.BadJson; start] = true ∧
  ChatClient.connect [Wire.BadJson; start; Wire.Decoded ready; Wire.Decoded message_frame]
    Client.init
  = ChatClient.Connected [Wire.Decoded message_frame] running_client.
Proof.
  cbn zeta. split; [reflexivity|].
  exact (proj1 (chat_connect_reads_up_to_ready
                  [Wire.BadJson; Wire.Decoded (Wire.JObj [("type", Wire.JStr "start")])]
                  [Wire.Decoded message_frame] Client.init eq_refl)
           [("type", Wire.JStr "ready")] eq_refl).
Defined.

(** ** More on the rate limiter *)

Section RateLimiterMore.
Import Chatbot.

Lemma prune_length (m : Q) (ts : list Q) : (length (prune m ts) ≤ length ts)%nat.
Proof. unfold prune. apply length_filter. Qed.

Lemma prune_prune (m m' : Q) (ts : list Q) :
  (m' <= m)%Q → prune m (prune m' ts) = prune m ts.
Proof.
  intros Hm. unfold prune. induction ts as [|t ts IH]; [done|].
  destruct (decide (m' < t)%Q) as [H'|H'].
  - rewrite (filter_cons_True (λ t, (m' < t)%Q)) by done.
    destruct (decide (m < t)%Q) as [H|H].
    + rewrite !filter_cons_True by done. by rewrite IH.
    + rewrite !filter_cons_False by done. exact IH.
  - rewrite (filter_cons_False (λ t, (m' < t)%Q)) by done.
    rewrite filter_cons_False; [exact IH|]. intros H. apply H'. lra.
Qed.

Lemma prune_snoc (m now : Q) (ts : list Q) :
  (m < now)%Q → prune m (ts ++ [now]) = prune m ts ++ [now].
Proof.
  intros H. unfold prune. rewrite filter_app. f_equal.
  by rewrite filter_cons_True.
Qed.

Lemma nondecreasing_le (lo lo' : Q) (ts : list Q) :
  (lo' <= lo)%Q → nondecreasing lo ts → nondecreasing lo' ts.
Proof. destruct ts as [|t ts]; [done|]. cbn. intros ? [? ?]. split; [lra|done]. Qed.

Lemma check_rate_limit_other (now : Q) (u u' : string) (b : chatbot) :
  u ≠ u' →
  dget u' (rate_limiter (check_rate_limit now u b).2) = dget u' (rate_limiter b) ∧
  conversations (check_rate_limit now u b).2 = conversations b ∧
  rate_limit (check_rate_limit now u b).2 = rate_limit b ∧
  max_context (check_rate_limit now u b).2 = max_context b.
Proof.
  intros Hne. unfold check_rate_limit. case_bool_decide; cbn;
    by rewrite ?dget_insert_ne.
Qed.

(** The answers of [check_all] are those of the reference limiter, as
    long as what is stored is what the reference limiter would count. *)
Lemma check_all_unforgetting (lo : Q) (times accepted : list Q) (u : string) (b : chatbot) :
  dget u (rate_limiter b) = prune lo accepted →
  nondecreasing (lo + 60) times →
  (check_all times u b).1 = unforgetting (rate_limit b) accepted times.
Proof.
  revert lo accepted b. induction times as [|now times IH]; intros lo accepted b Hst Hnd.
  - done.
  - destruct Hnd as [Hlo Hnd]. cbn [check_all unforgetting].
    pose proof (check_rate_limit_unfold now u b) as Hc.
    destruct (check_rate_limit now u b) as [answer b1]. cbn zeta in Hc.
    destruct Hc as (Hans & Hstored & Hlim).
    rewrite Hst, prune_prune in Hans, Hstored by lra.
    fold (prune (now - 60) accepted).
    rewrite <- Hans.
    specialize (IH (now - 60)%Q (if answer then accepted ++ [now] else accepted) b1).
    destruct (check_all times u b1) as [rs b2]. cbn [fst] in *.
    rewrite Hlim in IH. rewrite IH; [done| |].
    + rewrite Hstored. destruct answer.
      * rewrite prune_snoc by lra. done.
      * by rewrite app_nil_r.
    + eapply nondecreasing_le; [|exact Hnd]. lra.
Qed.

End RateLimiterMore.

(** X4. The rate limiter stores at most [rate_limit] times per user:
    from a state where this holds, as it does in the initial state, it
    holds after any sequence of checks, for any users at any times, in
    any order; the limit itself is never changed. *)
Theorem rate_limiter_storage_is_bounded
    (calls : list (Q * string)) (b : Chatbot.chatbot) :
  (∀ u, Z.of_nat (length (dget u (Chatbot.rate_limiter b))) ≤ Chatbot.rate_limit b) →
  Chatbot.rate_limit (checks calls b) = Chatbot.rate_limit b ∧
  ∀ u, Z.of_nat (length (dget u (Chatbot.rate_limiter (checks calls b))))
       ≤ Chatbot.rate_limit b.
Proof.
  revert b. induction calls as [|[now v] calls IH]; intros b Hb; [done|].
  cbn [checks].
  pose proof (check_rate_limit_unfold now v b) as Hc.
  pose proof (λ u', check_rate_limit_other now v u' b) as Ho.
  destruct (Chatbot.check_rate_limit now v b) as [answer b1]. cbn zeta in Hc.
  cbn [snd] in *. destruct Hc as (Hans & Hstored & Hlim).
  destruct (IH b1) as [IH1 IH2].
  - intros u. rewrite Hlim. destruct (decide (v = u)) as [->|Hne].
    + rewrite Hstored, length_app.
      pose proof (prune_length (now - 60)%Q (dget u (Chatbot.rate_limiter b))).
      specialize (Hb u). destruct answer; cbn [length].
      * symmetry in Hans. apply negb_true_iff, bool_decide_eq_false in Hans. lia.
      * lia.
    + destruct (Ho u Hne) as [-> _]. apply Hb.
  - rewrite IH1, Hlim. split; [done|]. intros u. specialize (IH2 u). lia.
Qed.

Lemma rate_limiter_storage_is_bounded_witness :
  (∀ u, Z.of_nat (length (dget u (Chatbot.rate_limiter Chatbot.init)))
        ≤ Chatbot.rate_limit Chatbot.init) ∧
  ∀ u, Z.of_nat (length (dget u (Chatbot.rate_limiter
                           (checks [(1%Q, "alice"); (2%Q, "bob"); (1%Q, "alice")]
                              Chatbot.init)))) ≤ 20.
Proof.
  assert (∀ u, Z.of_nat (length (dget u (Chatbot.rate_limiter Chatbot.init)))
               ≤ Chatbot.rate_limit Chatbot.init) as H0.
  { intros u. unfold dget. cbn. rewrite lookup_empty. cbn. lia. }
  split; [exact H0|].
  exact (proj2 (rate_limiter_storage_is_bounded
                  [(1%Q, "alice"); (2%Q, "bob"); (1%Q, "alice")] Chatbot.init H0)).
Defined.

(** X5. Pruning loses nothing: when the clock never goes back, the
    answers that [check_rate_limit] gives one user, from an empty record,
    are those of a limiter that keeps every accepted time for ever and
    counts the accepted times of the last 60 time units at each check. *)
Theorem rate_limiter_counts_the_last_window
    (lo : Q) (times : list Q) (u : string) (b : Chatbot.chatbot) :
  dget u (Chatbot.rate_limiter b) = [] →
  nondecreasing lo times →
  (Chatbot.check_all times u b).1 = unforgetting (Chatbot.rate_limit b) [] times.
Proof.
  intros Hempty Hnd.
  apply (check_all_unforgetting (lo - 60)%Q); [by rewrite Hempty|].
  eapply nondecreasing_le; [|exact Hnd]. lra.
Qed.

Lemma rate_limiter_counts_the_last_window_witness :
  (dget "alice" (Chatbot.rate_limiter Chatbot.init) = [] ∧
   nondecreasing 0 [1%Q; 1%Q; 70%Q]) ∧
  (Chatbot.check_all [1%Q; 1%Q; 70%Q] "alice" Chatbot.init).1
  = unforgetting 20 [] [1%Q; 1%Q; 70%Q].
Proof.
  assert (nondecreasing 0 [1%Q; 1%Q; 70%Q]) as Hnd.
  { cbn. repeat split; lra. }
  split; [split; [reflexivity|exact Hnd]|].
  exact (rate_limiter_counts_the_last_window 0 [1%Q; 1%Q; 70%Q] "alice" Chatbot.init
           eq_refl Hnd).
Defined.

(** With a clock that goes back the two limiters differ: a time pruned
    at a later check is missing when an earlier time is checked. *)
Lemma clock_going_back_forgets :
  let b := Chatbot.Bot 20 ∅ ∅ 2 in
  (Chatbot.check_all [100%Q; 200%Q; 150%Q] "alice" b).1 = [true; true; true] ∧
  unforgetting 2 [] [100%Q; 200%Q; 150%Q] = [true; true; false].
Proof. vm_compute. done. Qed.

(** ** One user never changes what another user gets *)

Section Isolation.
Import Chatbot.

Lemma append_and_trim_other (u u' m : string) (b : chatbot) :
  u ≠ u' →
  dget u' (conversations (append_and_trim u m b)) = dget u' (conversations b) ∧
  rate_limiter (append_and_trim u m b) = rate_limiter b ∧
  rate_limit (append_and_trim u m b) = rate_limit b ∧
  max_context (append_and_trim u m b) = max_context b.
Proof.
  intros Hne. unfold append_and_trim. case_bool_decide; cbn;
    by rewrite ?dget_insert_ne.
Qed.

Lemma generate_response_other (api : option string) (u u' m : string) (b : chatbot) :
  u ≠ u' →
  dget u' (conversations (generate_response api u m b).2) = dget u' (conversations b) ∧
  rate_limiter (generate_response api u m b).2 = rate_limiter b ∧
  rate_limit (generate_response api u m b).2 = rate_limit b ∧
  max_context (generate_response api u m b).2 = max_context b.
Proof.
  intros Hne. destruct (append_and_trim_other u u' m b Hne) as (H1 & H2 & H3 & H4).
  unfold generate_response. destruct api as [text|]; cbn; [|done].
  by rewrite dget_insert_ne.
Qed.

End Isolation.

(** X6. What the chatbot keeps is kept per user name: a check of the
    rate limit and a generated reply for one user change neither the
    stored times nor the history of any other user, so that the other
    user's next check gets the same answer and the other user's next
    message is sent to the API with the same history. *)
Theorem identities_are_isolated
    (now : Q) (api : option string) (u u' m : string) (b : Chatbot.chatbot) :
  u ≠ u' →
  let b1 := (Chatbot.check_rate_limit now u b).2 in
  let b2 := (Chatbot.generate_response api u m b1).2 in
  dget u' (Chatbot.rate_limiter b2) = dget u' (Chatbot.rate_limiter b) ∧
  dget u' (Chatbot.conversations b2) = dget u' (Chatbot.conversations b) ∧
  (∀ t, (Chatbot.check_rate_limit t u' b2).1 = (Chatbot.check_rate_limit t u' b).1) ∧
  (∀ m', dget u' (Chatbot.conversations (Chatbot.append_and_trim u' m' b2))
         = dget u' (Chatbot.conversations (Chatbot.append_and_trim u' m' b))).
Proof.
  intros Hne. cbn zeta.
  destruct (check_rate_limit_other now u u' b Hne) as (R1 & C1 & L1 & M1).
  destruct (generate_response_other api u u' m (Chatbot.check_rate_limit now u b).2 Hne)
    as (C2 & R2 & L2 & M2).
  set (b2 := (Chatbot.generate_response api u m (Chatbot.check_rate_limit now u b).2).2) in *.
  assert (dget u' (Chatbot.rate_limiter b2) = dget u' (Chatbot.rate_limiter b)) as HR
    by (by rewrite R2).
  assert (dget u' (Chatbot.conversations b2) = dget u' (Chatbot.conversations b)) as HC
    by (by rewrite C2, C1).
  split; [exact HR|]. split; [exact HC|]. split.
  - intros t.
    pose proof (check_rate_limit_unfold t u' b2) as H2.
    pose proof (check_rate_limit_unfold t u' b) as H0.
    destruct (Chatbot.check_rate_limit t u' b2) as [a2 ?].
    destruct (Chatbot.check_rate_limit t u' b) as [a0 ?].
    cbn zeta in *. cbn [fst]. destruct H2 as (-> & _), H0 as (-> & _).
    by rewrite HR, L2, L1.
  - intros m'. rewrite !append_and_trim_history. by rewrite HC, M2, M1.
Qed.

Lemma identities_are_isolated_witness :
  "alice" ≠ "bob" ∧
  dget "bob" (Chatbot.conversations
                (Chatbot.generate_response (Some "hi") "alice" "hello"
                   (Chatbot.check_rate_limit 1 "alice"
                      (Chatbot.set_conversations {["bob" := twenty_turns]} Chatbot.init)).2).2)
  = twenty_turns.
Proof.
  assert ("alice" ≠ "bob") as Hne by discriminate.
  split; [exact Hne|].
  exact (proj1 (proj2 (identities_are_isolated 1 (Some "hi") "alice" "bob" "hello"
                         (Chatbot.set_conversations {["bob" := twenty_turns]} Chatbot.init)
                         Hne))).
Defined.

(** ** The history after a cut *)

(** X7. The cut of [generate_response] does not respect exchanges.  When
    the history of a user holds [max_context] full exchanges (a user turn
    at every even position, a reply at every odd one, [2 * max_context]
    entries), the next message cuts it to [max_context] entries, and with
    an even [max_context], the default 20 included, the history that is
    then sent to the API begins with a reply, not with a user turn; with
    an odd [max_context] it begins with a user turn. *)
Theorem cut_history_begins_with_a_reply
    (b : Chatbot.chatbot) (u m : string) (n : nat) :
  Chatbot.max_context b = Z.of_nat n →
  (0 < n)%nat →
  alternating (dget u (Chatbot.conversations b)) →
  length (dget u (Chatbot.conversations b)) = (2 * n)%nat →
  ∃ t, head (dget u (Chatbot.conversations (Chatbot.append_and_trim u m b))) = Some t ∧
       Chatbot.role t = if Nat.even n then "assistant" else "user".
Proof.
  intros Hmax Hn Halt Hlen.
  rewrite append_and_trim_history. cbn zeta.
  set (h := dget u (Chatbot.conversations b)) in *.
  rewrite bool_decide_eq_true_2 by (rewrite length_app; cbn [length]; lia).
  rewrite Hmax, py_slice_last by (rewrite ?length_app; cbn [length]; lia).
  rewrite Nat2Z.id, length_app, Hlen. cbn [length].
  replace (2 * n + 1 - n)%nat with (n + 1)%nat by lia.
  rewrite head_lookup, lookup_drop, Nat.add_0_r.
  destruct (decide (n = 1%nat)) as [->|Hn1].
  - rewrite lookup_app_r by lia. rewrite Hlen. cbn. by eexists.
  - rewrite lookup_app_l by lia.
    destruct (lookup_lt_is_Some_2 h (n + 1)) as [t Ht]; [lia|].
    exists t. split; [exact Ht|]. rewrite (Halt _ _ Ht).
    rewrite Nat.add_1_r, Nat.even_succ, <- Nat.negb_even.
    by destruct (Nat.even n).
Qed.

Lemma cut_history_begins_with_a_reply_witness :
  let b := Chatbot.set_conversations {["alice" := forty_turns]} Chatbot.init in
  (Chatbot.max_context b = Z.of_nat 20 ∧ (0 < 20)%nat ∧
   alternating (dget "alice" (Chatbot.conversations b)) ∧
   length (dget "alice" (Chatbot.conversations b)) = (2 * 20)%nat) ∧
  ∃ t, head (dget "alice" (Chatbot.conversations
                             (Chatbot.append_and_trim "alice" "hello" b))) = Some t ∧
       Chatbot.role t = "assistant".
Proof.
  cbn zeta.
  assert (alternating (dget "alice" (Chatbot.conversations
            (Chatbot.set_conversations {["alice" := forty_turns]} Chatbot.init)))) as Halt.
  { intros i t. change (dget _ _) with forty_turns. unfold forty_turns.
    rewrite list_lookup_fmap. intros Ht.
    destruct (seq 0 40 !! i) as [j|] eqn:Hj; [|discriminate Ht].
    apply lookup_seq in Hj as [-> _]. injection Ht as <-. cbn. done. }
  split; [split; [reflexivity|split; [lia|split; [exact Halt|reflexivity]]]|].
  exact (cut_history_begins_with_a_reply
           (Chatbot.set_conversations {["alice" := forty_turns]} Chatbot.init)
           "alice" "hello" 20 eq_refl ltac:(lia) Halt eq_refl).
Defined.

(** ** Strings *)

Section Strings.

Lemma append_cons (c : Ascii.ascii) (a b : string) :
  String c a +:+ b = String c (a +:+ b).
Proof. reflexivity. Qed.

Lemma append_nil_r (a : string) : a +:+ "" = a.
Proof. induction a as [|c a IH]; [done|]. by rewrite append_cons, IH. Qed.

Lemma append_assoc (a b c : string) : (a +:+ b) +:+ c = a +:+ b +:+ c.
Proof. induction a as [|x a IH]; [done|]. by rewrite !append_cons, IH. Qed.

Lemma prefix_nil (h : string) : String.prefix "" h = true.
Proof. by destruct h. Qed.

Lemma prefix_spec (n h : string) :
  String.prefix n h = true ↔ ∃ b, h = n +:+ b.
Proof.
  revert h. induction n as [|c n IH]; intros h.
  - rewrite prefix_nil. split; [|done]. intros _. by exists h.
  - destruct h as [|x h]; cbn [String.prefix].
    + split; [done|]. intros [b Hb]. discriminate Hb.
    + destruct (Ascii.ascii_dec c x) as [->|Hne].
      * rewrite IH. split; intros [b Hb]; exists b.
        -- by rewrite append_cons, <- Hb.
        -- rewrite append_cons in Hb. by injection Hb.
      * split; [done|]. intros [b Hb]. rewrite append_cons in Hb.
        injection Hb as -> _. done.
Qed.

(** ["needle" in hay] holds exactly when [hay] is some text, the
    needle, and some text. *)
Lemma contains_spec (n h : string) :
  contains n h = true ↔ ∃ a b, h = a +:+ n +:+ b.
Proof.
  induction h as [|x h IH]; cbn [contains].
  - rewrite orb_false_r, prefix_spec. split.
    + intros [b Hb]. by exists "", b.
    + intros (a & b & Hab). destruct a as [|y a]; [|discriminate Hab]. by exists b.
  - rewrite orb_true_iff, prefix_spec, IH. split.
    + intros [[b Hb]|(a & b & Hab)].
      * by exists "", b.
      * exists (String x a), b. by rewrite append_cons, Hab.
    + intros (a & b & Hab). destruct a as [|y a].
      * left. by exists b.
      * right. rewrite append_cons in Hab. injection Hab as -> ->. by exists a, b.
Qed.

Lemma contains_app_l (n a b : string) :
  contains n a = true → contains n (a +:+ b) = true.
Proof.
  rewrite !contains_spec. intros (x & y & ->). exists x, (y +:+ b).
  by rewrite !append_assoc.
Qed.

Lemma contains_app_r (n a b : string) :
  contains n b = true → contains n (a +:+ b) = true.
Proof.
  rewrite !contains_spec. intros (x & y & ->). exists (a +:+ x), y.
  by rewrite !append_assoc.
Qed.

(** For a needle of one character, the search goes through [+:+]. *)
Lemma contains_char_cons (c x : Ascii.ascii) (s : string) :
  contains (String c "") (String x s) = Ascii.eqb c x || contains (String c "") s.
Proof.
  cbn [contains String.prefix]. rewrite prefix_nil.
  destruct (Ascii.ascii_dec c x) as [->|Hne].
  - by rewrite Ascii.eqb_refl.
  - apply Ascii.eqb_neq in Hne. by rewrite Hne.
Qed.

Lemma contains_char_nil (c : Ascii.ascii) : contains (String c "") "" = false.
Proof. reflexivity. Qed.

Lemma contains_char_app (c : Ascii.ascii) (a b : string) :
  contains (String c "") (a +:+ b)
  = contains (String c "") a || contains (String c "") b.
Proof.
  induction a as [|x a IH]; [done|].
  by rewrite append_cons, !contains_char_cons, IH, orb_assoc.
Qed.

Lemma replace_char_app (old : Ascii.ascii) (new a b : string) :
  replace_char old new (a +:+ b)
  = replace_char old new a +:+ replace_char old new b.
Proof.
  induction a as [|x a IH]; [done|].
  rewrite append_cons. cbn [replace_char]. destruct (Ascii.eqb x old).
  - by rewrite IH, append_assoc.
  - by rewrite IH, append_cons.
Qed.

(** Replacing the character [c] by a text without [c] leaves no [c]. *)
Lemma replace_char_removes (c : Ascii.ascii) (new s : string) :
  contains (String c "") new = false →
  contains (String c "") (replace_char c new s) = false.
Proof.
  intros Hnew. induction s as [|x s IH]; [done|].
  cbn [replace_char]. destruct (Ascii.eqb x c) eqn:Hx.
  - by rewrite contains_char_app, Hnew, IH.
  - rewrite contains_char_cons, IH, Ascii.eqb_sym, Hx. done.
Qed.

(** Replacing another character [old] by a text without [c] neither
    adds nor removes a [c]. *)
Lemma replace_char_keeps (c old : Ascii.ascii) (new s : string) :
  c ≠ old →
  contains (String c "") new = false →
  contains (String c "") (replace_char old new s) = contains (String c "") s.
Proof.
  intros Hne Hnew. induction s as [|x s IH]; [done|].
  cbn [replace_char]. destruct (Ascii.eqb x old) eqn:Hx.
  - apply Ascii.eqb_eq in Hx as ->.
    rewrite contains_char_app, Hnew, IH, contains_char_cons.
    apply Ascii.eqb_neq in Hne. by rewrite Hne.
  - by rewrite !contains_char_cons, IH.
Qed.

(** A text without the character [old] is left as it is. *)
Lemma replace_char_absent (old : Ascii.ascii) (new s : string) :
  contains (String old "") s = false → replace_char old new s = s.
Proof.
  induction s as [|x s IH]; [done|].
  rewrite contains_char_cons. intros [Hx Hs]%orb_false_iff.
  cbn [replace_char]. rewrite Ascii.eqb_sym, Hx. by rewrite IH.
Qed.

(** The decimal digits of a number hold no newline. *)
Lemma pretty_N_go_newline (x : N) (s : string) :
  contains newline (pretty_N_go x s) = contains newline s.
Proof.
  revert s. induction (N.lt_wf_0 x) as [x _ IH]; intros s.
  assert (x = 0 ∨ 0 < x)%N as [->|?] by lia; [by rewrite pretty_N_go_0|].
  rewrite pretty_N_go_step by done.
  rewrite IH by (by apply N.div_lt).
  unfold newline. rewrite contains_char_cons.
  assert (Ascii.eqb newline_char (pretty_N_char (x `mod` 10)) = false) as ->; [|done].
  unfold pretty_N_char. by repeat case_match.
Qed.

Lemma pretty_Z_newline (z : Z) : contains newline (pretty z) = false.
Proof.
  assert (∀ p : positive, contains newline (pretty p) = false) as Hpos.
  { intros p. unfold pretty, pretty_positive, pretty, pretty_N.
    case_decide; [done|]. by rewrite pretty_N_go_newline. }
  destruct z as [|p|p]; unfold pretty, pretty_Z; [done|apply Hpos|].
  change newline with (String newline_char "").
  rewrite contains_char_app. fold newline. by rewrite Hpos.
Qed.

End Strings.

(** ** The text of the commands *)

(** X8. Whatever the message, the command that [send_message] and
    [broadcast_message] of [csend_client.py] write holds no newline: it
    is one line of the child's input.  The escaping loses information,
    though: a newline and the two characters backslash and [n] are
    written as the same text, since the backslash itself is not
    escaped. *)
Theorem escaped_command_is_one_line (peer_id : Z) (message : string) :
  contains newline (ClientCalls.send_text peer_id message) = false ∧
  contains newline (ClientCalls.broadcast_text message) = false ∧
  ∀ a b, ClientCalls.escape (a +:+ newline +:+ b)
         = ClientCalls.escape (a +:+ (backslash +:+ "n") +:+ b).
Proof.
  assert (∀ m, contains newline (ClientCalls.escape m) = false) as Hesc.
  { intros m. unfold ClientCalls.escape. by apply replace_char_removes. }
  split; [|split].
  - unfold ClientCalls.send_text, newline.
    rewrite !contains_char_app. fold newline.
    by rewrite pretty_Z_newline, Hesc.
  - unfold ClientCalls.broadcast_text, newline.
    rewrite !contains_char_app. fold newline. by rewrite Hesc.
  - intros a b. unfold ClientCalls.escape. by rewrite !replace_char_app.
Qed.

(** The escaping leaves a text without quote and newline as it is. *)
Lemma escape_plain (m : string) :
  contains dquote m = false → contains newline m = false →
  ClientCalls.escape m = m.
Proof.
  intros Hq Hn. unfold ClientCalls.escape.
  rewrite (replace_char_absent quote_char) by done.
  by apply replace_char_absent.
Qed.

(** X9. The id of [_send_command_async] is left out when the command
    holds [--id=] anywhere, the text of the message included: for a
    message with [--id=] in it, [send_message] writes the command with
    no correlation id of its own, while it registers a future under the
    generated id and awaits it. *)
Theorem message_text_suppresses_the_id
    (peer_id : Z) (message : string) (s : Client.state) (p : Client.proc) :
  contains "--id=" message = true →
  Client.process s = Some p →
  ∃ c s',
    ClientCalls.send_message_begin peer_id message s = (inr c, s') ∧
    Client.correlation_id c = Client.cmd_id (Client.next_id s) ∧
    Client.response_futures s' !! Client.cmd_id (Client.next_id s)
      = Some (Client.response_future c) ∧
    Client.futures s' !! Client.response_future c = Some Client.Pending ∧
    Client.command c = ClientCalls.send_text peer_id message ∧
    Client.stdin s' = Client.stdin s ++ [ClientCalls.send_text peer_id message].
Proof.
  intros Hid Hp.
  assert (contains "--id=" (ClientCalls.send_text peer_id message) = true) as Hcmd.
  { unfold ClientCalls.send_text.
    do 4 apply contains_app_r. apply contains_app_l.
    apply contains_spec in Hid as (a & b & ->).
    unfold ClientCalls.escape. rewrite !replace_char_app.
    apply contains_app_r, contains_app_l. reflexivity. }
  unfold ClientCalls.send_message_begin.
  destruct (send_command_async_begin_effect (ClientCalls.send_text peer_id message)
              Client.default_timeout s)
    as (r & s' & E & _ & Hf & _ & _ & _ & _ & Hr & Hcase).
  cbn zeta in Hr, Hcase. rewrite Hp, Hcmd in Hcase. destruct Hcase as [-> Hin].
  eexists _, s'. split; [exact E|]. cbn [Client.correlation_id Client.response_future
                                        Client.command].
  split; [done|]. split; [by rewrite Hr, lookup_insert_eq|].
  split; [|done]. rewrite Hf. by rewrite lookup_app_r, Nat.sub_diag.
Qed.

Lemma message_text_suppresses_the_id_witness :
  (contains "--id=" "use --id=7 here" = true ∧
   Client.process running_client = Some (Client.Proc [] false)) ∧
  ∃ c s',
    ClientCalls.send_message_begin 5 "use --id=7 here" running_client = (inr c, s') ∧
    Client.correlation_id c = "cmd_1" ∧
    Client.stdin s' = ["/send 5 " +:+ dquote +:+ "use --id=7 here" +:+ dquote].
Proof.
  split; [split; reflexivity|].
  destruct (message_text_suppresses_the_id 5 "use --id=7 here" running_client
              (Client.Proc [] false) eq_refl eq_refl)
    as (c & s' & E & Hc & _ & _ & _ & Hin).
  exists c, s'. split; [exact E|]. split; [exact Hc|exact Hin].
Defined.

(** X10. The client of [csend_chatbot.py] escapes the double quote only:
    the command it writes for a message holds a newline exactly when the
    message does, and the child then reads the one write as several
    lines. *)
Theorem chat_send_passes_newlines
    (peer_id : Z) (message : string) (s : Client.state) (p : Client.proc) :
  Client.process s = Some p →
  ∃ text,
    ChatCalls.send_message peer_id message s
      = (inr tt, Client.set_stdin (Client.stdin s ++ [text]) s) ∧
    contains newline text = contains newline message ∧
    contains newline (ChatCalls.broadcast_text message) = contains newline message.
Proof.
  intros Hp.
  assert (contains newline (ChatCalls.escape message) = contains newline message) as Hesc.
  { unfold ChatCalls.escape. by apply replace_char_keeps. }
  exists (ChatCalls.send_text peer_id message). split; [|split].
  - unfold ChatCalls.send_message, Client.send_command. by rewrite Hp.
  - unfold ChatCalls.send_text, ChatCalls.send_text_as, newline.
    rewrite !contains_char_app. fold newline.
    rewrite pretty_Z_newline, Hesc. by destruct (contains newline message).
  - unfold ChatCalls.broadcast_text, newline.
    rewrite !contains_char_app. fold newline.
    rewrite Hesc. by destruct (contains newline message).
Qed.

Lemma chat_send_passes_newlines_witness :
  Client.process running_client = Some (Client.Proc [] false) ∧
  ∃ text,
    Client.stdin (ChatCalls.send_message 5 ("one" +:+ newline +:+ "/quit")
                    running_client).2 = [text] ∧
    contains newline text = true.
Proof.
  split; [reflexivity|].
  destruct (chat_send_passes_newlines 5 ("one" +:+ newline +:+ "/quit") running_client
              (Client.Proc [] false) eq_refl) as (text & E & Hn & _).
  exists text. split; [by rewrite E|]. by rewrite Hn.
Defined.

(** ** [list_peers] of the chatbot's client *)

Section ChatListPeers.
Import Wire Client.

Lemma wait_for_response_passed_over (x : string) (pre lines : list rline) :
  forallb (passed_over x) pre = true →
  ChatCalls.wait_for_response x (pre ++ lines) = ChatCalls.wait_for_response x lines.
Proof.
  induction pre as [|l pre IH]; [done|].
  cbn [forallb]. intros [Hl Hpre]%andb_prop.
  cbn [app ChatCalls.wait_for_response].
  destruct l as [| | |[| | | | | |fields]]; try discriminate Hl.
  - cbn. by apply IH.
  - cbn [loads]. cbn [passed_over answers] in Hl.
    apply negb_true_iff in Hl. rewrite andb_comm, Hl. by apply IH.
Qed.

End ChatListPeers.

(** X11. [list_peers] of [csend_chatbot.py] reads the child's output by
    itself: it writes [/list --id=list_peers], and every line before the
    frame that answers the id is taken from the stream and dropped,
    events included, no handler being called; the lines after that frame
    are left for the read loop.  The result is [data.peers] of the frame
    when the frame names the command [/list], a [KeyError] when that
    frame has no [data], and the empty list when the frame names another
    command or none, as it is when nothing answers in time. *)
Theorem chat_list_peers_drops_what_it_reads
    (pre rest : list Wire.rline) (fields : list (string * Wire.json))
    (s : Client.state) (p : Client.proc) :
  Client.process s = Some p →
  forallb (passed_over "list_peers") pre = true →
  answers "list_peers" (Wire.JObj fields) = true →
  let s' := Client.set_stdin (Client.stdin s ++ ["/list --id=list_peers"]) s in
  let result :=
    if Wire.is_str (Wire.get "command" fields) "/list" then
      match Wire.assoc "data" fields with
      | Some data => ChatCalls.subscript "peers" data
      | None => inl Wire.KeyError
      end
    else inr (Wire.JArr []) in
  ChatCalls.list_peers (pre ++ Wire.Decoded (Wire.JObj fields) :: rest) s
    = (result, rest, s') ∧
  ChatCalls.list_peers pre s = (inr (Wire.JArr []), [], s').
Proof.
  intros Hp Hpre Hans. cbn zeta. unfold ChatCalls.list_peers, Client.send_command.
  rewrite Hp. split.
  - rewrite wait_for_response_passed_over by done.
    cbn [ChatCalls.wait_for_response Wire.loads].
    cbn [answers] in Hans. rewrite andb_comm, Hans.
    assert (Wire.truthy (Wire.JObj fields) = true) as ->.
    { destruct fields; [discriminate Hans|done]. }
    cbn [andb]. destruct (Wire.is_str (Wire.get "command" fields) "/list"); [|done].
    cbn [ChatCalls.subscript]. by destruct (Wire.assoc "data" fields).
  - rewrite <- (app_nil_r pre) at 1.
    by rewrite wait_for_response_passed_over.
Qed.

Lemma chat_list_peers_drops_what_it_reads_witness :
  let reply := [("type", Wire.JStr "response"); ("id", Wire.JStr "list_peers");
                ("command", Wire.JStr "/list");
                ("data", Wire.JObj [("peers", Wire.JArr [])])] in
  (Client.process running_client = Some (Client.Proc [] false) ∧
   forallb (passed_over "list_peers") [Wire.Decoded message_frame] = true ∧
   answers "list_peers" (Wire.JObj reply) = true) ∧
  (ChatCalls.list_peers
     [Wire.Decoded message_frame; Wire.Decoded (Wire.JObj reply);
      Wire.Decoded message_frame] running_client).1
  = (inr (Wire.JArr []), [Wire.Decoded message_frame]).
Proof.
  cbn zeta. split; [split; [|split]; reflexivity|].
  pose proof (proj1 (chat_list_peers_drops_what_it_reads
                       [Wire.Decoded message_frame] [Wire.Decoded message_frame]
                       [("type", Wire.JStr "response"); ("id", Wire.JStr "list_peers");
                        ("command", Wire.JStr "/list");
                        ("data", Wire.JObj [("peers", Wire.JArr [])])]
                       running_client (Client.Proc [] false) eq_refl eq_refl eq_refl)) as H.
  cbn [app] in H. rewrite H. reflexivity.
Defined.

(** ** The log tools *)

Section LogFiles.
Variable mtime : string → option Q.
Variable lower : string → string.
Variable log_path : string → string.

Lemma dict_get_elem_of (key v : string) (d : list (string * string)) :
  LogTool.dict_get key d = Some v → (key, v) ∈ d.
Proof.
  induction d as [|[k x] d IH]; [done|]. cbn.
  destruct (String.eqb_spec k key) as [->|_].
  - intros [= ->]. apply list_elem_of_here.
  - intros H. apply list_elem_of_further. by apply IH.
Qed.

Lemma max_by_mtime_spec (best : string * string) (l : list (string * string)) :
  LogTool.max_by_mtime mtime best l ∈ best :: l ∧
  ∀ x, x ∈ best :: l →
       (LogTool.st_mtime mtime x.2 <= LogTool.st_mtime mtime (LogTool.max_by_mtime mtime best l).2)%Q.
Proof.
  revert best. induction l as [|y l IH]; intros best; cbn [LogTool.max_by_mtime].
  - split; [apply list_elem_of_here|].
    intros x ->%list_elem_of_singleton. apply Qle_refl.
  - destruct (IH (if bool_decide (LogTool.st_mtime mtime best.2 < LogTool.st_mtime mtime y.2)%Q then y else best))
      as [Hin Hmax].
    split.
    + apply elem_of_cons in Hin as [Hin|Hin].
      * rewrite Hin. case_bool_decide.
        -- apply list_elem_of_further, list_elem_of_here.
        -- apply list_elem_of_here.
      * by do 2 apply list_elem_of_further.
    + intros x Hx.
      assert (LogTool.st_mtime mtime best.2
              <= LogTool.st_mtime mtime (if bool_decide (LogTool.st_mtime mtime best.2 < LogTool.st_mtime mtime y.2)%Q
                           then y else best).2)%Q as Hb.
      { case_bool_decide; [by apply Qlt_le_weak|apply Qle_refl]. }
      assert (LogTool.st_mtime mtime y.2
              <= LogTool.st_mtime mtime (if bool_decide (LogTool.st_mtime mtime best.2 < LogTool.st_mtime mtime y.2)%Q
                           then y else best).2)%Q as Hy.
      { case_bool_decide; [apply Qle_refl|by apply Qnot_lt_le]. }
      pose proof (Hmax _ (list_elem_of_here _ _)) as Hm.
      apply elem_of_cons in Hx as [->|Hx].
      * eapply Qle_trans; [exact Hb|exact Hm].
      * apply elem_of_cons in Hx as [->|Hx].
        -- eapply Qle_trans; [exact Hy|exact Hm].
        -- apply Hmax. by apply list_elem_of_further.
Qed.

Lemma target_log_exists (platform log_file : option string) (t : string) :
  LogTool.target_log mtime lower log_path platform log_file = inr t →
  is_Some (mtime t).
Proof.
  unfold LogTool.target_log.
  destruct (match log_file with
            | Some f => if String.eqb f "" then _ else Some f
            | None => _
            end) as [t'|]; [|done].
  destruct (String.eqb t' ""); [done|]. case_bool_decide; [|done].
  by intros [= <-].
Qed.

End LogFiles.

(** X12. [find_log_file] returns no file exactly when none of the three
    default logs exists.  A file it returns is one of the default logs
    and exists; it is the log of the platform asked for when that one
    exists, and otherwise, with no platform, an unknown platform, or a
    platform whose log is missing, it is a default log that exists and
    was modified last: the request for a platform is then answered with
    the log of another one. *)
Theorem find_log_file_result
    (mtime : string → option Q) (lower log_path : string → string)
    (platform : option string) :
  let logs := LogTool.DEFAULT_LOGS log_path in
  let found := LogTool.find_log_file mtime lower log_path platform in
  (found = None ↔ ∀ item, item ∈ logs → mtime item.2 = None) ∧
  (∀ name p, platform = Some name → name ≠ "" →
     LogTool.dict_get (lower name) logs = Some p → is_Some (mtime p) →
     found = Some p) ∧
  (∀ p, found = Some p →
     is_Some (mtime p) ∧ (∃ name, (name, p) ∈ logs) ∧
     ((∃ name, platform = Some name ∧ LogTool.dict_get (lower name) logs = Some p) ∨
      ∀ item, item ∈ logs → is_Some (mtime item.2) →
              (LogTool.st_mtime mtime item.2 <= LogTool.st_mtime mtime p)%Q)).
Proof.
  cbn zeta. unfold LogTool.find_log_file.
  set (logs := LogTool.DEFAULT_LOGS log_path).
  set (direct := match platform with Some _ => _ | None => _ end).
  assert (∀ p, direct = Some p →
               is_Some (mtime p) ∧
               ∃ name, platform = Some name ∧
                       LogTool.dict_get (lower name) logs = Some p) as Hdirect.
  { intros p. subst direct. destruct platform as [name|]; [|done].
    destruct (String.eqb name ""); [done|].
    destruct (LogTool.dict_get (lower name) logs) as [f|] eqn:Hget; [|done].
    case_bool_decide; [|done]. intros [= <-]. split; [done|]. by exists name. }
  assert (∀ item, item ∈ filter (λ item, is_Some (mtime item.2)) logs ↔
                  is_Some (mtime item.2) ∧ item ∈ logs) as Hfilter.
  { intros item. by rewrite list_elem_of_filter. }
  split; [|split].
  - destruct direct as [p|] eqn:Hd.
    + destruct (Hdirect p eq_refl) as ([m Hm] & name & _ & Hget).
      split; [done|]. intros Hnone.
      pose proof (Hnone _ (dict_get_elem_of _ _ _ Hget)) as Hn. cbn in Hn.
      rewrite Hn in Hm. discriminate Hm.
    + destruct (filter _ logs) as [|first rest] eqn:Hex.
      * split; [|done]. intros _ item Hin.
        destruct (mtime item.2) eqn:Hm; [|done].
        assert (item ∈ @nil (string * string)) as Hnil
          by (apply Hfilter; split; [by rewrite Hm|done]).
        by apply elem_of_nil in Hnil.
      * split; [done|]. intros Hnone.
        assert (first ∈ first :: rest) as Hin by apply list_elem_of_here.
        apply Hfilter in Hin as [[m Hm] Hin]. rewrite (Hnone _ Hin) in Hm.
        discriminate Hm.
  - intros name p -> Hname Hget Hex. subst direct.
    apply String.eqb_neq in Hname. rewrite Hname, Hget.
    by rewrite bool_decide_eq_true_2.
  - intros p. destruct direct as [q|] eqn:Hd.
    + intros [= <-]. destruct (Hdirect q eq_refl) as (Hex & name & Hpf & Hget).
      split; [done|]. split.
      * exists (lower name). by apply dict_get_elem_of.
      * left. by exists name.
    + destruct (filter _ logs) as [|first rest] eqn:Hex; [done|].
      intros [= <-].
      destruct (max_by_mtime_spec mtime first rest) as [Hin Hmax].
      apply Hfilter in Hin as [Hsome Hin]. split; [done|]. split.
      * exists (LogTool.max_by_mtime mtime first rest).1.
        by destruct (LogTool.max_by_mtime mtime first rest).
      * right. intros item Hitem Hsome'. apply Hmax. apply Hfilter. done.
Qed.

(** X13. The tools of the log server run the filter script on a file
    that exists, given as the last argument.  In [filter_logs] the level
    options exclude each other by rank: with [errors_only] the arguments
    are the same whatever [warnings_only], [exclude_debug] and [level]
    are, and so on down the ranks.  A count of zero for [context_lines]
    or [num_lines] is dropped like a missing one, while [find_errors]
    passes its count in every case.  When no log file is found, the list
    of available logs in the error text is empty. *)
Theorem filter_logs_arguments
    (mtime : string → option Q) (lower log_path : string → string)
    (platform log_file level : option string)
    (errors_only warnings_only exclude_debug : bool)
    (category peer : option string) (test_only : bool)
    (time_pattern : option string) (context_lines num_lines : option Z) :
  let filter_logs := LogTool.filter_logs mtime lower log_path platform log_file in
  let run := filter_logs level errors_only warnings_only exclude_debug
               category peer test_only time_pattern context_lines num_lines in
  (∀ args, run = inr args ∨
           LogTool.log_summary mtime lower log_path platform log_file = inr args ∨
           (∃ n c, LogTool.find_errors mtime lower log_path platform log_file n c
                   = inr args) ∨
           (∃ p x, LogTool.analyze_peer mtime lower log_path p platform log_file x
                   = inr args) ∨
           (∃ e, LogTool.analyze_test mtime lower log_path platform log_file e
                 = inr args) →
           ∃ t, last args = Some t ∧ is_Some (mtime t)) ∧
  (∀ l w x, filter_logs level true warnings_only exclude_debug
              category peer test_only time_pattern context_lines num_lines
            = filter_logs l true w x
                category peer test_only time_pattern context_lines num_lines) ∧
  (∀ l x, filter_logs level false true exclude_debug
            category peer test_only time_pattern context_lines num_lines
          = filter_logs l false true x
              category peer test_only time_pattern context_lines num_lines) ∧
  (∀ l, filter_logs level false false true
          category peer test_only time_pattern context_lines num_lines
        = filter_logs l false false true
            category peer test_only time_pattern context_lines num_lines) ∧
  filter_logs level errors_only warnings_only exclude_debug
    category peer test_only time_pattern (Some 0) num_lines
  = filter_logs level errors_only warnings_only exclude_debug
      category peer test_only time_pattern None num_lines ∧
  filter_logs level errors_only warnings_only exclude_debug
    category peer test_only time_pattern context_lines (Some 0)
  = filter_logs level errors_only warnings_only exclude_debug
      category peer test_only time_pattern context_lines None ∧
  (∀ t c, LogTool.target_log mtime lower log_path platform log_file = inr t →
          LogTool.find_errors mtime lower log_path platform log_file 0 c
          = inr (["-e"; "-C"; "0"] ++
                 match LogTool.given c with Some c => ["-c"; c] | None => [] end ++ [t])) ∧
  (LogTool.find_log_file mtime lower log_path platform = None →
   LogTool.given log_file = None →
   run = inl "Error: No log file found. Available logs: ").
Proof.
  cbn zeta.
  assert (∀ (pre : list string) t, last (pre ++ [t]) = Some t) as Hlast
    by (intros; apply last_snoc).
  split; [|repeat split].
  - intros args H.
    unfold LogTool.filter_logs, LogTool.log_summary, LogTool.find_errors,
      LogTool.analyze_peer, LogTool.analyze_test in H.
    pose proof (target_log_exists mtime lower log_path platform log_file) as Hex.
    destruct (LogTool.target_log mtime lower log_path platform log_file) as [e|t].
    { destruct H as [H|[H|[(?&?&H)|[(?&?&H)|(?&H)]]]]; discriminate H. }
    exists t. split; [|by apply Hex].
    destruct H as [H|[H|[(?&?&H)|[(?&?&H)|(?&H)]]]]; injection H as <-.
    + rewrite !app_assoc. apply Hlast.
    + done.
    + rewrite !app_comm_cons. apply Hlast.
    + rewrite !app_comm_cons. apply Hlast.
    + rewrite !app_comm_cons. apply Hlast.
  - intros t c Ht. unfold LogTool.find_errors. by rewrite Ht.
  - intros Hnone Hfile. unfold LogTool.filter_logs, LogTool.target_log.
    assert (match log_file with
            | Some f => if String.eqb f ""
                        then LogTool.find_log_file mtime lower log_path platform
                        else Some f
            | None => LogTool.find_log_file mtime lower log_path platform
            end = None) as ->.
    { destruct log_file as [f|]; [|done]. cbn in Hfile.
      by destruct (String.eqb f ""). }
    unfold LogTool.find_log_file in Hnone.
    destruct (match platform with Some _ => _ | None => _ end); [done|].
    destruct (filter _ _); [done|discriminate Hnone].
Qed.


(** ** The documentation tools *)

Section DocSearch.
Variable lines : list string.
Variable found : string → bool.
Variable context_lines max_results : Z.

(** The loop of [search_in_file] with its [break] gives the contexts of
    the first hits, as many as there is room for, and counts one hit
    more when there is one. *)
Lemma scan_spec (i : nat) (rest : list string) (m : Z) (results : list string) :
  DocsTool.scan lines found context_lines max_results i rest m results =
    (m + Z.min (Z.of_nat (length (hits found i rest)))
               (Z.of_nat (Z.to_nat (max_results - m)) + 1),
     results ++
     concat ((λ k, [DocsTool.context lines context_lines k; repeat_string "-" 60])
               <$> take (Z.to_nat (max_results - m)) (hits found i rest))).
Proof.
  revert i m results. induction rest as [|line rest IH]; intros i m results.
  - cbn [DocsTool.scan hits length]. rewrite take_nil. cbn [fmap list_fmap concat].
    rewrite app_nil_r. f_equal. lia.
  - cbn [DocsTool.scan hits]. destruct (found line).
    + cbn [app length]. case_bool_decide as Hfull.
      * replace (Z.to_nat (max_results - m)) with 0%nat by lia.
        cbn. rewrite app_nil_r. f_equal. lia.
      * rewrite IH.
        replace (Z.to_nat (max_results - m))
          with (S (Z.to_nat (max_results - (m + 1)))) by lia.
        cbn [take fmap list_fmap concat]. rewrite <- !app_assoc. cbn [app].
        f_equal. lia.
    + cbn [app]. apply IH.
Qed.

Lemma hits_bound (i : nat) (rest : list string) (k : nat) :
  k ∈ hits found i rest → ∃ l, rest !! (k - i)%nat = Some l ∧ (i ≤ k)%nat ∧ found l = true.
Proof.
  revert i. induction rest as [|line rest IH]; intros i; cbn [hits].
  - by intros ?%elem_of_nil.
  - intros [Hk|Hk]%elem_of_app.
    + destruct (found line) eqn:Hf; [|by apply elem_of_nil in Hk].
      apply list_elem_of_singleton in Hk as ->. exists line.
      rewrite Nat.sub_diag. done.
    + destruct (IH _ Hk) as (l & Hl & Hle & Hf). exists l.
      replace (k - i)%nat with (S (k - S i)) by lia. split; [done|]. split; [lia|done].
Qed.

End DocSearch.

Section Joining.

Lemma join_cons (sep x y : string) (l : list string) :
  join sep (x :: y :: l) = x +:+ sep +:+ join sep (y :: l).
Proof. reflexivity. Qed.

(** A text that holds the needle keeps it when joined with others. *)
Lemma contains_join (n sep x : string) (l : list string) :
  x ∈ l → contains n x = true → contains n (join sep l) = true.
Proof.
  intros Hin Hx. induction l as [|y l IH]; [by apply elem_of_nil in Hin|].
  destruct l as [|z l].
  - apply list_elem_of_singleton in Hin as ->. exact Hx.
  - rewrite join_cons. apply elem_of_cons in Hin as [->|Hin].
    + by apply contains_app_l.
    + by apply contains_app_r, contains_app_r, IH.
Qed.

End Joining.

(** X14. On a file that can be read, with a pattern that compiles,
    [search_in_file] shows the contexts of the first [max_results] lines
    that match, in file order, and nothing for a [max_results] of zero
    or less, when it reports that no match was found even if lines do
    match.  The number of matches in its header is not the number of
    matching lines: the loop stops counting at [max_results + 1]. *)
Theorem search_in_file_shows_the_first_matches
    (path name pattern : string) (lines : list string) (found : string → bool)
    (context_lines max_results : Z) :
  let all := hits found 0 lines in
  let shown := take (Z.to_nat max_results) all in
  let counted := Z.min (Z.of_nat (length all)) (Z.max 0 max_results + 1) in
  DocsTool.search_in_file path name (DocsTool.Text lines) pattern (inr found)
    context_lines max_results =
    match shown with
    | [] => "No matches found for pattern: " +:+ pattern
    | _ :: _ =>
        "Found " +:+ pretty counted +:+ " match(es) in " +:+ name +:+
        (if bool_decide (max_results < Z.of_nat (length all))
         then " (showing first " +:+ pretty max_results +:+ ")" else "") +:+
        newline +:+ repeat_string "=" 60 +:+ newline +:+ newline +:+
        join newline
          (concat ((λ i, [DocsTool.context lines context_lines i; repeat_string "-" 60])
                     <$> shown))
    end.
Proof.
  cbn zeta. unfold DocsTool.search_in_file. rewrite scan_spec.
  rewrite Z.sub_0_r, Z.add_0_l, app_nil_l.
  destruct (take (Z.to_nat max_results) (hits found 0 lines)) as [|k shown] eqn:Hshown.
  - reflexivity.
  - cbn [fmap list_fmap concat app].
    assert (0 < max_results ∧ (0 < length (hits found 0 lines))%nat) as [Hmax Hlen].
    { destruct (Z.to_nat max_results) eqn:Hn; [discriminate Hshown|].
      destruct (hits found 0 lines); [discriminate Hshown|]. cbn. lia. }
    replace (Z.of_nat (Z.to_nat max_results)) with (Z.max 0 max_results) by lia.
    set (counted := Z.min _ _).
    assert (bool_decide (max_results < counted)
            = bool_decide (max_results < Z.of_nat (length (hits found 0 lines)))) as ->.
    { apply bool_decide_ext. subst counted. lia. }
    case_bool_decide; rewrite ?append_assoc; reflexivity.
Qed.

Section DocSections.

Lemma first_match_spec (found : string → bool) (k : nat) (ls : list string) (i : nat) :
  DocsTool.first_match found k ls = Some i →
  (k ≤ i)%nat ∧ (i - k < length ls)%nat ∧
  (∃ l, ls !! (i - k)%nat = Some l ∧ found l = true) ∧
  ∀ j l, (j < i - k)%nat → ls !! j = Some l → found l = false.
Proof.
  revert k. induction ls as [|line ls IH]; intros k; cbn [DocsTool.first_match]; [done|].
  destruct (found line) eqn:Hf.
  - intros [= <-]. rewrite Nat.sub_diag. cbn.
    split; [lia|]. split; [lia|]. split; [by exists line|]. intros; lia.
  - intros H. destruct (IH _ H) as (Hle & Hlt & (l & Hl & Hfl) & Hbefore).
    replace (i - k)%nat with (S (i - S k)) by lia. cbn.
    split; [lia|]. split; [lia|]. split; [by exists l|].
    intros [|j] l' Hj Hl'; cbn in Hl'.
    + by injection Hl' as <-.
    + apply (Hbefore j); [lia|done].
Qed.

End DocSections.

(** X15. [extract_section] starts at the first line that names the
    section.  For a count [lines_to_read] that is not negative it gives
    that line and the ones after it, [lines_to_read] lines or as many as
    the file has left, and when lines are left over it says how many:
    the lines given and the lines announced are the whole rest of the
    file.  For a negative count that reaches no further back than the
    start of the file, it gives no line at all and announces more lines
    than follow the heading. *)
Theorem extract_section_window
    (path name section_name : string) (lines : list string) (found : string → bool)
    (lines_to_read : Z) (i : nat) :
  DocsTool.first_match found 0 lines = Some i →
  let n := Z.to_nat lines_to_read in
  let heading :=
    "Section found at line " +:+ pretty (i + 1)%nat +:+ " in " +:+ name +:+
    newline +:+ repeat_string "=" 60 +:+ newline +:+ newline in
  let more := λ k : Z,
    newline +:+ newline +:+ "[... " +:+ pretty k +:+ " more lines in file ...]" in
  let out :=
    DocsTool.extract_section path name (DocsTool.Text lines) section_name found
      lines_to_read in
  (∃ l, lines !! i = Some l ∧ found l = true) ∧
  (∀ j l, (j < i)%nat → lines !! j = Some l → found l = false) ∧
  (0 ≤ lines_to_read →
   out = heading +:+ join newline (take n (drop i lines)) +:+
         (if decide (i + n < length lines)%nat
          then more (Z.of_nat (length lines - (i + n))) else "")) ∧
  (lines_to_read < 0 → 0 ≤ Z.of_nat i + lines_to_read →
   out = heading +:+ more (Z.of_nat (length lines - i) - lines_to_read)).
Proof.
  intros Hfirst. cbn zeta.
  destruct (first_match_spec found 0 lines i Hfirst) as (_ & Hlt & Hhit & Hbefore).
  rewrite Nat.sub_0_r in Hlt, Hhit, Hbefore.
  split; [exact Hhit|]. split; [exact Hbefore|].
  unfold DocsTool.extract_section. rewrite Hfirst. cbn zeta.
  set (len := Z.of_nat (length lines)).
  split.
  - intros Hpos.
    assert (py_slice (Z.of_nat i) (Z.min len (Z.of_nat i + lines_to_read)) lines
            = take (Z.to_nat lines_to_read) (drop i lines)) as ->.
    { unfold py_slice. fold len.
      destruct (Z.ltb_spec (Z.of_nat i) 0); [lia|].
      destruct (Z.ltb_spec (Z.min len (Z.of_nat i + lines_to_read)) 0); [lia|].
      rewrite (Z.min_l (Z.of_nat i) len) by lia. rewrite Nat2Z.id.
      rewrite Z.min_l by lia.
      destruct (Z.le_ge_cases len (Z.of_nat i + lines_to_read)) as [Hall|Hpart].
      - rewrite Z.min_l by done.
        rewrite !take_ge; [done|rewrite length_drop; lia|rewrite length_drop; lia].
      - rewrite Z.min_r by done. f_equal. lia. }
    case_bool_decide as Hmore; case_decide as Hmore'; try lia.
    + rewrite !append_assoc.
      replace (len - Z.min len (Z.of_nat i + lines_to_read))
        with (Z.of_nat (length lines - (i + Z.to_nat lines_to_read))) by lia.
      reflexivity.
    + by rewrite !append_assoc, append_nil_r.
  - intros Hneg Hback.
    assert (py_slice (Z.of_nat i) (Z.min len (Z.of_nat i + lines_to_read)) lines = [])
      as ->.
    { unfold py_slice. fold len.
      destruct (Z.ltb_spec (Z.of_nat i) 0); [lia|].
      destruct (Z.ltb_spec (Z.min len (Z.of_nat i + lines_to_read)) 0); [lia|].
      replace (Z.to_nat _) with 0%nat by lia. done. }
    rewrite bool_decide_eq_true_2 by lia.
    rewrite !append_assoc.
    replace (len - Z.min len (Z.of_nat i + lines_to_read))
      with (Z.of_nat (length lines - i) - lines_to_read) by lia.
    reflexivity.
Qed.

Lemma extract_section_window_witness :
  let lines := ["Preface"; "TCP Streams"; "open"; "close"; "Index"] in
  let found := λ l, contains "TCP" l in
  DocsTool.first_match found 0 lines = Some 1%nat ∧
  DocsTool.extract_section "p" "guide.txt" (DocsTool.Text lines) "TCP" found 2
  = "Section found at line 2 in guide.txt" +:+ newline +:+ repeat_string "=" 60 +:+
    newline +:+ newline +:+ "TCP Streams" +:+ newline +:+ "open" +:+
    newline +:+ newline +:+ "[... 2 more lines in file ...]".
Proof.
  cbn zeta. split; [reflexivity|].
  rewrite (proj1 (proj2 (proj2 (extract_section_window "p" "guide.txt" "TCP"
             ["Preface"; "TCP Streams"; "open"; "close"; "Index"]
             (λ l, contains "TCP" l) 2 1 eq_refl))) ltac:(lia)).
  reflexivity.
Defined.


Section DocResults.
Variable books : string → DocsTool.file.
Variable book_path : string → string.

Lemma context_holds_the_line (lines : list string) (context_lines : Z) (i : nat)
    (n l : string) :
  0 ≤ context_lines →
  lines !! i = Some l →
  contains n l = true →
  contains n (DocsTool.context lines context_lines i) = true.
Proof.
  intros Hc Hl Hn. unfold DocsTool.context.
  assert (i < length lines)%nat as Hlt by (by eapply lookup_lt_Some).
  eapply (contains_join _ _
            ((if Nat.eqb i i then ">>> " else "    ") +:+ "Line " +:+
             pretty (i + 1)%nat +:+ ": " +:+ default "" (lines !! i))).
  - apply (list_elem_of_fmap_2 (λ j, _ +:+ _) _ i).
    apply elem_of_seq. lia.
  - rewrite Hl. cbn [default]. by do 4 apply contains_app_r.
Qed.

(** A shown match on a line that holds ["No matches found"] puts that
    text into the result of [search_in_file]. *)
Lemma search_in_file_quotes (path name pattern : string) (lines : list string)
    (found : string → bool) (context_lines max_results : Z) (i : nat) (l : string) :
  0 ≤ context_lines →
  i ∈ take (Z.to_nat max_results) (hits found 0 lines) →
  lines !! i = Some l →
  contains "No matches found" l = true →
  contains "No matches found"
    (DocsTool.search_in_file path name (DocsTool.Text lines) pattern (inr found)
       context_lines max_results) = true.
Proof.
  intros Hc Hi Hl Hn. unfold DocsTool.search_in_file. rewrite scan_spec.
  rewrite Z.sub_0_r, app_nil_l.
  set (results := concat _).
  assert (DocsTool.context lines context_lines i ∈ results) as Hin.
  { subst results. apply list_elem_of_split in Hi as (l1 & l2 & ->).
    rewrite fmap_app, concat_app. apply elem_of_app. right.
    cbn. apply list_elem_of_here. }
  destruct results as [|r results]; [by apply elem_of_nil in Hin|].
  apply contains_app_r. do 4 apply contains_app_r.
  eapply contains_join; [exact Hin|]. by eapply context_holds_the_line.
Qed.

Lemma search_each_without (name : string) (docs : list (string * string))
    (query : string) (regex : string + (string → bool))
    (context_lines max_results : Z) (results : list string) :
  contains "No matches found"
    (DocsTool.search_in_file (book_path name) name (books name) query regex
       context_lines max_results) = true →
  DocsTool.search_each books book_path docs query regex context_lines max_results results
  = DocsTool.search_each (λ n, if String.eqb n name then DocsTool.Missing else books n)
      book_path docs query regex context_lines max_results results.
Proof.
  intros Hdrop. revert results. induction docs as [|[doc_id n] docs IH]; intros results.
  - reflexivity.
  - cbn [DocsTool.search_each]. destruct (String.eqb_spec n name) as [->|Hne].
    + destruct (books name); [apply IH| |]; rewrite Hdrop; apply IH.
    + destruct (books n); by rewrite IH.
Qed.

End DocResults.

(** X16. [search_documentation] leaves out the results of a file by
    looking for the text ["No matches found"] in what [search_in_file]
    returns.  A file in which a shown match stands on a line that holds
    this text is therefore left out, matches and all: the answer is the
    one that would be given if the file did not exist. *)
Theorem document_quoting_no_matches_found_is_left_out
    (books : string → DocsTool.file) (book_path lower : string → string)
    (name query : string) (doc_filter : option string)
    (lines : list string) (found : string → bool)
    (context_lines max_results : Z) (i : nat) (l : string) :
  books name = DocsTool.Text lines →
  0 ≤ context_lines →
  i ∈ take (Z.to_nat max_results) (hits found 0 lines) →
  lines !! i = Some l →
  contains "No matches found" l = true →
  DocsTool.search_documentation books book_path lower query doc_filter (inr found)
    context_lines max_results
  = DocsTool.search_documentation
      (λ n, if String.eqb n name then DocsTool.Missing else books n)
      book_path lower query doc_filter (inr found) context_lines max_results.
Proof.
  intros Hbook Hc Hi Hl Hn. unfold DocsTool.search_documentation.
  assert (∀ docs,
    DocsTool.search_each books book_path docs query (inr found)
      context_lines max_results []
    = DocsTool.search_each (λ n, if String.eqb n name then DocsTool.Missing else books n)
        book_path docs query (inr found) context_lines max_results []) as Heach.
  { intros docs. apply search_each_without. rewrite Hbook.
    by eapply search_in_file_quotes. }
  by rewrite !Heach.
Qed.

Lemma document_quoting_no_matches_found_is_left_out_witness :
  let name := "MacTCP_programming.txt" in
  let lines := ["TCPCreate"; "No matches found is what TCPCreate prints"] in
  let books := λ n, if String.eqb n name then DocsTool.Text lines else DocsTool.Missing in
  let found := λ l, contains "TCPCreate" l in
  (books name = DocsTool.Text lines ∧ 0 ≤ 0 ∧
   1%nat ∈ take (Z.to_nat 10) (hits found 0 lines) ∧
   lines !! 1%nat = Some "No matches found is what TCPCreate prints" ∧
   contains "No matches found" "No matches found is what TCPCreate prints" = true) ∧
  DocsTool.search_documentation books (λ n, n) (λ s, s) "TCPCreate" None (inr found) 0 10
  = "No matches found for query: TCPCreate".
Proof.
  cbn zeta.
  assert (1%nat ∈ take (Z.to_nat 10)
            (hits (λ l, contains "TCPCreate" l) 0
               ["TCPCreate"; "No matches found is what TCPCreate prints"])) as Hi.
  { vm_compute. apply list_elem_of_further, list_elem_of_here. }
  split; [split; [reflexivity|split; [lia|split; [exact Hi|split; reflexivity]]]|].
  rewrite (document_quoting_no_matches_found_is_left_out
             (λ n, if String.eqb n "MacTCP_programming.txt"
                   then DocsTool.Text ["TCPCreate";
                                       "No matches found is what TCPCreate prints"]
                   else DocsTool.Missing)
             (λ n, n) (λ s, s) "MacTCP_programming.txt" "TCPCreate" None
             ["TCPCreate"; "No matches found is what TCPCreate prints"]
             (λ l, contains "TCPCreate" l) 0 10 1
             "No matches found is what TCPCreate prints"
             eq_refl ltac:(lia) Hi eq_refl eq_refl).
  reflexivity.
Defined.


(** ** The handlers of the chatbot *)

Section BotHandlers.
Import Wire.
Variable first_word_lower : string → string.
Variable str_of : json → string.

Lemma handle_message_body_known_id (now later : Q) (api : option string)
    (heard heard' : list rline) (u : string) (from_id : json) (content : string)
    (b : Bot.bot) :
  from_id ≠ JNull →
  Bot.handle_message_body first_word_lower str_of now later api heard heard'
    u from_id content b
  = Bot.answer first_word_lower str_of now later api heard' u from_id content
      (Bot.set_messages_received (S (Bot.messages_received b)) b).
Proof. intros Hid. unfold Bot.handle_message_body. by destruct from_id. Qed.

Lemma bot_send_message_effect (peer_id : json) (text : string) (b : Bot.bot)
    (p : Client.proc) :
  Client.process (Bot.client b) = Some p →
  Bot.send_message str_of peer_id text b
  = (inr tt,
     Bot.set_client
       (Client.set_stdin
          (Client.stdin (Bot.client b)
           ++ [ChatCalls.send_text_as (Bot.format str_of peer_id) text])
          (Bot.client b)) b).
Proof. intros Hp. unfold Bot.send_message, Client.send_command. by rewrite Hp. Qed.

(** Whether it can write or not, [send_message] changes the client
    only. *)
Lemma bot_send_message_keeps (peer_id : json) (text : string) (b : Bot.bot) :
  let b' := (Bot.send_message str_of peer_id text b).2 in
  Bot.core b' = Bot.core b ∧
  Bot.messages_sent b' = Bot.messages_sent b ∧
  Bot.messages_received b' = Bot.messages_received b ∧
  Bot.users_helped b' = Bot.users_helped b ∧
  Bot.printed b' = Bot.printed b.
Proof.
  cbn zeta. unfold Bot.send_message, Client.send_command.
  by destruct (Client.process (Bot.client b)).
Qed.

Lemma bot_list_peers_keeps (heard : list rline) (b : Bot.bot) :
  let b' := (Bot.list_peers heard b).2 in
  Bot.core b' = Bot.core b ∧
  Bot.messages_sent b' = Bot.messages_sent b ∧
  Bot.messages_received b' = Bot.messages_received b ∧
  Bot.users_helped b' = Bot.users_helped b ∧
  Bot.printed b' = Bot.printed b.
Proof.
  cbn zeta. unfold Bot.list_peers.
  by destruct (ChatCalls.list_peers heard (Bot.client b)) as [[r rest] s].
Qed.

(** What a command does to the histories: [!clear] empties the one of
    the sender, and no other command touches any; no command counts as
    a message sent. *)
Lemma handle_command_keeps (now : Q) (heard : list rline) (peer_id : json)
    (u command : string) (b : Bot.bot) :
  let b' := (Bot.handle_command first_word_lower str_of now heard peer_id u command b).2 in
  Chatbot.conversations (Bot.core b') =
    (if String.eqb (first_word_lower command) "!clear"
     then <[u := []]> (Chatbot.conversations (Bot.core b))
     else Chatbot.conversations (Bot.core b)) ∧
  Chatbot.rate_limiter (Bot.core b') = Chatbot.rate_limiter (Bot.core b) ∧
  Bot.messages_sent b' = Bot.messages_sent b ∧
  Bot.messages_received b' = Bot.messages_received b.
Proof.
  cbn zeta. unfold Bot.handle_command.
  destruct (String.eqb_spec (first_word_lower command) "!help") as [->|_].
  { destruct (bot_send_message_keeps peer_id (Bot.help_text (Bot.commands b)) b)
      as (-> & -> & -> & _). done. }
  destruct (String.eqb_spec (first_word_lower command) "!peers") as [->|_].
  { pose proof (bot_list_peers_keeps heard b) as Hl. cbn zeta in Hl.
    destruct (Bot.list_peers heard b) as [[e|peers] b1]; cbn [snd] in *.
    - destruct Hl as (-> & -> & -> & _). done.
    - destruct (Bot.peer_list str_of peers) as [e|text]; cbn [snd].
      + destruct Hl as (-> & -> & -> & _). done.
      + destruct (bot_send_message_keeps peer_id text b1) as (-> & -> & -> & _).
        destruct Hl as (-> & -> & -> & _). done. }
  destruct (String.eqb_spec (first_word_lower command) "!stats") as [->|_].
  { destruct (bot_send_message_keeps peer_id (Bot.stats_text now b) b)
      as (-> & -> & -> & _). done. }
  destruct (String.eqb_spec (first_word_lower command) "!clear") as [_|_].
  { match goal with
    | |- context [Bot.send_message str_of peer_id ?text ?b0] =>
        destruct (bot_send_message_keeps peer_id text b0) as (-> & -> & -> & _)
    end. done. }
  destruct (String.eqb_spec (first_word_lower command) "!about") as [_|_].
  { destruct (bot_send_message_keeps peer_id Bot.about_text b) as (-> & -> & -> & _).
    done. }
  match goal with
  | |- context [Bot.send_message str_of peer_id ?text ?b0] =>
      destruct (bot_send_message_keeps peer_id text b0) as (-> & -> & -> & _)
  end. done.
Qed.

End BotHandlers.

(** X17. A message from a sender over the rate limit costs nothing but
    the notice: [handle_message] counts it as received, writes the fixed
    notice to the sender, and returns.  The histories and the count of
    messages sent are as before, and the outcome is the same whatever
    the content is and whatever the API would have answered: a command
    of such a sender, [!clear] included, is not carried out. *)
Theorem refused_message_costs_only_the_notice
    (first_word_lower : string → string) (str_of : Wire.json → string)
    (now later : Q) (api : option string) (heard heard' : list Wire.rline)
    (u : string) (from_id : Wire.json) (content : string)
    (b : Bot.bot) (p : Client.proc) :
  from_id ≠ Wire.JNull →
  Client.process (Bot.client b) = Some p →
  (Chatbot.check_rate_limit now u (Bot.core b)).1 = false →
  let handle := Bot.handle_message first_word_lower str_of in
  let b' := handle now later api heard heard' u from_id content b in
  Chatbot.conversations (Bot.core b') = Chatbot.conversations (Bot.core b) ∧
  Bot.messages_received b' = S (Bot.messages_received b) ∧
  Bot.messages_sent b' = Bot.messages_sent b ∧
  Client.stdin (Bot.client b')
    = Client.stdin (Bot.client b)
      ++ [ChatCalls.send_text_as (Bot.format str_of from_id) Bot.too_quickly] ∧
  Bot.printed b' = Bot.printed b ∧
  ∀ later' api' heard1 heard2 content',
    handle now later' api' heard1 heard2 u from_id content' b = b'.
Proof.
  intros Hid Hp Hrefused. cbn zeta.
  assert (∀ later' api' heard1 heard2 content',
    Bot.handle_message first_word_lower str_of now later' api' heard1 heard2
      u from_id content' b
    = Bot.set_client
        (Client.set_stdin
           (Client.stdin (Bot.client b)
            ++ [ChatCalls.send_text_as (Bot.format str_of from_id) Bot.too_quickly])
           (Bot.client b))
        (Bot.set_core (Chatbot.check_rate_limit now u (Bot.core b)).2
           (Bot.set_users_helped ({[u]} ∪ Bot.users_helped b)
              (Bot.set_messages_received (S (Bot.messages_received b)) b)))) as Hall.
  { intros later' api' heard1 heard2 content'. unfold Bot.handle_message.
    rewrite handle_message_body_known_id by done. unfold Bot.answer.
    cbn [Bot.core Bot.set_users_helped Bot.set_messages_received].
    destruct (Chatbot.check_rate_limit now u (Bot.core b)) as [allowed limiter].
    cbn [fst snd] in *. subst allowed. cbn [negb].
    by erewrite bot_send_message_effect. }
  rewrite Hall. split; [|split; [done|split; [done|split; [done|split; [done|]]]]].
  - cbn. pose proof (check_rate_limit_other now u u (Bot.core b)) as _.
    unfold Chatbot.check_rate_limit. by case_bool_decide.
  - intros. apply Hall.
Qed.

Lemma refused_message_costs_only_the_notice_witness :
  let b := Bot.MkBot (Chatbot.Bot 20 ∅ ∅ 0) [] "hello" 0 0 ∅ 0 running_client [] in
  (Wire.JInt 5 ≠ Wire.JNull ∧
   Client.process (Bot.client b) = Some (Client.Proc [] false) ∧
   (Chatbot.check_rate_limit 1 "alice" (Bot.core b)).1 = false) ∧
  Client.stdin (Bot.client
    (Bot.handle_message (λ s, s) (λ _, "") 1 2 (Some "hi") [] [] "alice"
       (Wire.JInt 5) "!clear" b))
  = ["/send 5 " +:+ dquote +:+ Bot.too_quickly +:+ dquote].
Proof.
  cbn zeta.
  set (b := Bot.MkBot (Chatbot.Bot 20 ∅ ∅ 0) [] "hello" 0 0 ∅ 0 running_client []).
  assert (Wire.JInt 5 ≠ Wire.JNull) as Hid by discriminate.
  assert (Client.process (Bot.client b) = Some (Client.Proc [] false)) as Hp
    by reflexivity.
  assert ((Chatbot.check_rate_limit 1 "alice" (Bot.core b)).1 = false) as Hno
    by reflexivity.
  split; [split; [exact Hid|split; [exact Hp|exact Hno]]|].
  destruct (refused_message_costs_only_the_notice (λ s, s) (λ _, "") 1 2 (Some "hi")
              [] [] "alice" (Wire.JInt 5) "!clear" b (Client.Proc [] false) Hid Hp Hno)
    as (_ & _ & _ & Hin & _).
  exact Hin.
Defined.

(** X18. A message that begins with [!] from a sender within the limit
    is a command: it is answered without the API, whose outcome does not
    matter, it is not counted as a message sent, and it leaves every
    history as it is, but for [!clear], which empties the history of the
    sender and of nobody else.  The command is looked at after the
    rate-limit check, which stores its time like that of any message. *)
Theorem commands_bypass_the_api
    (first_word_lower : string → string) (str_of : Wire.json → string)
    (now later : Q) (api : option string) (heard heard' : list Wire.rline)
    (u : string) (from_id : Wire.json) (content : string) (b : Bot.bot) :
  from_id ≠ Wire.JNull →
  String.prefix "!" content = true →
  (Chatbot.check_rate_limit now u (Bot.core b)).1 = true →
  let handle := Bot.handle_message first_word_lower str_of in
  let b' := handle now later api heard heard' u from_id content b in
  (∀ api', handle now later api' heard heard' u from_id content b = b') ∧
  Bot.messages_sent b' = Bot.messages_sent b ∧
  Chatbot.conversations (Bot.core b') =
    (if String.eqb (first_word_lower content) "!clear"
     then <[u := []]> (Chatbot.conversations (Bot.core b))
     else Chatbot.conversations (Bot.core b)) ∧
  dget u (Chatbot.rate_limiter (Bot.core b'))
    = Chatbot.prune (now - 60)%Q (dget u (Chatbot.rate_limiter (Bot.core b))) ++ [now].
Proof.
  intros Hid Hbang Hallowed. cbn zeta.
  assert (∀ api',
    Bot.handle_message first_word_lower str_of now later api' heard heard'
      u from_id content b
    = let r := Bot.handle_command first_word_lower str_of later heard' from_id u content
                 (Bot.set_core (Chatbot.check_rate_limit now u (Bot.core b)).2
                    (Bot.set_users_helped ({[u]} ∪ Bot.users_helped b)
                       (Bot.set_messages_received (S (Bot.messages_received b)) b))) in
      match r with
      | (inl e, b1) => Bot.set_printed (Bot.printed b1 ++ [Bot.ErrorInHandleMessage e]) b1
      | (inr _, b1) => b1
      end) as Hall.
  { intros api'. unfold Bot.handle_message.
    rewrite handle_message_body_known_id by done. unfold Bot.answer.
    cbn [Bot.core Bot.set_users_helped Bot.set_messages_received].
    destruct (Chatbot.check_rate_limit now u (Bot.core b)) as [allowed limiter].
    cbn [fst snd] in *. subst allowed. cbn [negb]. by rewrite Hbang. }
  split; [intros api'; by rewrite !Hall|].
  rewrite Hall. cbn zeta.
  assert (Chatbot.conversations (Chatbot.check_rate_limit now u (Bot.core b)).2
          = Chatbot.conversations (Bot.core b)) as Hconv.
  { unfold Chatbot.check_rate_limit. by case_bool_decide. }
  assert (dget u (Chatbot.rate_limiter (Chatbot.check_rate_limit now u (Bot.core b)).2)
          = Chatbot.prune (now - 60)%Q (dget u (Chatbot.rate_limiter (Bot.core b)))
            ++ [now]) as Hstored.
  { pose proof (check_rate_limit_unfold now u (Bot.core b)) as Hu.
    destruct (Chatbot.check_rate_limit now u (Bot.core b)) as [allowed limiter].
    cbn zeta in Hu. cbn [fst snd] in *. subst allowed. by destruct Hu as (_ & -> & _). }
  pose proof (handle_command_keeps first_word_lower str_of later heard' from_id u content
                (Bot.set_core (Chatbot.check_rate_limit now u (Bot.core b)).2
                   (Bot.set_users_helped ({[u]} ∪ Bot.users_helped b)
                      (Bot.set_messages_received (S (Bot.messages_received b)) b))))
    as Hk.
  cbn zeta in Hk.
  cbn [Bot.core Bot.messages_sent Bot.set_core Bot.set_users_helped
       Bot.set_messages_received] in Hk.
  rewrite Hconv in Hk.
  destruct (Bot.handle_command _ _ _ _ _ _ _ _) as [[e|[]] b1]; cbn [snd] in Hk;
    destruct Hk as (Hc & Hr & Hs & _);
    cbn [Bot.core Bot.set_printed Bot.messages_sent];
    by rewrite Hc, Hr, Hs, Hstored.
Qed.


Lemma commands_bypass_the_api_witness :
  let b := Bot.MkBot
             (Chatbot.set_conversations {["alice" := twenty_turns]} Chatbot.init)
             [] "hello" 0 0 ∅ 0 running_client [] in
  (Wire.JInt 5 ≠ Wire.JNull ∧ String.prefix "!" "!clear" = true ∧
   (Chatbot.check_rate_limit 1 "alice" (Bot.core b)).1 = true) ∧
  Chatbot.conversations
    (Bot.core (Bot.handle_message (λ s, s) (λ _, "") 1 2 None [] [] "alice"
                 (Wire.JInt 5) "!clear" b))
  = <["alice" := []]> {["alice" := twenty_turns]}.
Proof.
  cbn zeta.
  set (b := Bot.MkBot
              (Chatbot.set_conversations {["alice" := twenty_turns]} Chatbot.init)
              [] "hello" 0 0 ∅ 0 running_client []).
  assert (Wire.JInt 5 ≠ Wire.JNull) as Hid by discriminate.
  assert ((Chatbot.check_rate_limit 1 "alice" (Bot.core b)).1 = true) as Hyes
    by reflexivity.
  split; [split; [exact Hid|split; [reflexivity|exact Hyes]]|].
  destruct (commands_bypass_the_api (λ s, s) (λ _, "") 1 2 None [] [] "alice"
              (Wire.JInt 5) "!clear" b Hid eq_refl Hyes) as (_ & _ & Hc & _).
  exact Hc.
Defined.

Section BotReplies.
Import Wire.
Variable str_of : json → string.

Lemma help_text_newline (commands : list (string * string)) :
  contains newline (Bot.help_text commands) = true.
Proof.
  unfold Bot.help_text.
  assert (∀ text, contains newline text = true →
            contains newline
              (foldl (λ text item,
                        text +:+ "  " +:+ item.1 +:+ " - " +:+ item.2 +:+ newline)
                     text commands) = true) as Hfold.
  { induction commands as [|item commands IH]; intros text Htext; [done|].
    cbn [foldl]. apply IH. by apply contains_app_l. }
  apply Hfold. reflexivity.
Qed.

Lemma stats_text_newline (now : Q) (b : Bot.bot) :
  contains newline (Bot.stats_text now b) = true.
Proof. unfold Bot.stats_text. apply contains_app_r, contains_app_l. reflexivity. Qed.

(** The command written for a reply holds a newline when the reply
    does. *)
Lemma chat_send_text_newline (peer_text reply : string) :
  contains newline reply = true →
  contains newline (ChatCalls.send_text_as peer_text reply) = true.
Proof.
  intros Hr. unfold ChatCalls.send_text_as.
  do 4 apply contains_app_r. apply contains_app_l.
  unfold ChatCalls.escape. change newline with (String newline_char "") in *.
  by rewrite replace_char_keeps.
Qed.

(** Whatever lines it reads, [list_peers] writes its command and
    changes nothing else of the client. *)
Lemma chat_list_peers_state (heard : list rline) (s : Client.state) (p : Client.proc) :
  Client.process s = Some p →
  (ChatCalls.list_peers heard s).2
  = Client.set_stdin (Client.stdin s ++ ["/list --id=list_peers"]) s.
Proof.
  intros Hp. unfold ChatCalls.list_peers, Client.send_command. rewrite Hp.
  destruct (ChatCalls.wait_for_response "list_peers" heard) as [[e|[response|]] rest];
    try done.
  destruct response as [| | | | | |fields]; try done.
  by destruct (truthy (JObj fields) && is_str (get "command" fields) "/list").
Qed.

End BotReplies.

(** X19. The replies of several lines are written as they are: for
    [!help], [!stats] and [!about], whose texts are built with line
    breaks, and for an answer of the API that holds one, the text that
    [handle_message] writes to the child in one write holds a newline,
    so that the child reads the one [/send] command as several lines of
    input. *)
Theorem replies_span_several_lines
    (first_word_lower : string → string) (str_of : Wire.json → string)
    (now later : Q) (api : option string) (heard heard' : list Wire.rline)
    (u : string) (from_id : Wire.json) (content : string)
    (b : Bot.bot) (p : Client.proc) :
  from_id ≠ Wire.JNull →
  Client.process (Bot.client b) = Some p →
  (Chatbot.check_rate_limit now u (Bot.core b)).1 = true →
  (String.prefix "!" content = true ∧
   (first_word_lower content = "!help" ∨ first_word_lower content = "!stats" ∨
    first_word_lower content = "!about")) ∨
  (String.prefix "!" content = false ∧
   ∃ reply, api = Some reply ∧ contains newline reply = true) →
  let b' := Bot.handle_message first_word_lower str_of now later api heard heard'
              u from_id content b in
  ∃ text, Client.stdin (Bot.client b') = Client.stdin (Bot.client b) ++ [text] ∧
          contains newline text = true.
Proof.
  intros Hid Hp Hallowed Hcase. cbn zeta. unfold Bot.handle_message.
  rewrite handle_message_body_known_id by done. unfold Bot.answer.
  cbn [Bot.core Bot.set_users_helped Bot.set_messages_received].
  destruct (Chatbot.check_rate_limit now u (Bot.core b)) as [allowed limiter].
  cbn [fst] in Hallowed. subst allowed. cbn [negb].
  destruct Hcase as [[Hbang Hcmd]|[Hplain (reply & -> & Hreply)]].
  - rewrite Hbang. unfold Bot.handle_command.
    destruct Hcmd as [-> |[-> | ->]]; cbn [String.eqb Ascii.eqb Bool.eqb andb].
    + erewrite bot_send_message_effect by exact Hp. eexists. split; [reflexivity|].
      apply chat_send_text_newline, help_text_newline.
    + erewrite bot_send_message_effect by exact Hp. eexists. split; [reflexivity|].
      apply chat_send_text_newline, stats_text_newline.
    + erewrite bot_send_message_effect by exact Hp. eexists. split; [reflexivity|].
      apply chat_send_text_newline. reflexivity.
  - rewrite Hplain. unfold Chatbot.generate_response.
    erewrite bot_send_message_effect by exact Hp. eexists. split; [reflexivity|].
    by apply chat_send_text_newline.
Qed.

Lemma replies_span_several_lines_witness :
  let b := Bot.MkBot Chatbot.init [("!help", "Show available commands")] "hello"
             0 0 ∅ 0 running_client [] in
  (Wire.JInt 5 ≠ Wire.JNull ∧
   Client.process (Bot.client b) = Some (Client.Proc [] false) ∧
   (Chatbot.check_rate_limit 1 "alice" (Bot.core b)).1 = true ∧
   String.prefix "!" "!help" = true) ∧
  ∃ text,
    Client.stdin (Bot.client
      (Bot.handle_message (λ s, s) (λ _, "") 1 2 None [] [] "alice"
         (Wire.JInt 5) "!help" b)) = [text] ∧
    contains newline text = true.
Proof.
  cbn zeta.
  set (b := Bot.MkBot Chatbot.init [("!help", "Show available commands")] "hello"
              0 0 ∅ 0 running_client []).
  assert (Wire.JInt 5 ≠ Wire.JNull) as Hid by discriminate.
  assert (Client.process (Bot.client b) = Some (Client.Proc [] false)) as Hp
    by reflexivity.
  assert ((Chatbot.check_rate_limit 1 "alice" (Bot.core b)).1 = true) as Hyes
    by reflexivity.
  split; [split; [exact Hid|split; [exact Hp|split; [exact Hyes|reflexivity]]]|].
  exact (replies_span_several_lines (λ s, s) (λ _, "") 1 2 None [] [] "alice"
           (Wire.JInt 5) "!help" b (Client.Proc [] false) Hid Hp Hyes
           (or_introl (conj eq_refl (or_introl eq_refl)))).
Defined.

(** X20. A message without an id makes [handle_message] ask the child
    for the peers.  When no peer has the user name of the sender, as it
    is when nothing answers in time, the message is counted and a
    warning is printed, and that is all: no reply is written, and the
    sender is neither counted as helped nor recorded by the rate
    limiter.  When a peer has the name, the message is handled as if it
    had carried the id of the first such peer. *)
Theorem sender_is_looked_up_by_name
    (first_word_lower : string → string) (str_of : Wire.json → string)
    (now later : Q) (api : option string) (heard heard' : list Wire.rline)
    (u content : string) (peers : Wire.json) (b : Bot.bot) (p : Client.proc) :
  Client.process (Bot.client b) = Some p →
  (ChatCalls.list_peers heard (Bot.client b)).1.1 = inr peers →
  let handle := Bot.handle_message first_word_lower str_of in
  let asked :=
    Bot.set_client
      (Client.set_stdin (Client.stdin (Bot.client b) ++ ["/list --id=list_peers"])
         (Bot.client b)) b in
  (Bot.find_peer u peers = inr Wire.JNull →
   handle now later api heard heard' u Wire.JNull content b
   = Bot.set_printed (Bot.printed b ++ [Bot.CouldNotFindPeer u])
       (Bot.set_messages_received (S (Bot.messages_received b)) asked)) ∧
  (∀ id, Bot.find_peer u peers = inr id → id ≠ Wire.JNull →
   handle now later api heard heard' u Wire.JNull content b
   = handle now later api heard heard' u id content asked).
Proof.
  intros Hp Hpeers. cbn zeta.
  pose proof (chat_list_peers_state heard (Bot.client b) p Hp) as Hstate.
  assert (Bot.list_peers heard
            (Bot.set_messages_received (S (Bot.messages_received b)) b)
          = (inr peers,
             Bot.set_client
               (Client.set_stdin
                  (Client.stdin (Bot.client b) ++ ["/list --id=list_peers"])
                  (Bot.client b))
               (Bot.set_messages_received (S (Bot.messages_received b)) b))) as Hlist.
  { unfold Bot.list_peers. cbn [Bot.client Bot.set_messages_received].
    destruct (ChatCalls.list_peers heard (Bot.client b)) as [[r rest] s].
    cbn [fst snd] in *. by subst. }
  split.
  - intros Hnone. unfold Bot.handle_message, Bot.handle_message_body.
    rewrite Hlist, Hnone. reflexivity.
  - intros id Hfound Hid. unfold Bot.handle_message at 1.
    unfold Bot.handle_message_body. rewrite Hlist, Hfound.
    unfold Bot.handle_message. rewrite handle_message_body_known_id by done.
    by destruct id.
Qed.

Lemma sender_is_looked_up_by_name_witness :
  let b := Bot.MkBot Chatbot.init [] "hello" 0 0 ∅ 0 running_client [] in
  (Client.process (Bot.client b) = Some (Client.Proc [] false) ∧
   (ChatCalls.list_peers [] (Bot.client b)).1.1 = inr (Wire.JArr [])) ∧
  let b' := Bot.handle_message (λ s, s) (λ _, "") 1 2 (Some "hi") [] [] "alice"
              Wire.JNull "hello" b in
  Client.stdin (Bot.client b') = ["/list --id=list_peers"] ∧
  Bot.printed b' = [Bot.CouldNotFindPeer "alice"] ∧
  Bot.users_helped b' = ∅ ∧
  Bot.core b' = Chatbot.init.
Proof.
  cbn zeta.
  set (b := Bot.MkBot Chatbot.init [] "hello" 0 0 ∅ 0 running_client []).
  assert (Client.process (Bot.client b) = Some (Client.Proc [] false)) as Hp
    by reflexivity.
  assert ((ChatCalls.list_peers [] (Bot.client b)).1.1 = inr (Wire.JArr [])) as Hl
    by reflexivity.
  split; [split; [exact Hp|exact Hl]|].
  rewrite (proj1 (sender_is_looked_up_by_name (λ s, s) (λ _, "") 1 2 (Some "hi") [] []
                    "alice" "hello" (Wire.JArr []) b (Client.Proc [] false) Hp Hl)
             eq_refl).
  done.
Defined.


(** X21. [handle_peer_update] never touches the histories, the rate
    limiter or the statistics.  It writes nothing for an update that is
    not a join with a peer, and for a join it writes one greeting, to
    the id of the peer that joined. *)
Theorem peer_updates_greet_joins_only
    (str_of : Wire.json → string) (event : Wire.json) (b : Bot.bot) :
  let b' := Bot.handle_peer_update str_of event b in
  (Bot.core b' = Bot.core b ∧
   Bot.messages_received b' = Bot.messages_received b ∧
   Bot.messages_sent b' = Bot.messages_sent b ∧
   Bot.users_helped b' = Bot.users_helped b) ∧
  (∀ fields data,
     event = Wire.JObj fields →
     Wire.get_or "data" (Wire.JObj []) fields = Wire.JObj data →
     Wire.is_str (Wire.get_or "action" (Wire.JStr "unknown") data) "joined"
       && Wire.truthy (Wire.get "peer" data) = false →
     b' = b) ∧
  (∀ fields data peer name id p,
     event = Wire.JObj fields →
     Wire.get_or "data" (Wire.JObj []) fields = Wire.JObj data →
     Wire.is_str (Wire.get_or "action" (Wire.JStr "unknown") data) "joined" = true →
     Wire.get "peer" data = Wire.JObj peer →
     Wire.assoc "username" peer = Some name →
     Wire.assoc "id" peer = Some id →
     Client.process (Bot.client b) = Some p →
     b' = Bot.set_client
            (Client.set_stdin
               (Client.stdin (Bot.client b)
                ++ [ChatCalls.send_text_as (Bot.format str_of id)
                      ("Welcome " +:+ Bot.format str_of name +:+ "! " +:+ Bot.greeting b)])
               (Bot.client b)) b).
Proof.
  cbn zeta. split; [|split].
  - unfold Bot.handle_peer_update.
    destruct event as [| | | | | |fields]; try done.
    destruct (Wire.get_or "data" (Wire.JObj []) fields) as [| | | | | |data]; try done.
    destruct (Wire.is_str _ "joined" && Wire.truthy (Wire.get "peer" data)); [|done].
    destruct (ChatCalls.subscript "username" (Wire.get "peer" data)) as [e|name]; [done|].
    destruct (ChatCalls.subscript "id" (Wire.get "peer" data)) as [e|id]; [done|].
    match goal with
    | |- context [Bot.send_message str_of id ?text b] =>
        pose proof (bot_send_message_keeps str_of id text b) as Hk;
        destruct (Bot.send_message str_of id text b) as [[e|[]] b1]
    end; cbn zeta in Hk; cbn [snd] in Hk; destruct Hk as (Hc & Hs & Hr & Hu & _);
      cbn [Bot.core Bot.messages_received Bot.messages_sent Bot.users_helped
           Bot.set_printed]; done.
  - intros fields data -> Hdata Hnot. unfold Bot.handle_peer_update.
    by rewrite Hdata, Hnot.
  - intros fields data peer name id p -> Hdata Hjoin Hpeer Hname Hid Hp.
    unfold Bot.handle_peer_update. rewrite Hdata, Hjoin, Hpeer.
    assert (Wire.truthy (Wire.JObj peer) = true) as ->
      by (destruct peer; [discriminate Hname|done]).
    cbn [andb ChatCalls.subscript]. rewrite Hname, Hid.
    by erewrite bot_send_message_effect.
Qed.

(** ** The harnesses *)



Section JsonQueue.
Import Wire.

Lemma get_response_no_reply (pre queue : list JsonHarness.text) :
  forallb no_reply pre = true →
  JsonHarness.get_response (pre ++ queue) = JsonHarness.get_response queue.
Proof.
  induction pre as [|t pre IH]; [done|].
  cbn [forallb]. intros [Ht Hpre]%andb_prop. cbn [app JsonHarness.get_response].
  destruct t as [|[| | | | | |fields]]; try discriminate Ht.
  - by apply IH.
  - cbn in Ht. apply negb_true_iff in Ht. cbn [JsonHarness.get_response].
    rewrite Ht. by apply IH.
Qed.

Lemma get_events_readable (queue : list JsonHarness.text) (events : list json) :
  forallb readable queue = true →
  JsonHarness.get_events queue events = (inr (events ++ events_of queue), []).
Proof.
  revert events. induction queue as [|t queue IH]; intros events.
  - intros _. cbn. by rewrite app_nil_r.
  - cbn [forallb]. intros [Ht Hq]%andb_prop. cbn [JsonHarness.get_events].
    destruct t as [|[| | | | | |fields]]; try discriminate Ht.
    + by rewrite IH.
    + assert (events_of (JsonHarness.Json (JObj fields) :: queue)
              = if is_str (get "type" fields) "event"
                then JObj fields :: events_of queue else events_of queue) as ->.
      { unfold events_of. cbn [omap list_omap]. by destruct (is_str (get "type" fields) "event"). }
      destruct (is_str (get "type" fields) "event").
      * rewrite IH by done. by rewrite <- app_assoc.
      * by rewrite IH.
Qed.

End JsonQueue.

(** X23. The JSON harness pairs commands and responses by order alone.
    [get_response] returns the oldest response or error frame of the
    queue, whatever id it carries, and drops every line before it,
    events included; when there is none it drops the whole queue and
    returns [None].  [get_events] returns the events of the queue in
    order and drops everything else, responses included. *)
Theorem harness_readers_drop_what_they_skip
    (pre post : list JsonHarness.text) (fields : list (string * Wire.json)) :
  forallb no_reply pre = true →
  Wire.is_str (Wire.get "type" fields) "response"
    || Wire.is_str (Wire.get "type" fields) "error" = true →
  JsonHarness.get_response (pre ++ JsonHarness.Json (Wire.JObj fields) :: post)
    = (inr (Some (Wire.JObj fields)), post) ∧
  JsonHarness.get_response pre = (inr None, []) ∧
  (forallb readable post = true →
   JsonHarness.get_events post [] = (inr (events_of post), [])).
Proof.
  intros Hpre Hreply. split; [|split].
  - rewrite get_response_no_reply by done. cbn. by rewrite Hreply.
  - rewrite <- (app_nil_r pre) at 1. by rewrite get_response_no_reply.
  - intros Hpost. by rewrite get_events_readable.
Qed.

Lemma harness_readers_drop_what_they_skip_witness :
  let status := [("type", Wire.JStr "response"); ("id", Wire.JStr "status001")] in
  (forallb no_reply [JsonHarness.Json message_frame] = true ∧
   Wire.is_str (Wire.get "type" status) "response"
     || Wire.is_str (Wire.get "type" status) "error" = true) ∧
  JsonHarness.get_response
    [JsonHarness.Json message_frame; JsonHarness.Json (Wire.JObj status);
     JsonHarness.Json (response_frame "list001")]
  = (inr (Some (Wire.JObj status)), [JsonHarness.Json (response_frame "list001")]).
Proof.
  cbn zeta. split; [split; reflexivity|].
  exact (proj1 (harness_readers_drop_what_they_skip
                  [JsonHarness.Json message_frame]
                  [JsonHarness.Json (response_frame "list001")]
                  [("type", Wire.JStr "response"); ("id", Wire.JStr "status001")]
                  eq_refl eq_refl)).
Defined.

